(** * Certimate: certificate orchestration engine

    A shallow embedding of the ACME issuance driver
    ([internal/certapply/client_certifier.go]), the upload-dedup protocol of
    the ctyun AO and ELB certificate stores and the deployment job driver of
    the Tencent Cloud CDN deployer, together with the properties the
    specification states about them.

    Conventions.  A Go function returning [(T, error)] becomes a computation
    in the monad [M]: it emits the collaborator calls it performs as a trace
    of events and ends in an [Outcome].  A nil pointer dereference is the
    outcome [Panic]; loops that may run forever take a fuel argument and end
    in [OutOfFuel] when it is used up.  Log lines at Info and Warn level are
    events, with their message text; the Debug lines, which only echo an SDK
    request and its response, are left out.  The [Response] body of an SDK
    answer that came back without an error is taken to be there. *)

From Stdlib Require Import ZArith List String Ascii Bool Lia.
From Stdlib Require Import DecimalString.
Import ListNotations.
Local Open Scope string_scope.
Local Open Scope Z_scope.

(** ** Go errors *)

(** [ErrNew] is [errors.New] and [fmt.Errorf] without [%w]; [ErrWrap] is
    [fmt.Errorf("<msg>: %w", cause)]; [ErrAlreadyReplaced] is lego's
    [*acme.AlreadyReplacedError]; the last two are [ctx.Err()]. *)
Inductive error : Type :=
| ErrNew (msg : string)
| ErrWrap (msg : string) (cause : error)
| ErrAlreadyReplaced (detail : string)
| ErrCanceled
| ErrDeadlineExceeded.

(** [errors.As(err, &ariErr)] with [ariErr : *acme.AlreadyReplacedError]:
    walks the [Unwrap] chain. *)
Fixpoint errors_As_AlreadyReplaced (err : error) : bool :=
  match err with
  | ErrAlreadyReplaced _ => true
  | ErrWrap _ cause => errors_As_AlreadyReplaced cause
  | _ => false
  end.

(** ** Outcomes and the trace monad *)

Inductive Outcome (A : Type) : Type :=
| Ok (a : A)
| Err (e : error)
| Panic
| OutOfFuel.

Arguments Ok {A} a.
Arguments Err {A} e.
Arguments Panic {A}.
Arguments OutOfFuel {A}.

Definition M (E A : Type) : Type := (list E * Outcome A)%type.

Definition ret {E A : Type} (a : A) : M E A := ([], Ok a).

Definition bind {E A B : Type} (m : M E A) (k : A -> M E B) : M E B :=
  match m with
  | (t, Ok a) => let (t', r) := k a in ((t ++ t')%list, r)
  | (t, Err e) => (t, Err e)
  | (t, Panic) => (t, Panic)
  | (t, OutOfFuel) => (t, OutOfFuel)
  end.

Definition emit {E : Type} (e : E) : M E unit := ([e], Ok tt).
Definition fail {E A : Type} (e : error) : M E A := ([], Err e).
Definition panic {E A : Type} : M E A := ([], Panic).

(** [v, err := call(); if err != nil { return nil, err }] *)
Definition try {E A : Type} (r : error + A) : M E A :=
  match r with
  | inl e => fail e
  | inr a => ret a
  end.

(** [v, err := call(); if err != nil { return nil, fmt.Errorf("<msg>: %w", err) }] *)
Definition try_wrap {E A : Type} (msg : string) (r : error + A) : M E A :=
  match r with
  | inl e => fail (ErrWrap msg e)
  | inr a => ret a
  end.

(** [*p] for a pointer that may be nil *)
Definition deref {E A : Type} (p : option A) : M E A :=
  match p with
  | Some a => ret a
  | None => panic
  end.

Declare Scope go_scope.
Delimit Scope go_scope with go.
Notation "x <- m ;; k" := (bind m (fun x => k))
  (at level 61, m at next level, right associativity) : go_scope.
Notation "m ;; k" := (bind m (fun _ => k))
  (at level 61, right associativity) : go_scope.
Local Open Scope go_scope.

Definition trace {E A : Type} (m : M E A) : list E := fst m.
Definition outcome {E A : Type} (m : M E A) : Outcome A := snd m.

Lemma outcome_bind {E A B : Type} (m : M E A) (k : A -> M E B) :
  outcome (bind m k) =
    match outcome m with
    | Ok a => outcome (k a)
    | Err e => Err e
    | Panic => Panic
    | OutOfFuel => OutOfFuel
    end.
Proof.
  destruct m as [t [a|e| |]]; simpl; try reflexivity.
  destruct (k a); reflexivity.
Qed.

Lemma trace_bind {E A B : Type} (m : M E A) (k : A -> M E B) :
  trace (bind m k) =
    (trace m ++ match outcome m with
                | Ok a => trace (k a)
                | _ => []
                end)%list.
Proof.
  destruct m as [t [a|e| |]]; simpl; rewrite ?app_nil_r; try reflexivity.
  destruct (k a); reflexivity.
Qed.

(** A property of events holds all along a [bind] when it holds along its
    first part and along what follows a normal end of it. *)
Lemma trace_bind_Forall {E A B : Type} (P : E -> Prop)
    (m : M E A) (k : A -> M E B) :
  Forall P (trace m) ->
  (forall a, outcome m = Ok a -> Forall P (trace (k a))) ->
  Forall P (trace (bind m k)).
Proof.
  intros Hm Hk. rewrite trace_bind. apply Forall_app. split; [exact Hm|].
  destruct (outcome m) as [a| | |]; [apply Hk; reflexivity | constructor ..].
Qed.

(** ** Go values *)

(** [time.Time] as an instant: seconds since the Unix epoch and nanoseconds
    within the second. *)
Record Time : Type := { unixSec : Z; nsec : Z }.

(** [time.Unix(sec, 0)] *)
Definition time_Unix (sec : Z) : Time := {| unixSec := sec; nsec := 0 |}.

(** [t.Equal(u)]: the same instant. *)
Definition Time_Equal (t u : Time) : bool :=
  (unixSec t =? unixSec u) && (nsec t =? nsec u).

(** [time.Second], a [time.Duration] in nanoseconds *)
Definition time_Second : Z := 1000000000.

(** Two's complement wrap-around of Go's fixed-width integers. *)
Definition wrap (bits : Z) (x : Z) : Z :=
  (x + 2 ^ (bits - 1)) mod 2 ^ bits - 2 ^ (bits - 1).

Definition add64 (x y : Z) : Z := wrap 64 (x + y).
Definition inc32 (x : Z) : Z := wrap 32 (x + 1).

(** [fmt.Sprintf("%d", n)] *)
Definition Sprintf_d (n : Z) : string := NilZero.string_of_int (Z.to_int n).

(** [strconv.FormatBool] *)
Definition FormatBool (b : bool) : string := if b then "true" else "false".

(** [slices.Equal] on [[]string] *)
Fixpoint slices_Equal (s1 s2 : list string) : bool :=
  match s1, s2 with
  | [], [] => true
  | x :: s1', y :: s2' => String.eqb x y && slices_Equal s1' s2'
  | _, _ => false
  end.

(** [slices.Contains] on [[]string] *)
Definition slices_Contains (s : list string) (v : string) : bool :=
  existsb (String.eqb v) s.

(** [strings.HasPrefix] *)
Definition HasPrefix (s p : string) : bool := String.prefix p s.

Example Sprintf_d_negative : Sprintf_d (-42) = "-42".
Proof. reflexivity. Qed.

Example Sprintf_d_zero : Sprintf_d 0 = "0".
Proof. reflexivity. Qed.

Example add64_wraps : add64 9223372036854775807 1 = -9223372036854775808.
Proof. reflexivity. Qed.

Example inc32_wraps : inc32 2147483647 = -2147483648.
Proof. reflexivity. Qed.

Example HasPrefix_wildcard : HasPrefix "*.example.com" "*." = true.
Proof. reflexivity. Qed.

Example slices_Equal_order :
  slices_Equal ["a.example"; "b.example"] ["b.example"; "a.example"] = false.
Proof. reflexivity. Qed.

Lemma slices_Equal_true (s1 s2 : list string) :
  slices_Equal s1 s2 = true <-> s1 = s2.
Proof.
  revert s2. induction s1 as [|x s1 IH]; intros [|y s2]; simpl;
    try (split; [discriminate|discriminate]); [split; reflexivity|].
  rewrite andb_true_iff, String.eqb_eq, IH.
  split; [intros [-> ->]; reflexivity | intros H; injection H; auto].
Qed.

(** ** internal/certapply/client_certifier.go *)

Module CertApply.

Section ACMEClient.

(** [map[string]any], passed through unchanged *)
Variable ConfigMap : Type.
(** lego's [challenge.Provider] *)
Variable ChallengeProvider : Type.
(** [strings.TrimSpace] of the Go standard library *)
Variable TrimSpace : string -> string.

Record ObtainCertificateRequest : Type := {
  Domains : list string;
  KeyType : string;
  ValidityTo : Time;
  ChallengeType : string;
  Provider : string;
  ProviderAccessConfig : ConfigMap;
  ProviderExtendedConfig : ConfigMap;
  DisableFollowCNAME : bool;
  Nameservers : list string;
  DnsPropagationWait : Z;
  DnsPropagationTimeout : Z;
  DnsTTL : Z;
  HttpDelayWait : Z;
  ACMEProfile : string;
  ARIReplacesAcctUrl : string;
  ARIReplacesCertId : string
}.

Record ObtainCertificateResponse : Type := {
  CSR : string;
  FullChainCertificate : string;
  IssuerCertificate : string;
  PrivateKey : string;
  ACMEAcctUrl : string;
  ACMECertUrl : string;
  ACMECertStableUrl : string;
  ARIReplaced : bool
}.

(** [applicators.ProviderFactoryOptions]; the http-01 branch leaves the
    three DNS fields at their zero value. *)
Record ProviderFactoryOptions : Type := {
  opt_ProviderAccessConfig : ConfigMap;
  opt_ProviderExtendedConfig : ConfigMap;
  opt_DnsPropagationWait : Z;
  opt_DnsPropagationTimeout : Z;
  opt_DnsTTL : Z
}.

Definition ProviderFactory : Type :=
  ProviderFactoryOptions -> error + ChallengeProvider.

(** lego's [certificate.ObtainRequest], the fields the driver sets *)
Record ObtainRequest : Type := {
  or_Domains : list string;
  or_Bundle : bool;
  or_Profile : string;
  or_NotAfter : Time;
  ReplacesCertID : string
}.

(** lego's [certificate.Resource] *)
Record Resource : Type := {
  res_CSR : string;
  res_Certificate : string;
  res_IssuerCertificate : string;
  res_PrivateKey : string;
  CertURL : string;
  CertStableURL : string
}.

(** The options handed to [SetDNS01Provider]: each [dns01.CondOption] is
    present exactly when its condition holds.  The name servers are kept as
    given, before [dns01.ParseNameservers]; durations are in nanoseconds. *)
Record Dns01Options : Type := {
  AddRecursiveNameservers : option (list string);
  PropagationWait : option Z;
  DisableAuthoritativeNssPropagationRequirement : bool
}.

Inductive event : Type :=
| Setenv (key value : string)
| SetDNS01Provider (p : ChallengeProvider) (opts : Dns01Options)
| SetHTTP01Provider (p : ChallengeProvider) (delay : Z)
| CallObtain (req : ObtainRequest)
| CallRevoke (cert : string)
| Warnf (msg : string).

(** The client: its account, the two challenge registries and the CA.
    [Certificate_Obtain n req] is the CA's answer to the order [req] made
    as the [n]-th obtain call of this run (counted from 0);
    [Certificate_Revoke cert] is the error of the revocation, if any. *)
Record ACMEClient : Type := {
  account_ACMEAcctUrl : string;
  ACMEDns01Registries_Get : string -> error + ProviderFactory;
  ACMEHttp01Registries_Get : string -> error + ProviderFactory;
  Certificate_Obtain : nat -> ObtainRequest -> error + Resource;
  Certificate_Revoke : string -> option error
}.

(** lines 94-151: the challenge solver set-up *)
Definition setChallengeProvider (c : ACMEClient)
    (request : ObtainCertificateRequest) : M event unit :=
  if String.eqb (ChallengeType request) "dns-01" then
    providerFactory <- try (ACMEDns01Registries_Get c (Provider request)) ;;
    provider <- try_wrap
      ("failed to initialize dns-01 provider '" ++ Provider request ++ "'")
      (providerFactory {|
         opt_ProviderAccessConfig := ProviderAccessConfig request;
         opt_ProviderExtendedConfig := ProviderExtendedConfig request;
         opt_DnsPropagationWait := DnsPropagationWait request;
         opt_DnsPropagationTimeout := DnsPropagationTimeout request;
         opt_DnsTTL := DnsTTL request |}) ;;
    emit (SetDNS01Provider provider {|
      AddRecursiveNameservers :=
        if (0 <? Z.of_nat (List.length (Nameservers request)))
        then Some (Nameservers request) else None;
      PropagationWait :=
        if (0 <? DnsPropagationWait request)
        then Some (DnsPropagationWait request * time_Second) else None;
      DisableAuthoritativeNssPropagationRequirement :=
        (0 <? Z.of_nat (List.length (Nameservers request)))
        || (0 <? DnsPropagationWait request) |})
  else if String.eqb (ChallengeType request) "http-01" then
    providerFactory <- try (ACMEHttp01Registries_Get c (Provider request)) ;;
    provider <- try_wrap
      ("failed to initialize http-01 provider '" ++ Provider request ++ "'")
      (providerFactory {|
         opt_ProviderAccessConfig := ProviderAccessConfig request;
         opt_ProviderExtendedConfig := ProviderExtendedConfig request;
         opt_DnsPropagationWait := 0;
         opt_DnsPropagationTimeout := 0;
         opt_DnsTTL := 0 |}) ;;
    emit (SetHTTP01Provider provider (HttpDelayWait request * time_Second))
  else
    fail (ErrNew ("unsupported challenge type: '" ++ ChallengeType request ++ "'")).

(** lines 153-159: the order sent to the CA.
    [lo.If(cond, a).Else(b)] is [if cond then a else b]. *)
Definition newObtainRequest (c : ACMEClient)
    (request : ObtainCertificateRequest) : ObtainRequest :=
  {| or_Domains := Domains request;
     or_Bundle := true;
     or_Profile := ACMEProfile request;
     or_NotAfter := ValidityTo request;
     ReplacesCertID :=
       if String.eqb (ARIReplacesAcctUrl request) (account_ACMEAcctUrl c)
       then ARIReplacesCertId request else EmptyString |}.

(** [req.ReplacesCertID = ""] *)
Definition resetReplacesCertID (req : ObtainRequest) : ObtainRequest :=
  {| or_Domains := or_Domains req;
     or_Bundle := or_Bundle req;
     or_Profile := or_Profile req;
     or_NotAfter := or_NotAfter req;
     ReplacesCertID := EmptyString |}.

(** lines 177-186 *)
Definition newObtainCertificateResponse (c : ACMEClient)
    (resp : Resource) (req : ObtainRequest) : ObtainCertificateResponse :=
  {| CSR := TrimSpace (res_CSR resp);
     FullChainCertificate := TrimSpace (res_Certificate resp);
     IssuerCertificate := TrimSpace (res_IssuerCertificate resp);
     PrivateKey := TrimSpace (res_PrivateKey resp);
     ACMEAcctUrl := account_ACMEAcctUrl c;
     ACMECertUrl := CertURL resp;
     ACMECertStableUrl := CertStableURL resp;
     ARIReplaced := negb (String.eqb (ReplacesCertID req) EmptyString) |}.

(** lines 160-175: obtain, and obtain again without ARI after an
    "already replaced" answer.  Returns the resource together with the
    request as it stands when the function goes on to build its
    response. *)
Definition obtainWithARIRetry (c : ACMEClient) (req : ObtainRequest)
    : M event (Resource * ObtainRequest) :=
  emit (CallObtain req) ;;
  match Certificate_Obtain c 0%nat req with
  | inr resp => ret (resp, req)
  | inl err =>
      if negb (errors_As_AlreadyReplaced err) then fail err
      else
        emit (Warnf "the certificate has already been replaced, try to obtain again without ARI ...") ;;
        let req := resetReplacesCertID req in
        emit (CallObtain req) ;;
        match Certificate_Obtain c 1%nat req with
        | inl err => fail err
        | inr resp => ret (resp, req)
        end
  end.

Definition sendObtainCertificateRequest (c : ACMEClient)
    (request : option ObtainCertificateRequest)
    : M event ObtainCertificateResponse :=
  match request with
  | None => fail (ErrNew "the request is nil")
  | Some request =>
      emit (Setenv "LEGO_DISABLE_CNAME_SUPPORT"
              (FormatBool (DisableFollowCNAME request))) ;;
      setChallengeProvider c request ;;
      r <- obtainWithARIRetry c (newObtainRequest c request) ;;
      ret (newObtainCertificateResponse c (fst r) (snd r))
  end.

Record RevokeCertificateRequest : Type := {
  rv_Certificate : string
}.

(** [RevokeCertificateResponse{}] *)
Inductive RevokeCertificateResponse : Type := EmptyRevokeCertificateResponse.

Definition sendRevokeCertificateRequest (c : ACMEClient)
    (request : option RevokeCertificateRequest)
    : M event RevokeCertificateResponse :=
  match request with
  | None => fail (ErrNew "the request is nil")
  | Some request =>
      emit (CallRevoke (rv_Certificate request)) ;;
      match Certificate_Revoke c (rv_Certificate request) with
      | Some err => fail err
      | None => ret EmptyRevokeCertificateResponse
      end
  end.

(** The orders sent to the CA during a run, in order. *)
Fixpoint obtainCalls (t : list event) : list ObtainRequest :=
  match t with
  | [] => []
  | CallObtain req :: t' => req :: obtainCalls t'
  | _ :: t' => obtainCalls t'
  end.

(** *** Properties of the issuance driver *)

Lemma obtainCalls_app (t1 t2 : list event) :
  obtainCalls (t1 ++ t2) = (obtainCalls t1 ++ obtainCalls t2)%list.
Proof.
  induction t1 as [|e t1 IH]; simpl; [reflexivity|].
  destruct e; simpl; rewrite IH; reflexivity.
Qed.

Lemma setChallengeProvider_obtainCalls (c : ACMEClient)
    (request : ObtainCertificateRequest) :
  obtainCalls (trace (setChallengeProvider c request)) = [].
Proof.
  unfold setChallengeProvider.
  destruct (String.eqb (ChallengeType request) "dns-01").
  - destruct (ACMEDns01Registries_Get c (Provider request)) as [e|f];
      simpl; [reflexivity|].
    match goal with |- context [f ?o] => destruct (f o) end; reflexivity.
  - destruct (String.eqb (ChallengeType request) "http-01"); [|reflexivity].
    destruct (ACMEHttp01Registries_Get c (Provider request)) as [e|f];
      simpl; [reflexivity|].
    match goal with |- context [f ?o] => destruct (f o) end; reflexivity.
Qed.

(** What one run of the obtain-and-retry block does, by the CA's answers. *)
Lemma obtainWithARIRetry_run (c : ACMEClient) (req : ObtainRequest) :
  let req' := resetReplacesCertID req in
  match Certificate_Obtain c 0%nat req with
  | inr resp =>
      obtainWithARIRetry c req = ([CallObtain req], Ok (resp, req))
  | inl err =>
      if errors_As_AlreadyReplaced err then
        obtainCalls (trace (obtainWithARIRetry c req)) = [req; req'] /\
        outcome (obtainWithARIRetry c req) =
          match Certificate_Obtain c 1%nat req' with
          | inl err2 => Err err2
          | inr resp => Ok (resp, req')
          end
      else
        obtainWithARIRetry c req = ([CallObtain req], Err err)
  end.
Proof.
  unfold obtainWithARIRetry; simpl.
  destruct (Certificate_Obtain c 0%nat req) as [err|resp]; [|reflexivity].
  destruct (errors_As_AlreadyReplaced err); simpl; [|reflexivity].
  destruct (Certificate_Obtain c 1%nat (resetReplacesCertID req));
    split; reflexivity.
Qed.

(** The run of the whole function once the challenge solver is set up. *)
Lemma sendObtainCertificateRequest_after_setup (c : ACMEClient)
    (request : ObtainCertificateRequest) :
  outcome (setChallengeProvider c request) = Ok tt ->
  let inner := obtainWithARIRetry c (newObtainRequest c request) in
  let run := sendObtainCertificateRequest c (Some request) in
  obtainCalls (trace run) = obtainCalls (trace inner) /\
  outcome run =
    match outcome inner with
    | Ok r => Ok (newObtainCertificateResponse c (fst r) (snd r))
    | Err e => Err e
    | Panic => Panic
    | OutOfFuel => OutOfFuel
    end.
Proof.
  intros Hset inner run.
  pose proof (setChallengeProvider_obtainCalls c request) as Hnone.
  subst run; unfold sendObtainCertificateRequest.
  destruct (setChallengeProvider c request) as [ts os].
  simpl in Hset, Hnone; subst os.
  subst inner.
  destruct (obtainWithARIRetry c (newObtainRequest c request)) as [ti oi].
  destruct oi as [r| | |]; simpl; rewrite ?app_nil_r;
    rewrite ?obtainCalls_app, ?Hnone; simpl;
    rewrite ?app_nil_r; split; reflexivity.
Qed.

(** When the set-up fails the CA is never called. *)
Lemma sendObtainCertificateRequest_setup_failed (c : ACMEClient)
    (request : ObtainCertificateRequest) :
  outcome (setChallengeProvider c request) <> Ok tt ->
  obtainCalls (trace (sendObtainCertificateRequest c (Some request))) = [] /\
  forall resp,
    outcome (sendObtainCertificateRequest c (Some request)) <> Ok resp.
Proof.
  intros Hset.
  pose proof (setChallengeProvider_obtainCalls c request) as Hnone.
  unfold sendObtainCertificateRequest.
  destruct (setChallengeProvider c request) as [ts os].
  simpl in Hset, Hnone.
  destruct os as [[]| | |]; simpl; try (split; [assumption|discriminate]).
  contradiction Hset; reflexivity.
Qed.

(** C5: when the first obtain fails with an "already replaced" (ARI
    conflict) error the driver clears the replaces-certificate id and
    obtains once more, without ARI; whatever that second call answers is the
    result, an error being returned as it is with no third call; a first
    failure that is not an ARI conflict is returned at once, the CA having
    been called a single time. *)
Theorem ari_conflict_retried_exactly_once (c : ACMEClient)
    (request : ObtainCertificateRequest) (err : error) :
  outcome (setChallengeProvider c request) = Ok tt ->
  Certificate_Obtain c 0%nat (newObtainRequest c request) = inl err ->
  let req := newObtainRequest c request in
  let req' := resetReplacesCertID req in
  let run := sendObtainCertificateRequest c (Some request) in
  (errors_As_AlreadyReplaced err = true ->
     obtainCalls (trace run) = [req; req'] /\
     ReplacesCertID req' = EmptyString /\
     (forall err2, Certificate_Obtain c 1%nat req' = inl err2 ->
        outcome run = Err err2) /\
     (forall resp, Certificate_Obtain c 1%nat req' = inr resp ->
        outcome run = Ok (newObtainCertificateResponse c resp req'))) /\
  (errors_As_AlreadyReplaced err = false ->
     obtainCalls (trace run) = [req] /\ outcome run = Err err).
Proof.
  intros Hset Hfirst req req' run.
  destruct (sendObtainCertificateRequest_after_setup c request Hset)
    as [Hcalls Hout].
  fold req in Hcalls, Hout. fold run in Hcalls, Hout.
  pose proof (obtainWithARIRetry_run c req) as Hrun.
  cbv zeta in Hrun. fold req in Hfirst. rewrite Hfirst in Hrun.
  fold req' in Hrun.
  split; intros Hari; rewrite Hari in Hrun.
  - destruct Hrun as [Hc Ho].
    rewrite Hcalls, Hc, Hout, Ho.
    repeat split; try reflexivity.
    + intros err2 H2. rewrite H2. reflexivity.
    + intros resp H2. rewrite H2. reflexivity.
  - rewrite Hcalls, Hout, Hrun. split; reflexivity.
Qed.

(** C6: the order sent to the CA carries the request's ARI replaces id when
    the request's replacement account URL is the client's own account URL,
    and the empty string otherwise; with another account's URL no order of
    the run, first or retried, carries a replaces id. *)
Theorem cross_account_ari_never_sent (c : ACMEClient)
    (request : ObtainCertificateRequest) :
  let calls :=
    obtainCalls (trace (sendObtainCertificateRequest c (Some request))) in
  (outcome (setChallengeProvider c request) = Ok tt ->
     exists rest, calls = newObtainRequest c request :: rest) /\
  (ARIReplacesAcctUrl request = account_ACMEAcctUrl c ->
     ReplacesCertID (newObtainRequest c request) = ARIReplacesCertId request) /\
  (ARIReplacesAcctUrl request <> account_ACMEAcctUrl c ->
     ReplacesCertID (newObtainRequest c request) = EmptyString /\
     Forall (fun req => ReplacesCertID req = EmptyString) calls).
Proof.
  intros calls.
  assert (Hshape : forall req,
    obtainCalls (trace (obtainWithARIRetry c req)) = [req] \/
    obtainCalls (trace (obtainWithARIRetry c req)) =
      [req; resetReplacesCertID req]).
  { intros req. pose proof (obtainWithARIRetry_run c req) as Hrun.
    cbv zeta in Hrun.
    destruct (Certificate_Obtain c 0%nat req) as [err|resp].
    - destruct (errors_As_AlreadyReplaced err).
      + right. apply Hrun.
      + left. rewrite Hrun. reflexivity.
    - left. rewrite Hrun. reflexivity. }
  split; [|split].
  - intros Hset.
    destruct (sendObtainCertificateRequest_after_setup c request Hset)
      as [Hcalls _].
    subst calls. rewrite Hcalls.
    destruct (Hshape (newObtainRequest c request)) as [H|H]; rewrite H; eauto.
  - intros Hacct. simpl.
    apply String.eqb_eq in Hacct. rewrite Hacct. reflexivity.
  - intros Hacct.
    assert (Hempty : ReplacesCertID (newObtainRequest c request) = EmptyString).
    { simpl. apply String.eqb_neq in Hacct. rewrite Hacct. reflexivity. }
    split; [exact Hempty|].
    subst calls.
    destruct (outcome (setChallengeProvider c request)) as [[]| | |] eqn:Hset.
    + destruct (sendObtainCertificateRequest_after_setup c request Hset)
        as [Hcalls _].
      rewrite Hcalls.
      destruct (Hshape (newObtainRequest c request)) as [H|H]; rewrite H;
        repeat constructor; assumption.
    + destruct (sendObtainCertificateRequest_setup_failed c request) as [H _];
        [rewrite Hset; discriminate | rewrite H; constructor].
    + destruct (sendObtainCertificateRequest_setup_failed c request) as [H _];
        [rewrite Hset; discriminate | rewrite H; constructor].
    + destruct (sendObtainCertificateRequest_setup_failed c request) as [H _];
        [rewrite Hset; discriminate | rewrite H; constructor].
Qed.

(** C10: on success the response's [ARIReplaced] flag is set exactly when
    the order that succeeded (the last one sent) carried a non-empty
    replaces id; it is unset whenever the retry was taken and whenever the
    request names another account's URL. *)
Theorem ari_replaced_iff_final_order_has_id (c : ACMEClient)
    (request : ObtainCertificateRequest) (response : ObtainCertificateResponse) :
  outcome (sendObtainCertificateRequest c (Some request)) = Ok response ->
  let calls :=
    obtainCalls (trace (sendObtainCertificateRequest c (Some request))) in
  exists (earlier : list ObtainRequest) (final : ObtainRequest) (resp : Resource),
    calls = (earlier ++ [final])%list /\
    Certificate_Obtain c (List.length earlier) final = inr resp /\
    response = newObtainCertificateResponse c resp final /\
    (ARIReplaced response = true <-> ReplacesCertID final <> EmptyString) /\
    (earlier <> [] -> ARIReplaced response = false) /\
    (ARIReplacesAcctUrl request <> account_ACMEAcctUrl c ->
       ARIReplaced response = false).
Proof.
  intros Hok calls.
  assert (Hflag : forall resp final,
    ARIReplaced (newObtainCertificateResponse c resp final) = true <->
    ReplacesCertID final <> EmptyString).
  { intros resp final. simpl. rewrite negb_true_iff. apply String.eqb_neq. }
  destruct (outcome (setChallengeProvider c request)) as [[]| | |] eqn:Hset;
    try (destruct (sendObtainCertificateRequest_setup_failed c request)
           as [_ H]; [rewrite Hset; discriminate | elim (H response Hok)]).
  destruct (sendObtainCertificateRequest_after_setup c request Hset)
    as [Hcalls Hout].
  fold calls in Hcalls. rewrite Hok in Hout.
  set (req := newObtainRequest c request) in *.
  pose proof (obtainWithARIRetry_run c req) as Hrun. cbv zeta in Hrun.
  destruct (Certificate_Obtain c 0%nat req) as [err|resp] eqn:H0.
  - destruct (errors_As_AlreadyReplaced err); [|rewrite Hrun in Hout; discriminate].
    destruct Hrun as [Hc Ho]. rewrite Ho in Hout.
    destruct (Certificate_Obtain c 1%nat (resetReplacesCertID req))
      as [err2|resp] eqn:H1; [discriminate|].
    injection Hout as Hresp. simpl in Hresp. subst response.
    exists [req], (resetReplacesCertID req), resp.
    rewrite Hcalls, Hc.
    split; [reflexivity|]. split; [exact H1|]. split; [reflexivity|].
    split; [apply Hflag|]. split; reflexivity.
  - rewrite Hrun in Hout, Hcalls. injection Hout as Hresp. simpl in Hresp.
    subst response.
    exists [], req, resp.
    rewrite Hcalls.
    split; [reflexivity|]. split; [exact H0|]. split; [reflexivity|].
    split; [apply Hflag|]. split.
    + intros H; contradiction H; reflexivity.
    + intros Hacct. simpl.
      apply String.eqb_neq in Hacct. rewrite Hacct. reflexivity.
Qed.

(** *** Further properties of the issuance driver *)

Lemma obtainWithARIRetry_trace_head (c : ACMEClient) (req : ObtainRequest) :
  exists rest, trace (obtainWithARIRetry c req) = CallObtain req :: rest.
Proof.
  unfold obtainWithARIRetry. rewrite trace_bind. simpl. eexists. reflexivity.
Qed.

(** The orders of the obtain-and-retry block: the order itself, and at most
    the same order again with its replaces id cleared. *)
Lemma obtainWithARIRetry_calls_shape (c : ACMEClient) (req : ObtainRequest) :
  obtainCalls (trace (obtainWithARIRetry c req)) = [req] \/
  obtainCalls (trace (obtainWithARIRetry c req)) = [req; resetReplacesCertID req].
Proof.
  pose proof (obtainWithARIRetry_run c req) as Hrun. cbv zeta in Hrun.
  destruct (Certificate_Obtain c 0%nat req) as [err|resp].
  - destruct (errors_As_AlreadyReplaced err).
    + right. apply Hrun.
    + left. rewrite Hrun. reflexivity.
  - left. rewrite Hrun. reflexivity.
Qed.

(** What the challenge set-up leaves in the trace: the one solver it
    installed when it succeeds, nothing when it fails. *)
Lemma setChallengeProvider_cases (c : ACMEClient)
    (request : ObtainCertificateRequest) :
  match outcome (setChallengeProvider c request) with
  | Ok _ =>
      exists p,
        (ChallengeType request = "dns-01" /\
         exists opts, trace (setChallengeProvider c request)
                      = [SetDNS01Provider p opts]) \/
        (ChallengeType request = "http-01" /\
         trace (setChallengeProvider c request)
           = [SetHTTP01Provider p (HttpDelayWait request * time_Second)])
  | _ => trace (setChallengeProvider c request) = []
  end.
Proof.
  unfold setChallengeProvider.
  destruct (String.eqb (ChallengeType request) "dns-01") eqn:Hdns.
  - apply String.eqb_eq in Hdns.
    destruct (ACMEDns01Registries_Get c (Provider request)) as [e|f];
      [reflexivity|]. simpl.
    match goal with |- context [f ?o] => destruct (f o) as [e|p] end;
      [reflexivity|]. simpl.
    exists p. left. split; [exact Hdns|]. eexists. reflexivity.
  - destruct (String.eqb (ChallengeType request) "http-01") eqn:Hhttp;
      [|reflexivity].
    apply String.eqb_eq in Hhttp.
    destruct (ACMEHttp01Registries_Get c (Provider request)) as [e|f];
      [reflexivity|]. simpl.
    match goal with |- context [f ?o] => destruct (f o) as [e|p] end;
      [reflexivity|]. simpl.
    exists p. right. split; [exact Hhttp|reflexivity].
Qed.

Lemma sendObtainCertificateRequest_trace (c : ACMEClient)
    (request : ObtainCertificateRequest) :
  outcome (setChallengeProvider c request) = Ok tt ->
  trace (sendObtainCertificateRequest c (Some request)) =
    (Setenv "LEGO_DISABLE_CNAME_SUPPORT" (FormatBool (DisableFollowCNAME request))
     :: trace (setChallengeProvider c request)
     ++ trace (obtainWithARIRetry c (newObtainRequest c request)))%list.
Proof.
  intros Hset. unfold sendObtainCertificateRequest.
  rewrite trace_bind. cbn [trace outcome fst snd emit app].
  rewrite trace_bind, Hset, trace_bind.
  destruct (outcome (obtainWithARIRetry c (newObtainRequest c request)));
    cbn [trace fst ret]; rewrite ?app_nil_r; reflexivity.
Qed.

(** X1: no order reaches the CA before a challenge solver is installed.
    A run that sends any order starts by setting the CNAME environment
    variable, then installs the dns-01 or the http-01 solver, according to
    the request's challenge type, and only then sends the order built from
    the request. *)
Theorem order_only_after_solver_installed (c : ACMEClient)
    (request : ObtainCertificateRequest) :
  obtainCalls (trace (sendObtainCertificateRequest c (Some request))) <> [] ->
  exists (p : ChallengeProvider) (solver : event) (rest : list event),
    trace (sendObtainCertificateRequest c (Some request)) =
      Setenv "LEGO_DISABLE_CNAME_SUPPORT" (FormatBool (DisableFollowCNAME request))
      :: solver :: CallObtain (newObtainRequest c request) :: rest /\
    ((ChallengeType request = "dns-01" /\
      exists opts, solver = SetDNS01Provider p opts) \/
     (ChallengeType request = "http-01" /\
      solver = SetHTTP01Provider p (HttpDelayWait request * time_Second))).
Proof.
  intros Hcalls.
  destruct (outcome (setChallengeProvider c request)) as [[]| | |] eqn:Hset;
    try (destruct (sendObtainCertificateRequest_setup_failed c request)
           as [H _]; [rewrite Hset; discriminate | contradiction (Hcalls H)]).
  pose proof (setChallengeProvider_cases c request) as Hcases.
  rewrite Hset in Hcases. destruct Hcases as [p Hcases].
  destruct (obtainWithARIRetry_trace_head c (newObtainRequest c request))
    as [rest Hhead].
  rewrite (sendObtainCertificateRequest_trace c request Hset), Hhead.
  destruct Hcases as [[Hty [opts Htr]] | [Hty Htr]]; rewrite Htr.
  - exists p, (SetDNS01Provider p opts), rest.
    split; [reflexivity|]. left. split; [exact Hty|]. exists opts. reflexivity.
  - exists p, (SetHTTP01Provider p (HttpDelayWait request * time_Second)), rest.
    split; [reflexivity|]. right. split; [exact Hty|reflexivity].
Qed.

(** X2: a challenge type other than dns-01 and http-01, a registry that
    does not know the provider, and a provider factory that fails each end
    the run with an error and without any order: the registry's error is
    returned as it is, the factory's error wrapped with the provider's
    name. *)
Theorem solver_setup_failure_sends_no_order (c : ACMEClient)
    (request : ObtainCertificateRequest) :
  let run := sendObtainCertificateRequest c (Some request) in
  let options :=
    {| opt_ProviderAccessConfig := ProviderAccessConfig request;
       opt_ProviderExtendedConfig := ProviderExtendedConfig request;
       opt_DnsPropagationWait := DnsPropagationWait request;
       opt_DnsPropagationTimeout := DnsPropagationTimeout request;
       opt_DnsTTL := DnsTTL request |} in
  let options_http :=
    {| opt_ProviderAccessConfig := ProviderAccessConfig request;
       opt_ProviderExtendedConfig := ProviderExtendedConfig request;
       opt_DnsPropagationWait := 0;
       opt_DnsPropagationTimeout := 0;
       opt_DnsTTL := 0 |} in
  (ChallengeType request <> "dns-01" -> ChallengeType request <> "http-01" ->
     outcome run =
       Err (ErrNew ("unsupported challenge type: '" ++ ChallengeType request ++ "'"))
     /\ obtainCalls (trace run) = []) /\
  (ChallengeType request = "dns-01" ->
     (forall e, ACMEDns01Registries_Get c (Provider request) = inl e ->
        outcome run = Err e /\ obtainCalls (trace run) = []) /\
     (forall factory e,
        ACMEDns01Registries_Get c (Provider request) = inr factory ->
        factory options = inl e ->
        outcome run =
          Err (ErrWrap ("failed to initialize dns-01 provider '"
                        ++ Provider request ++ "'") e)
        /\ obtainCalls (trace run) = [])) /\
  (ChallengeType request = "http-01" ->
     (forall e, ACMEHttp01Registries_Get c (Provider request) = inl e ->
        outcome run = Err e /\ obtainCalls (trace run) = []) /\
     (forall factory e,
        ACMEHttp01Registries_Get c (Provider request) = inr factory ->
        factory options_http = inl e ->
        outcome run =
          Err (ErrWrap ("failed to initialize http-01 provider '"
                        ++ Provider request ++ "'") e)
        /\ obtainCalls (trace run) = [])).
Proof.
  intros run options options_http.
  assert (Hfail : forall err,
            outcome (setChallengeProvider c request) = Err err ->
            outcome run = Err err /\ obtainCalls (trace run) = []).
  { intros err Hset.
    destruct (sendObtainCertificateRequest_setup_failed c request) as [H _];
      [rewrite Hset; discriminate|].
    split; [|exact H].
    subst run. unfold sendObtainCertificateRequest.
    rewrite outcome_bind. cbn [outcome snd emit].
    rewrite outcome_bind, Hset. reflexivity. }
  split; [|split].
  - intros Hdns Hhttp. apply Hfail. unfold setChallengeProvider.
    apply String.eqb_neq in Hdns, Hhttp. rewrite Hdns, Hhttp. reflexivity.
  - intros Hdns. apply String.eqb_eq in Hdns. split.
    + intros e He. apply Hfail. unfold setChallengeProvider.
      rewrite Hdns, He. reflexivity.
    + intros factory e Hreg Hfac. apply Hfail. unfold setChallengeProvider.
      rewrite Hdns, Hreg. cbn [try bind ret]. fold options. rewrite Hfac.
      reflexivity.
  - intros Hhttp. split.
    + intros e He. apply Hfail. unfold setChallengeProvider.
      rewrite Hhttp. cbn [String.eqb Ascii.eqb Bool.eqb]. rewrite He.
      reflexivity.
    + intros factory e Hreg Hfac. apply Hfail. unfold setChallengeProvider.
      rewrite Hhttp. cbn [String.eqb Ascii.eqb Bool.eqb]. rewrite Hreg.
      cbn [try bind ret]. fold options_http. rewrite Hfac. reflexivity.
Qed.

(** X3: whatever the CA answers, a run sends at most two orders; when it
    sends two, the second is the first with the replaces id cleared and
    the domains, bundle flag, profile and validity end unchanged. *)
Theorem at_most_two_orders (c : ACMEClient)
    (request : option ObtainCertificateRequest) :
  let calls := obtainCalls (trace (sendObtainCertificateRequest c request)) in
  (List.length calls <= 2)%nat /\
  (forall first second, calls = [first; second] ->
     ReplacesCertID second = EmptyString /\
     or_Domains second = or_Domains first /\
     or_Bundle second = or_Bundle first /\
     or_Profile second = or_Profile first /\
     or_NotAfter second = or_NotAfter first).
Proof.
  intros calls. subst calls.
  destruct request as [request|]; [|split; [simpl; lia | discriminate]].
  destruct (outcome (setChallengeProvider c request)) as [[]| | |] eqn:Hset;
    try (destruct (sendObtainCertificateRequest_setup_failed c request)
           as [H _]; [rewrite Hset; discriminate |
                      rewrite H; split; [simpl; lia | discriminate]]).
  destruct (sendObtainCertificateRequest_after_setup c request Hset)
    as [Hcalls _].
  rewrite Hcalls.
  destruct (obtainWithARIRetry_calls_shape c (newObtainRequest c request))
    as [H|H]; rewrite H.
  - split; [simpl; lia | discriminate].
  - split; [simpl; lia|].
    intros first second Heq. injection Heq as <- <-.
    repeat split; reflexivity.
Qed.

Lemma if_Some_not_None {A : Type} (b : bool) (x : A) :
  (if b then Some x else None) <> None <-> b = true.
Proof.
  destruct b; split; try discriminate; try reflexivity.
  intros H; contradiction H; reflexivity.
Qed.

Lemma if_Some_eq {A : Type} (b : bool) (x y : A) :
  (if b then Some x else None) = Some y -> y = x.
Proof. destruct b; [intros H; injection H; auto | discriminate]. Qed.

(** X4: the options of the dns-01 solver.  The recursive name servers are
    passed exactly when the request lists some, the propagation wait
    exactly when it is positive (as that many seconds), and the
    authoritative name server check is disabled exactly when at least one
    of the two is passed. *)
Theorem dns01_solver_options (c : ACMEClient)
    (request : ObtainCertificateRequest) (p : ChallengeProvider)
    (opts : Dns01Options) :
  In (SetDNS01Provider p opts) (trace (setChallengeProvider c request)) ->
  (AddRecursiveNameservers opts <> None <-> Nameservers request <> []) /\
  (forall ns, AddRecursiveNameservers opts = Some ns -> ns = Nameservers request) /\
  (PropagationWait opts <> None <-> 0 < DnsPropagationWait request) /\
  (forall d, PropagationWait opts = Some d ->
     d = DnsPropagationWait request * time_Second) /\
  (DisableAuthoritativeNssPropagationRequirement opts = true <->
     AddRecursiveNameservers opts <> None \/ PropagationWait opts <> None).
Proof.
  intros Hin.
  assert (Hopts : opts =
    {| AddRecursiveNameservers :=
         if (0 <? Z.of_nat (List.length (Nameservers request)))
         then Some (Nameservers request) else None;
       PropagationWait :=
         if (0 <? DnsPropagationWait request)
         then Some (DnsPropagationWait request * time_Second) else None;
       DisableAuthoritativeNssPropagationRequirement :=
         (0 <? Z.of_nat (List.length (Nameservers request)))
         || (0 <? DnsPropagationWait request) |}).
  { unfold setChallengeProvider in Hin.
    destruct (String.eqb (ChallengeType request) "dns-01").
    - destruct (ACMEDns01Registries_Get c (Provider request)) as [e|f];
        [contradiction Hin|]. simpl in Hin.
      match type of Hin with context [f ?o] => destruct (f o) as [e|p'] end;
        [contradiction Hin|]. simpl in Hin.
      destruct Hin as [Heq|[]]. injection Heq as _ <-. reflexivity.
    - destruct (String.eqb (ChallengeType request) "http-01");
        [|contradiction Hin].
      destruct (ACMEHttp01Registries_Get c (Provider request)) as [e|f];
        [contradiction Hin|]. simpl in Hin.
      match type of Hin with context [f ?o] => destruct (f o) as [e|p'] end;
        [contradiction Hin|]. simpl in Hin.
      destruct Hin as [Heq|[]]. discriminate Heq. }
  subst opts. cbn [AddRecursiveNameservers PropagationWait
                   DisableAuthoritativeNssPropagationRequirement].
  assert (Hns : (0 <? Z.of_nat (List.length (Nameservers request))) = true
                <-> Nameservers request <> []).
  { rewrite Z.ltb_lt. destruct (Nameservers request); simpl List.length.
    - split; [lia | intros H; contradiction H; reflexivity].
    - split; [discriminate | lia]. }
  split; [rewrite if_Some_not_None; exact Hns|].
  split; [intros ns H; apply if_Some_eq in H; exact H|].
  split; [rewrite if_Some_not_None; apply Z.ltb_lt|].
  split; [intros d H; apply if_Some_eq in H; exact H|].
  rewrite !if_Some_not_None, orb_true_iff. reflexivity.
Qed.

End ACMEClient.

Arguments sendObtainCertificateRequest {ConfigMap ChallengeProvider} TrimSpace c request.
Arguments setChallengeProvider {ConfigMap ChallengeProvider} c request.
Arguments newObtainRequest {ConfigMap ChallengeProvider} c request.
Arguments newObtainCertificateResponse {ConfigMap ChallengeProvider} TrimSpace c resp req.
Arguments obtainCalls {ChallengeProvider} t.
Arguments Certificate_Obtain {ConfigMap ChallengeProvider} a n req.
Arguments account_ACMEAcctUrl {ConfigMap ChallengeProvider} a.
Arguments Setenv {ChallengeProvider} key value.
Arguments SetDNS01Provider {ChallengeProvider} p opts.
Arguments SetHTTP01Provider {ChallengeProvider} p delay.
Arguments CallObtain {ChallengeProvider} req.
Arguments CallRevoke {ChallengeProvider} cert.
Arguments Warnf {ChallengeProvider} msg.

(** *** A concrete client

    A dns-01 set-up that succeeds, an account [acct-1], and a CA that
    answers the first order with an ARI conflict and the second with a
    certificate. *)

Definition example_resource : Resource :=
  {| res_CSR := "csr"; res_Certificate := "chain";
     res_IssuerCertificate := "issuer"; res_PrivateKey := "key";
     CertURL := "https://ca.example/cert/1";
     CertStableURL := "https://ca.example/cert/1" |}.

Definition example_client : ACMEClient unit unit :=
  {| account_ACMEAcctUrl := "https://ca.example/acct/1";
     ACMEDns01Registries_Get := fun _ => inr (fun _ => inr tt);
     ACMEHttp01Registries_Get := fun _ => inl (ErrNew "no such provider");
     Certificate_Obtain := fun n _ =>
       match n with
       | O => inl (ErrWrap "acme: error" (ErrAlreadyReplaced "alreadyReplaced"))
       | _ => inr example_resource
       end;
     Certificate_Revoke := fun _ => None |}.

Definition example_request (acct : string) : ObtainCertificateRequest unit :=
  {| Domains := ["example.com"]; KeyType := "EC256";
     ValidityTo := time_Unix 0;
     ChallengeType := "dns-01"; Provider := "cloudflare";
     ProviderAccessConfig := tt; ProviderExtendedConfig := tt;
     DisableFollowCNAME := false; Nameservers := [];
     DnsPropagationWait := 0; DnsPropagationTimeout := 0; DnsTTL := 0;
     HttpDelayWait := 0; ACMEProfile := EmptyString;
     ARIReplacesAcctUrl := acct;
     ARIReplacesCertId := "aYhba4dGQEHhs3uEe6CuLN4ByNQ.AIdlQyE" |}.

Lemma ari_conflict_retried_exactly_once_witness :
  let request := example_request "https://ca.example/acct/1" in
  let run := sendObtainCertificateRequest (fun s => s) example_client (Some request) in
  List.length (obtainCalls (trace run)) = 2%nat /\
  outcome run =
    Ok (newObtainCertificateResponse (fun s => s) example_client example_resource
          (resetReplacesCertID (newObtainRequest example_client request))).
Proof.
  intros request run.
  destruct (ari_conflict_retried_exactly_once unit unit (fun s => s)
              example_client request
              (ErrWrap "acme: error" (ErrAlreadyReplaced "alreadyReplaced"))
              eq_refl eq_refl) as [Hretry _].
  destruct (Hretry eq_refl) as (Hcalls & _ & _ & Hok).
  split.
  - unfold run. rewrite Hcalls. reflexivity.
  - apply Hok. reflexivity.
Defined.

Lemma cross_account_ari_never_sent_witness :
  Forall (fun req => ReplacesCertID req = EmptyString)
    (obtainCalls (trace (sendObtainCertificateRequest (fun s => s) example_client
       (Some (example_request "https://ca.example/acct/2"))))).
Proof.
  apply (cross_account_ari_never_sent unit unit (fun s => s) example_client
           (example_request "https://ca.example/acct/2")).
  vm_compute. discriminate.
Defined.

Lemma ari_replaced_iff_final_order_has_id_witness :
  exists earlier final resp,
    obtainCalls (trace (sendObtainCertificateRequest (fun s => s) example_client
      (Some (example_request "https://ca.example/acct/1"))))
    = (earlier ++ [final])%list /\
    Certificate_Obtain example_client (List.length earlier) final = inr resp /\
    ReplacesCertID final = EmptyString.
Proof.
  destruct (ari_replaced_iff_final_order_has_id unit unit (fun s => s)
              example_client (example_request "https://ca.example/acct/1")
              _ eq_refl) as (earlier & final & resp & Hc & Hf & _ & Hiff & _).
  exists earlier, final, resp. repeat split; try assumption.
  destruct (String.eqb (ReplacesCertID final) EmptyString) eqn:E.
  - apply String.eqb_eq. exact E.
  - apply String.eqb_neq in E. apply Hiff in E. discriminate E.
Defined.

(** A client whose dns-01 provider factory fails. *)
Definition failing_factory_client : ACMEClient unit unit :=
  {| account_ACMEAcctUrl := "https://ca.example/acct/1";
     ACMEDns01Registries_Get := fun _ =>
       inr (fun _ => inl (ErrNew "missing api token"));
     ACMEHttp01Registries_Get := fun _ => inl (ErrNew "no such provider");
     Certificate_Obtain := fun _ _ => inr example_resource;
     Certificate_Revoke := fun _ => None |}.

(** A request with name servers and a propagation wait of 30 seconds. *)
Definition example_request_with_dns_options : ObtainCertificateRequest unit :=
  {| Domains := ["example.com"]; KeyType := "EC256";
     ValidityTo := time_Unix 0;
     ChallengeType := "dns-01"; Provider := "cloudflare";
     ProviderAccessConfig := tt; ProviderExtendedConfig := tt;
     DisableFollowCNAME := true; Nameservers := ["1.1.1.1"];
     DnsPropagationWait := 30; DnsPropagationTimeout := 0; DnsTTL := 0;
     HttpDelayWait := 0; ACMEProfile := EmptyString;
     ARIReplacesAcctUrl := EmptyString; ARIReplacesCertId := EmptyString |}.

Lemma order_only_after_solver_installed_witness :
  exists (p : unit) solver rest,
    trace (sendObtainCertificateRequest (fun s => s) example_client
             (Some (example_request "https://ca.example/acct/1"))) =
      Setenv "LEGO_DISABLE_CNAME_SUPPORT" "false" :: solver
      :: CallObtain (newObtainRequest example_client
                       (example_request "https://ca.example/acct/1")) :: rest.
Proof.
  destruct (order_only_after_solver_installed unit unit (fun s => s)
              example_client (example_request "https://ca.example/acct/1"))
    as (p & solver & rest & Htrace & _).
  - vm_compute. discriminate.
  - exists p, solver, rest. exact Htrace.
Defined.

Lemma solver_setup_failure_sends_no_order_witness :
  outcome (sendObtainCertificateRequest (fun s => s) failing_factory_client
             (Some (example_request "https://ca.example/acct/1")))
    = Err (ErrWrap "failed to initialize dns-01 provider 'cloudflare'"
             (ErrNew "missing api token")).
Proof.
  apply (proj2 (proj1 (proj2 (solver_setup_failure_sends_no_order unit unit
           (fun s => s) failing_factory_client
           (example_request "https://ca.example/acct/1"))) eq_refl)
           (fun _ => inl (ErrNew "missing api token")) (ErrNew "missing api token")
           eq_refl eq_refl).
Defined.

Lemma dns01_solver_options_witness :
  exists opts,
    trace (setChallengeProvider example_client example_request_with_dns_options)
      = [SetDNS01Provider tt opts] /\
    DisableAuthoritativeNssPropagationRequirement opts = true /\
    PropagationWait opts = Some 30000000000.
Proof.
  eexists. split; [reflexivity|].
  destruct (dns01_solver_options unit unit example_client
              example_request_with_dns_options tt _ (or_introl eq_refl))
    as (_ & _ & _ & _ & Hdis).
  split; [|reflexivity].
  apply Hdis. left. discriminate.
Defined.

(** *** The cancellable wrappers

    [ObtainCertificate] (lines 66-85) and [RevokeCertificate] (lines
    195-214) have one shape: make a channel with room for one result,
    start a goroutine that runs the blocking function and sends what it
    returned, and select on [ctx.Done()] and the channel.  The two
    goroutines are modelled as an interleaving transition system; [blocking]
    is what the blocking function returns once it has run to its end. *)

Section CancellableCall.

Variable Res : Type.
Variable blocking : Outcome Res.

(** The started goroutine: still in the blocking function, or past its
    send. *)
Inductive goroutine : Type := Calling | Exited.

(** The calling goroutine: at the [select], or returned. *)
Inductive caller : Type := Selecting | Returned (r : Outcome Res).

(** [done] is the buffer of [make(chan result, 1)]; [ctx_Err] is [None]
    until the context is cancelled or its deadline passes. *)
Record state : Type := {
  worker : goroutine;
  done : option (Outcome Res);
  ctx_Err : option error;
  wrapper : caller
}.

Definition started : state :=
  {| worker := Calling; done := None; ctx_Err := None; wrapper := Selecting |}.

Inductive step : state -> state -> Prop :=
| step_send (s : state) :
    (* lines 75-76: the call returns and its result is sent; the send
       goes through when the buffer has room *)
    worker s = Calling -> done s = None ->
    step s {| worker := Exited; done := Some blocking;
              ctx_Err := ctx_Err s; wrapper := wrapper s |}
| step_cancel (s : state) (e : error) :
    (* the caller's context is cancelled or times out *)
    ctx_Err s = None ->
    step s {| worker := worker s; done := done s;
              ctx_Err := Some e; wrapper := wrapper s |}
| step_select_ctx (s : state) (e : error) :
    (* lines 80-81: [case <-ctx.Done(): return nil, ctx.Err()] *)
    wrapper s = Selecting -> ctx_Err s = Some e ->
    step s {| worker := worker s; done := done s;
              ctx_Err := ctx_Err s; wrapper := Returned (Err e) |}
| step_select_done (s : state) (r : Outcome Res) :
    (* lines 82-83: [case r := <-done: return r.res, r.err] *)
    wrapper s = Selecting -> done s = Some r ->
    step s {| worker := worker s; done := None;
              ctx_Err := ctx_Err s; wrapper := Returned r |}.

Inductive steps : state -> state -> Prop :=
| steps_refl (s : state) : steps s s
| steps_step (s s' s'' : state) : step s s' -> steps s' s'' -> steps s s''.

Inductive reachable : state -> Prop :=
| reachable_started : reachable started
| reachable_step (s s' : state) : reachable s -> step s s' -> reachable s'.

(** While the goroutine is in the blocking function the channel is empty:
    its one send always finds room. *)
Lemma calling_channel_empty (s : state) :
  reachable s -> worker s = Calling -> done s = None.
Proof.
  induction 1 as [|s s' Hreach IH Hstep]; [reflexivity|].
  destruct Hstep; simpl; intros Hw; auto; discriminate.
Qed.

(** A wrapper that has returned stays returned, with the same result. *)
Lemma returned_is_final (s s' : state) (r : Outcome Res) :
  steps s s' -> wrapper s = Returned r -> wrapper s' = Returned r.
Proof.
  induction 1 as [|s s' s'' Hstep Hsteps IH]; intros Hr; [exact Hr|].
  apply IH. destruct Hstep; simpl; try assumption; congruence.
Qed.

(** C8: with the context done and the blocking call not yet returned, the
    wrapper's select can fire at once and every way out of it returns the
    context's error, the goroutine still being in its call; after that
    the goroutine can still finish its call and send, and nothing that
    happens later changes what the wrapper returned. *)
Theorem cancellation_returns_without_waiting (s : state) (e : error) :
  reachable s ->
  wrapper s = Selecting ->
  ctx_Err s = Some e ->
  worker s = Calling ->
  (exists s', step s s' /\ wrapper s' = Returned (Err e)) /\
  (forall s', step s s' -> wrapper s' <> Selecting ->
     wrapper s' = Returned (Err e) /\ worker s' = Calling) /\
  (forall s', step s s' -> wrapper s' = Returned (Err e) ->
     (exists s'', step s' s'' /\ worker s'' = Exited /\
                  done s'' = Some blocking /\
                  wrapper s'' = Returned (Err e)) /\
     (forall s'', steps s' s'' -> wrapper s'' = Returned (Err e))).
Proof.
  intros Hreach Hsel Hctx Hcall.
  pose proof (calling_channel_empty s Hreach Hcall) as Hempty.
  split; [|split].
  - eexists. split; [apply (step_select_ctx s e Hsel Hctx)|reflexivity].
  - intros s' Hstep Hret. destruct Hstep; simpl in *.
    + contradiction Hret.
    + congruence.
    + split; [congruence | assumption].
    + congruence.
  - intros s' Hstep Hret. split.
    + assert (Hreach' : reachable s') by (eapply reachable_step; eassumption).
      assert (Hcall' : worker s' = Calling).
      { destruct Hstep; simpl in *; try assumption; congruence. }
      pose proof (calling_channel_empty s' Hreach' Hcall') as Hempty'.
      eexists. split; [apply (step_send s' Hcall' Hempty')|].
      simpl. repeat split; assumption.
    + intros s'' Hsteps. exact (returned_is_final s' s'' _ Hsteps Hret).
Qed.

(** *** Further properties of the wrappers *)

(** What holds in every state the wrapper can be in: the channel only ever
    carries the blocking function's result; that result sits there from
    the moment the goroutine has exited until the select takes it; and a
    returned wrapper returned that result or the context's error. *)
Definition wrapper_invariant (s : state) : Prop :=
  (forall r, done s = Some r -> r = blocking /\ worker s = Exited) /\
  (worker s = Exited -> wrapper s = Selecting -> done s = Some blocking) /\
  (forall r, wrapper s = Returned r ->
     r = blocking \/ exists e, ctx_Err s = Some e /\ r = Err e).

Lemma reachable_invariant (s : state) : reachable s -> wrapper_invariant s.
Proof.
  induction 1 as [|s s' Hreach IH Hstep].
  - repeat split; simpl; intros; discriminate.
  - destruct IH as (Hdone & Hwait & Hret).
    destruct Hstep as [s Hw Hd | s e Hc | s e Hsel Hc | s r Hsel Hd];
      unfold wrapper_invariant; simpl.
    + split; [intros r Hr; injection Hr as <-; split; reflexivity|].
      split; [reflexivity|]. exact Hret.
    + split; [exact Hdone|]. split; [exact Hwait|].
      intros r Hr. destruct (Hret r Hr) as [H | (e' & He' & _)];
        [left; exact H | congruence].
    + split; [exact Hdone|]. split; [discriminate|].
      intros r Hr. injection Hr as <-. right. exists e. split; [exact Hc|reflexivity].
    + split; [discriminate|]. split; [discriminate|].
      intros r' Hr. injection Hr as <-. left. apply (Hdone r Hd).
Qed.

(** X5: the wrapper returns nothing of its own: whatever it returns is the
    blocking function's result or the error of a context that is done; as
    long as the context is not done it can only return the blocking
    function's result. *)
Theorem wrapper_returns_result_or_ctx_error (s : state) (r : Outcome Res) :
  reachable s ->
  wrapper s = Returned r ->
  (r = blocking \/ exists e, ctx_Err s = Some e /\ r = Err e) /\
  (ctx_Err s = None -> r = blocking).
Proof.
  intros Hreach Hret.
  destruct (reachable_invariant s Hreach) as (_ & _ & Hinv).
  destruct (Hinv r Hret) as [H | (e & He & Hr)].
  - split; [left; exact H | intros _; exact H].
  - split; [right; exists e; split; assumption | congruence].
Qed.

(** X6: the started goroutine never gets stuck: in every state where it is
    still in the blocking function, wrapper returned or not, its send can
    go through, and the wrapper's state is left as it was.  The channel's
    one slot is always free for it. *)
Theorem goroutine_can_always_exit (s : state) :
  reachable s ->
  worker s = Calling ->
  exists s',
    step s s' /\ worker s' = Exited /\ done s' = Some blocking /\
    wrapper s' = wrapper s /\ ctx_Err s' = ctx_Err s.
Proof.
  intros Hreach Hcall.
  pose proof (calling_channel_empty s Hreach Hcall) as Hempty.
  eexists. split; [apply (step_send s Hcall Hempty)|].
  simpl. repeat split; reflexivity.
Qed.

(** X7: the result is not lost while the caller waits: once the goroutine
    has exited and the wrapper is still at its select, the result is in
    the channel and the select can return it; if the context is not done
    that is the only thing the wrapper can do. *)
Theorem result_waits_for_the_select (s : state) :
  reachable s ->
  worker s = Exited ->
  wrapper s = Selecting ->
  done s = Some blocking /\
  (exists s', step s s' /\ wrapper s' = Returned blocking) /\
  (ctx_Err s = None ->
   forall s', step s s' -> wrapper s' <> Selecting ->
     wrapper s' = Returned blocking).
Proof.
  intros Hreach Hex Hsel.
  destruct (reachable_invariant s Hreach) as (_ & Hwait & _).
  pose proof (Hwait Hex Hsel) as Hdone.
  split; [exact Hdone|]. split.
  - eexists. split; [apply (step_select_done s blocking Hsel Hdone)|reflexivity].
  - intros Hctx s' Hstep Hmoved.
    destruct Hstep as [s Hw Hd | s e Hc | s e Hs Hc | s r Hs Hd]; simpl in *.
    + congruence.
    + contradiction Hmoved.
    + congruence.
    + congruence.
Qed.

End CancellableCall.

Arguments Selecting {Res}.
Arguments Returned {Res} r.
Arguments worker {Res} s.
Arguments done {Res} s.
Arguments ctx_Err {Res} s.
Arguments wrapper {Res} s.
Arguments started {Res}.

(** The transition systems of the two wrappers. *)
Definition ObtainCertificate {ConfigMap ChallengeProvider : Type}
    (TrimSpace : string -> string)
    (c : ACMEClient ConfigMap ChallengeProvider)
    (request : option (ObtainCertificateRequest ConfigMap))
    : state ObtainCertificateResponse -> state ObtainCertificateResponse -> Prop :=
  step ObtainCertificateResponse
    (outcome (sendObtainCertificateRequest TrimSpace c request)).

Definition RevokeCertificate {ConfigMap ChallengeProvider : Type}
    (c : ACMEClient ConfigMap ChallengeProvider)
    (request : option RevokeCertificateRequest)
    : state RevokeCertificateResponse -> state RevokeCertificateResponse -> Prop :=
  step RevokeCertificateResponse
    (outcome (sendRevokeCertificateRequest ConfigMap ChallengeProvider c request)).

(** The obtain wrapper just after its context was cancelled. *)
Definition example_cancelled : state ObtainCertificateResponse :=
  {| worker := Calling; done := None; ctx_Err := Some ErrCanceled;
     wrapper := Selecting |}.

Lemma cancellation_returns_without_waiting_witness :
  exists s',
    ObtainCertificate (fun s => s) example_client
      (Some (example_request "https://ca.example/acct/1")) example_cancelled s' /\
    wrapper s' = Returned (Err ErrCanceled).
Proof.
  apply (cancellation_returns_without_waiting ObtainCertificateResponse
           (outcome (sendObtainCertificateRequest (fun s => s) example_client
                       (Some (example_request "https://ca.example/acct/1"))))
           example_cancelled ErrCanceled).
  - apply (reachable_step _ _ started); [apply reachable_started|].
    apply (step_cancel _ _ started ErrCanceled). reflexivity.
  - reflexivity.
  - reflexivity.
  - reflexivity.
Defined.

(** The obtain wrapper once its goroutine has exited, the context still
    open. *)
Definition example_completed : state ObtainCertificateResponse :=
  {| worker := Exited;
     done := Some (outcome (sendObtainCertificateRequest (fun s => s) example_client
                              (Some (example_request "https://ca.example/acct/1"))));
     ctx_Err := None; wrapper := Selecting |}.

Lemma example_completed_reachable :
  reachable ObtainCertificateResponse
    (outcome (sendObtainCertificateRequest (fun s => s) example_client
                (Some (example_request "https://ca.example/acct/1"))))
    example_completed.
Proof.
  apply (reachable_step _ _ started); [apply reachable_started|].
  apply (step_send _ _ started); reflexivity.
Defined.

Lemma example_cancelled_reachable :
  reachable ObtainCertificateResponse
    (outcome (sendObtainCertificateRequest (fun s => s) example_client
                (Some (example_request "https://ca.example/acct/1"))))
    example_cancelled.
Proof.
  apply (reachable_step _ _ started); [apply reachable_started|].
  apply (step_cancel _ _ started ErrCanceled). reflexivity.
Defined.

Lemma wrapper_returns_result_or_ctx_error_witness :
  let blocking :=
    outcome (sendObtainCertificateRequest (fun s => s) example_client
               (Some (example_request "https://ca.example/acct/1"))) in
  Err ErrCanceled = blocking \/
  exists e, Some ErrCanceled = Some e /\
            @Err ObtainCertificateResponse ErrCanceled = Err e.
Proof.
  intros blocking.
  apply (wrapper_returns_result_or_ctx_error ObtainCertificateResponse blocking
           {| worker := Calling; done := None; ctx_Err := Some ErrCanceled;
              wrapper := Returned (Err ErrCanceled) |} (Err ErrCanceled)).
  - apply (reachable_step _ _ example_cancelled);
      [exact example_cancelled_reachable|].
    apply (step_select_ctx _ _ example_cancelled ErrCanceled); reflexivity.
  - reflexivity.
Defined.

Lemma goroutine_can_always_exit_witness :
  exists s',
    ObtainCertificate (fun s => s) example_client
      (Some (example_request "https://ca.example/acct/1")) example_cancelled s' /\
    worker s' = Exited.
Proof.
  destruct (goroutine_can_always_exit _ _ example_cancelled
              example_cancelled_reachable eq_refl) as (s' & Hstep & Hex & _).
  exists s'. split; [exact Hstep | exact Hex].
Defined.

Lemma result_waits_for_the_select_witness :
  exists s',
    ObtainCertificate (fun s => s) example_client
      (Some (example_request "https://ca.example/acct/1")) example_completed s' /\
    wrapper s' =
      Returned (outcome (sendObtainCertificateRequest (fun s => s) example_client
                           (Some (example_request "https://ca.example/acct/1")))).
Proof.
  destruct (result_waits_for_the_select _ _ example_completed
              example_completed_reachable eq_refl eq_refl) as (_ & Hcan & _).
  exact Hcan.
Defined.

End CertApply.

(** ** internal/pkg/core/deployer/providers/tencentcloud-cdn/tencentcloud_cdn.go *)

Module TencentCloudCDN.

Record DeployerConfig : Type := {
  SecretId : string;
  SecretKey : string;
  Domain : string
}.

(** [uploader.UploadResult] *)
Record UploadResult : Type := {
  CertId : string;
  CertName : string
}.

(** [deployer.DeployResult{}] *)
Inductive DeployResult : Type := EmptyDeployResult.

(** The SDK's request and response structs, the fields the deployer
    touches.  A Go pointer field is an [option]; a [[]*string] is a list of
    [option string]. *)
Record DescribeCertDomainsRequest : Type := {
  dcd_CertId : option string;
  dcd_Product : option string
}.

Record DescribeCertDomainsResponse : Type := {
  Domains : list (option string)
}.

Record DescribeDeployedResourcesRequest : Type := {
  ddr_CertificateIds : list (option string);
  ddr_ResourceType : option string
}.

Record DeployedResources : Type := {
  Resources : list (option string)
}.

Record DescribeDeployedResourcesResponse : Type := {
  DeployedResourcesList : list (option DeployedResources)
}.

Record DeployCertificateInstanceRequest : Type := {
  dci_CertificateId : option string;
  dci_ResourceType : option string;
  dci_Status : option Z;
  dci_InstanceIdList : list (option string)
}.

Record DeployCertificateInstanceResponse : Type := {
  DeployRecordId : option Z
}.

Record DescribeHostDeployRecordDetailRequest : Type := {
  dhd_DeployRecordId : option string
}.

Record DescribeHostDeployRecordDetailResponse : Type := {
  TotalCount : option Z;
  SuccessTotalCount : option Z;
  FailedTotalCount : option Z;
  RunningTotalCount : option Z
}.

Inductive event : Type :=
| CallUpload (certPEM privkeyPEM : string)
| CallDescribeCertDomains (req : DescribeCertDomainsRequest)
| CallDescribeDeployedResources (req : DescribeDeployedResourcesRequest)
| CallDeployCertificateInstance (req : DeployCertificateInstanceRequest)
| CallDescribeHostDeployRecordDetail (req : DescribeHostDeployRecordDetailRequest)
| LogInfo (msg : string)
| Sleep (d : Z).

(** What the deployer talks to.  [ctx_Err i] is the state of the context
    when the [i]-th iteration of the poll loop looks at it ([None]: not
    done); [SSL_DescribeHostDeployRecordDetail i] is the vendor's answer to
    the [i]-th poll.  Iterations and polls are counted from 0. *)
Record Env : Type := {
  ctx_Err : nat -> option error;
  sslUploader_Upload : string -> string -> error + UploadResult;
  CDN_DescribeCertDomains :
    DescribeCertDomainsRequest -> error + DescribeCertDomainsResponse;
  SSL_DescribeDeployedResources :
    DescribeDeployedResourcesRequest -> error + DescribeDeployedResourcesResponse;
  SSL_DeployCertificateInstance :
    DeployCertificateInstanceRequest -> error + DeployCertificateInstanceResponse;
  SSL_DescribeHostDeployRecordDetail :
    nat -> DescribeHostDeployRecordDetailRequest ->
    error + DescribeHostDeployRecordDetailResponse
}.

(** [for _, p := range ps { out = append(out, *p) }] *)
Fixpoint derefAll (ps : list (option string)) : M event (list string) :=
  match ps with
  | [] => ret []
  | p :: ps' =>
      v <- deref p ;;
      vs <- derefAll ps' ;;
      ret (v :: vs)
  end.

Definition getDomainsByCertificateId (env : Env) (cloudCertId : string)
    : M event (list string) :=
  let describeCertDomainsReq :=
    {| dcd_CertId := Some cloudCertId; dcd_Product := Some "cdn" |} in
  emit (CallDescribeCertDomains describeCertDomainsReq) ;;
  describeCertDomainsResp <-
    try_wrap "failed to execute sdk request 'cdn.DescribeCertDomains'"
      (CDN_DescribeCertDomains env describeCertDomainsReq) ;;
  derefAll (Domains describeCertDomainsResp).

(** The nested loops of lines 220-226; a nil [deployedResource] panics at
    its [.Resources]. *)
Fixpoint collectResources (rs : list (option DeployedResources))
    : M event (list string) :=
  match rs with
  | [] => ret []
  | r :: rs' =>
      deployedResource <- deref r ;;
      here <- derefAll (Resources deployedResource) ;;
      rest <- collectResources rs' ;;
      ret (here ++ rest)%list
  end.

Definition getDeployedDomainsByCertificateId (env : Env) (cloudCertId : string)
    : M event (list string) :=
  let describeDeployedResourcesReq :=
    {| ddr_CertificateIds := [Some cloudCertId];
       ddr_ResourceType := Some "cdn" |} in
  emit (CallDescribeDeployedResources describeDeployedResourcesReq) ;;
  describeDeployedResourcesResp <-
    try_wrap "failed to execute sdk request 'cdn.DescribeDeployedResources'"
      (SSL_DescribeDeployedResources env describeDeployedResourcesReq) ;;
  collectResources (DeployedResourcesList describeDeployedResourcesResp).

(** [if p != nil { v = *p }] on a zero-initialised [int64] *)
Definition orZero (p : option Z) : Z :=
  match p with
  | Some v => v
  | None => 0
  end.

(** line 172 *)
Definition jobFinished (succeededCount failedCount totalCount : Z) : bool :=
  add64 succeededCount failedCount =? totalCount.

(** line 177 *)
Definition waitingMessage (runningCount succeededCount failedCount totalCount : Z)
    : string :=
  "waiting for deployment job completion (running: " ++ Sprintf_d runningCount
  ++ ", succeeded: " ++ Sprintf_d succeededCount
  ++ ", failed: " ++ Sprintf_d failedCount
  ++ ", total: " ++ Sprintf_d totalCount ++ ") ...".

(** lines 147-148 *)
Definition newPollRequest (deployRecordId : Z)
    : DescribeHostDeployRecordDetailRequest :=
  {| dhd_DeployRecordId := Some (Sprintf_d deployRecordId) |}.

(** lines 140-179: the poll loop, entered at iteration [i]; [Ok tt] is the
    [break]. *)
Fixpoint pollDeployRecord (env : Env) (deployRecordId : option Z)
    (fuel : nat) (i : nat) : M event unit :=
  match fuel with
  | O => ([], OutOfFuel)
  | S fuel' =>
      match ctx_Err env i with
      | Some err => fail err
      | None =>
          id <- deref deployRecordId ;;
          let describeHostDeployRecordDetailReq := newPollRequest id in
          emit (CallDescribeHostDeployRecordDetail describeHostDeployRecordDetailReq) ;;
          resp <-
            try_wrap "failed to execute sdk request 'ssl.DescribeHostDeployRecordDetail'"
              (SSL_DescribeHostDeployRecordDetail env i
                 describeHostDeployRecordDetailReq) ;;
          match TotalCount resp with
          | None => fail (ErrNew "unexpected deployment job status")
          | Some _ =>
              let runningCount := orZero (RunningTotalCount resp) in
              let succeededCount := orZero (SuccessTotalCount resp) in
              let failedCount := orZero (FailedTotalCount resp) in
              let totalCount := orZero (TotalCount resp) in
              if jobFinished succeededCount failedCount totalCount then ret tt
              else
                emit (LogInfo (waitingMessage runningCount succeededCount
                                 failedCount totalCount)) ;;
                emit (Sleep (time_Second * 5)) ;;
                pollDeployRecord env deployRecordId fuel' (S i)
          end
      end
  end.

(** lines 92-118: the CDN instances still to deploy to *)
Definition instancesToDeploy (env : Env) (config : DeployerConfig)
    (upres : UploadResult) : M event (list string) :=
  instanceIds <-
    (if HasPrefix (Domain config) "*."
     then getDomainsByCertificateId env (CertId upres)
     else ret [Domain config]) ;;
  if (0 <? Z.of_nat (List.length instanceIds)) then
    deployedDomains <- getDeployedDomainsByCertificateId env (CertId upres) ;;
    ret (filter (fun instanceId => negb (slices_Contains deployedDomains instanceId))
           instanceIds)
  else ret instanceIds.

(** lines 127-131 *)
Definition newDeployRequest (upres : UploadResult) (instanceIds : list string)
    : DeployCertificateInstanceRequest :=
  {| dci_CertificateId := Some (CertId upres);
     dci_ResourceType := Some "cdn";
     dci_Status := Some 1;
     dci_InstanceIdList := map Some instanceIds |}.

(** lines 127-136 *)
Definition submitDeployJob (env : Env) (upres : UploadResult)
    (instanceIds : list string) : M event DeployCertificateInstanceResponse :=
  let deployCertificateInstanceReq := newDeployRequest upres instanceIds in
  emit (CallDeployCertificateInstance deployCertificateInstanceReq) ;;
  try_wrap "failed to execute sdk request 'ssl.DeployCertificateInstance'"
    (SSL_DeployCertificateInstance env deployCertificateInstanceReq).

Definition Deploy (env : Env) (config : DeployerConfig) (fuel : nat)
    (certPEM privkeyPEM : string) : M event DeployResult :=
  emit (CallUpload certPEM privkeyPEM) ;;
  upres <- try_wrap "failed to upload certificate file"
             (sslUploader_Upload env certPEM privkeyPEM) ;;
  emit (LogInfo "ssl certificate uploaded") ;;
  instanceIds <- instancesToDeploy env config upres ;;
  (if (Z.of_nat (List.length instanceIds) =? 0) then
     emit (LogInfo "no cdn instances to deploy")
   else
     emit (LogInfo "found cdn instances to deploy") ;;
     deployCertificateInstanceResp <- submitDeployJob env upres instanceIds ;;
     pollDeployRecord env (DeployRecordId deployCertificateInstanceResp) fuel 0%nat) ;;
  ret EmptyDeployResult.

(** The status polls of a run, in order. *)
Fixpoint pollCalls (t : list event) : list DescribeHostDeployRecordDetailRequest :=
  match t with
  | [] => []
  | CallDescribeHostDeployRecordDetail req :: t' => req :: pollCalls t'
  | _ :: t' => pollCalls t'
  end.

(** The sleeps of a run, in order. *)
Fixpoint sleeps (t : list event) : list Z :=
  match t with
  | [] => []
  | Sleep d :: t' => d :: sleeps t'
  | _ :: t' => sleeps t'
  end.

(** A poll answer on which the loop goes round again: the total is there
    and differs from succeeded + failed. *)
Definition keepsPolling (resp : DescribeHostDeployRecordDetailResponse) : bool :=
  match TotalCount resp with
  | None => false
  | Some totalCount =>
      negb (jobFinished (orZero (SuccessTotalCount resp))
              (orZero (FailedTotalCount resp)) totalCount)
  end.

(** A poll answer on which the loop breaks. *)
Definition finishesJob (resp : DescribeHostDeployRecordDetailResponse) : bool :=
  match TotalCount resp with
  | None => false
  | Some totalCount =>
      jobFinished (orZero (SuccessTotalCount resp))
        (orZero (FailedTotalCount resp)) totalCount
  end.

(** *** Properties of the deployment job driver *)

Lemma pollCalls_app (t1 t2 : list event) :
  pollCalls (t1 ++ t2) = (pollCalls t1 ++ pollCalls t2)%list.
Proof.
  induction t1 as [|e t1 IH]; simpl; [reflexivity|].
  destruct e; simpl; rewrite IH; reflexivity.
Qed.

(** One round of the loop on an answer that keeps it polling: the poll, the
    log line, the five-second sleep, then the next iteration. *)
Lemma pollDeployRecord_again (env : Env) (id : Z) (fuel i : nat)
    (resp : DescribeHostDeployRecordDetailResponse) :
  ctx_Err env i = None ->
  SSL_DescribeHostDeployRecordDetail env i (newPollRequest id) = inr resp ->
  keepsPolling resp = true ->
  exists msg,
    pollDeployRecord env (Some id) (S fuel) i =
      ((CallDescribeHostDeployRecordDetail (newPollRequest id)
          :: LogInfo msg :: Sleep (time_Second * 5)
          :: trace (pollDeployRecord env (Some id) fuel (S i)))%list,
       outcome (pollDeployRecord env (Some id) fuel (S i))).
Proof.
  intros Hctx Hpoll Hkeep. unfold keepsPolling in Hkeep.
  simpl. rewrite Hctx. simpl. rewrite Hpoll. simpl.
  destruct (TotalCount resp) as [total|]; [|discriminate]. simpl.
  apply negb_true_iff in Hkeep. rewrite Hkeep.
  destruct (pollDeployRecord env (Some id) fuel (S i)) as [t o].
  eexists. reflexivity.
Qed.

(** The round on an answer with succeeded + failed = total: [break]. *)
Lemma pollDeployRecord_break (env : Env) (id : Z) (fuel i : nat)
    (resp : DescribeHostDeployRecordDetailResponse) :
  ctx_Err env i = None ->
  SSL_DescribeHostDeployRecordDetail env i (newPollRequest id) = inr resp ->
  finishesJob resp = true ->
  pollDeployRecord env (Some id) (S fuel) i =
    ([CallDescribeHostDeployRecordDetail (newPollRequest id)], Ok tt).
Proof.
  intros Hctx Hpoll Hfin. unfold finishesJob in Hfin.
  simpl. rewrite Hctx. simpl. rewrite Hpoll. simpl.
  destruct (TotalCount resp) as [total|]; [|discriminate]. simpl.
  rewrite Hfin. reflexivity.
Qed.

(** The round on an answer without a total. *)
Lemma pollDeployRecord_no_total (env : Env) (id : Z) (fuel i : nat)
    (resp : DescribeHostDeployRecordDetailResponse) :
  ctx_Err env i = None ->
  SSL_DescribeHostDeployRecordDetail env i (newPollRequest id) = inr resp ->
  TotalCount resp = None ->
  pollDeployRecord env (Some id) (S fuel) i =
    ([CallDescribeHostDeployRecordDetail (newPollRequest id)],
     Err (ErrNew "unexpected deployment job status")).
Proof.
  intros Hctx Hpoll Hnone.
  simpl. rewrite Hctx. simpl. rewrite Hpoll. simpl.
  rewrite Hnone. reflexivity.
Qed.

(** The context is not done and the answer keeps the loop polling, for the
    [n] iterations from [i] on. *)
Definition pollsOn (env : Env) (id : Z) (i n : nat) : Prop :=
  forall k, (k < n)%nat ->
    ctx_Err env (i + k) = None /\
    exists resp,
      SSL_DescribeHostDeployRecordDetail env (i + k) (newPollRequest id) = inr resp /\
      keepsPolling resp = true.

(** [n] rounds that keep polling lead from iteration [i] to iteration
    [i + n], with [n] polls and [n] sleeps of five seconds on the way. *)
Lemma pollDeployRecord_rounds (env : Env) (id : Z) (n : nat) :
  forall (i fuel : nat),
  pollsOn env id i n ->
  let run := pollDeployRecord env (Some id) (n + fuel) i in
  let rest := pollDeployRecord env (Some id) fuel (i + n) in
  pollCalls (trace run) =
    (repeat (newPollRequest id) n ++ pollCalls (trace rest))%list /\
  sleeps (trace run) = (repeat (time_Second * 5) n ++ sleeps (trace rest))%list /\
  outcome run = outcome rest.
Proof.
  induction n as [|n IH]; intros i fuel Hon.
  - simpl. rewrite Nat.add_0_r. repeat split; reflexivity.
  - destruct (Hon 0%nat ltac:(lia)) as [Hctx (resp & Hpoll & Hkeep)].
    rewrite Nat.add_0_r in Hctx, Hpoll.
    assert (Hon' : pollsOn env id (S i) n).
    { intros k Hk. replace (S i + k)%nat with (i + S k)%nat by lia.
      apply Hon. lia. }
    specialize (IH (S i) fuel Hon'). cbv zeta in IH.
    replace (S i + n)%nat with (i + S n)%nat in IH by lia.
    destruct IH as (IHp & IHs & IHo).
    cbv zeta.
    destruct (pollDeployRecord_again env id (n + fuel) i resp Hctx Hpoll Hkeep)
      as [msg Heq].
    change (S n + fuel)%nat with (S (n + fuel)). rewrite Heq.
    unfold trace, outcome in *. simpl.
    rewrite IHp, IHs, IHo. repeat split; reflexivity.
Qed.

Lemma sleeps_app (t1 t2 : list event) :
  sleeps (t1 ++ t2) = (sleeps t1 ++ sleeps t2)%list.
Proof.
  induction t1 as [|e t1 IH]; simpl; [reflexivity|].
  destruct e; simpl; rewrite IH; reflexivity.
Qed.

Lemma derefAll_trace (ps : list (option string)) : trace (derefAll ps) = [].
Proof.
  induction ps as [|[v|] ps IH]; cbn [derefAll]; try reflexivity.
  rewrite trace_bind. cbn [deref ret trace outcome fst snd app].
  rewrite trace_bind, IH.
  destruct (outcome (derefAll ps)); reflexivity.
Qed.

Lemma collectResources_trace (rs : list (option DeployedResources)) :
  trace (collectResources rs) = [].
Proof.
  induction rs as [|[r|] rs IH]; cbn [collectResources]; try reflexivity.
  rewrite trace_bind. cbn [deref ret trace outcome fst snd app].
  rewrite trace_bind, derefAll_trace.
  destruct (outcome (derefAll (Resources r))); try reflexivity.
  rewrite trace_bind, IH.
  destruct (outcome (collectResources rs)); reflexivity.
Qed.

(** Working out the instances to deploy to neither polls nor sleeps. *)
Lemma instancesToDeploy_quiet (env : Env) (config : DeployerConfig)
    (upres : UploadResult) :
  pollCalls (trace (instancesToDeploy env config upres)) = [] /\
  sleeps (trace (instancesToDeploy env config upres)) = [].
Proof.
  assert (Hdom : forall id,
    pollCalls (trace (getDomainsByCertificateId env id)) = [] /\
    sleeps (trace (getDomainsByCertificateId env id)) = []).
  { intros id. unfold getDomainsByCertificateId.
    rewrite trace_bind. simpl. rewrite trace_bind.
    destruct (CDN_DescribeCertDomains env _) as [e|r]; simpl;
      rewrite ?derefAll_trace; split; reflexivity. }
  assert (Hdep : forall id,
    pollCalls (trace (getDeployedDomainsByCertificateId env id)) = [] /\
    sleeps (trace (getDeployedDomainsByCertificateId env id)) = []).
  { intros id. unfold getDeployedDomainsByCertificateId.
    rewrite trace_bind. simpl. rewrite trace_bind.
    destruct (SSL_DescribeDeployedResources env _) as [e|r]; simpl;
      rewrite ?collectResources_trace; split; reflexivity. }
  unfold instancesToDeploy. rewrite trace_bind.
  rewrite pollCalls_app, sleeps_app.
  set (first := if HasPrefix (Domain config) "*." then _ else _).
  assert (Hfirst : pollCalls (trace first) = [] /\ sleeps (trace first) = []).
  { subst first. destruct (HasPrefix (Domain config) "*.");
      [apply Hdom | split; reflexivity]. }
  destruct Hfirst as [-> ->]. simpl.
  destruct (outcome first) as [ids| | |]; try (split; reflexivity).
  destruct (0 <? Z.of_nat (List.length ids)); [|split; reflexivity].
  rewrite trace_bind, pollCalls_app, sleeps_app.
  destruct (Hdep (CertId upres)) as [-> ->]. simpl.
  destruct (outcome (getDeployedDomainsByCertificateId env (CertId upres)));
    split; reflexivity.
Qed.

(** A run of [Deploy] that gets as far as submitting the job is the poll
    loop's run from then on: same polls, same sleeps, and success exactly
    when the loop breaks. *)
Lemma Deploy_after_submit (env : Env) (config : DeployerConfig) (fuel : nat)
    (certPEM privkeyPEM : string) (upres : UploadResult)
    (instanceIds : list string) (dresp : DeployCertificateInstanceResponse) :
  sslUploader_Upload env certPEM privkeyPEM = inr upres ->
  outcome (instancesToDeploy env config upres) = Ok instanceIds ->
  instanceIds <> [] ->
  SSL_DeployCertificateInstance env (newDeployRequest upres instanceIds) = inr dresp ->
  let run := Deploy env config fuel certPEM privkeyPEM in
  let loop := pollDeployRecord env (DeployRecordId dresp) fuel 0%nat in
  pollCalls (trace run) = pollCalls (trace loop) /\
  sleeps (trace run) = sleeps (trace loop) /\
  outcome run =
    match outcome loop with
    | Ok _ => Ok EmptyDeployResult
    | Err e => Err e
    | Panic => Panic
    | OutOfFuel => OutOfFuel
    end.
Proof.
  intros Hup Hids Hne Hsub run loop.
  destruct (instancesToDeploy_quiet env config upres) as [Hqp Hqs].
  assert (Hlen : (Z.of_nat (List.length instanceIds) =? 0) = false).
  { destruct instanceIds; [contradiction Hne; reflexivity|].
    apply Z.eqb_neq. simpl List.length. lia. }
  subst run. unfold Deploy, submitDeployJob.
  repeat (rewrite ?trace_bind, ?outcome_bind, ?pollCalls_app, ?sleeps_app,
            ?Hup, ?Hids, ?Hlen, ?Hsub, ?Hqp, ?Hqs;
          cbn [trace outcome fst snd emit ret fail try_wrap app pollCalls sleeps]).
  fold loop.
  destruct (outcome loop) as [[]| | |];
    cbn [trace outcome fst snd ret app pollCalls sleeps];
    rewrite ?app_nil_r; repeat split; reflexivity.
Qed.

(** The loop's run when the first [n] answers keep it polling and the
    context stays open: it reaches the [n]-th poll with fuel to spare. *)
Lemma pollDeployRecord_reaches (env : Env) (id : Z) (n fuel : nat) :
  pollsOn env id 0 n ->
  (n < fuel)%nat ->
  exists fuel',
    let run := pollDeployRecord env (Some id) fuel 0%nat in
    let last := pollDeployRecord env (Some id) (S fuel') n in
    pollCalls (trace run) =
      (repeat (newPollRequest id) n ++ pollCalls (trace last))%list /\
    sleeps (trace run) = (repeat (time_Second * 5) n ++ sleeps (trace last))%list /\
    outcome run = outcome last.
Proof.
  intros Hon Hlt. exists (fuel - S n)%nat.
  pose proof (pollDeployRecord_rounds env id n 0%nat (S (fuel - S n)) Hon)
    as Hrounds.
  replace (n + S (fuel - S n))%nat with fuel in Hrounds by lia.
  exact Hrounds.
Qed.

(** The loop breaks only in this way: a run that ends in [break] has made
    some [n] rounds that kept polling and then a poll whose answer
    finishes the job. *)
Lemma pollDeployRecord_break_inv (env : Env) (id : Z) (fuel : nat) :
  forall (i : nat),
  outcome (pollDeployRecord env (Some id) fuel i) = Ok tt ->
  exists (n : nat) (resp : DescribeHostDeployRecordDetailResponse),
    pollCalls (trace (pollDeployRecord env (Some id) fuel i))
      = repeat (newPollRequest id) (S n) /\
    pollsOn env id i n /\
    ctx_Err env (i + n) = None /\
    SSL_DescribeHostDeployRecordDetail env (i + n) (newPollRequest id) = inr resp /\
    finishesJob resp = true.
Proof.
  induction fuel as [|fuel IH]; intros i Hok; [discriminate Hok|].
  destruct (ctx_Err env i) as [err|] eqn:Hctx;
    [cbn [pollDeployRecord] in Hok; rewrite Hctx in Hok; discriminate Hok|].
  destruct (SSL_DescribeHostDeployRecordDetail env i (newPollRequest id))
    as [err|resp] eqn:Hpoll;
    [cbn [pollDeployRecord] in Hok; rewrite Hctx in Hok; simpl in Hok;
     rewrite Hpoll in Hok; discriminate Hok|].
  destruct (TotalCount resp) as [total|] eqn:Htotal;
    [|rewrite (pollDeployRecord_no_total env id fuel i resp Hctx Hpoll Htotal)
        in Hok; discriminate Hok].
  destruct (finishesJob resp) eqn:Hfin.
  - exists 0%nat, resp.
    rewrite (pollDeployRecord_break env id fuel i resp Hctx Hpoll Hfin).
    rewrite Nat.add_0_r.
    split; [reflexivity|]. split; [intros k Hk; lia|].
    split; [assumption|]. split; assumption.
  - assert (Hkeep : keepsPolling resp = true).
    { unfold keepsPolling, finishesJob in *. rewrite Htotal in *.
      rewrite Hfin. reflexivity. }
    destruct (pollDeployRecord_again env id fuel i resp Hctx Hpoll Hkeep)
      as [msg Heq].
    rewrite Heq in Hok. cbn [outcome snd] in Hok.
    destruct (IH (S i) Hok) as (n & last & Hp & Hon & Hc & Hl & Hf).
    exists (S n), last. rewrite Heq. cbn [trace fst pollCalls].
    replace (i + S n)%nat with (S i + n)%nat by lia.
    split; [rewrite Hp; reflexivity|].
    split; [|split; [assumption|split; assumption]].
    intros k Hk. destruct k as [|k'].
    + rewrite Nat.add_0_r. split; [assumption|]. exists resp. split; assumption.
    + replace (i + S k')%nat with (S i + k')%nat by lia. apply Hon. lia.
Qed.

(** C1, as the code has it: once the job is submitted, a poll answer with
    succeeded + failed = total ends [Deploy] with success, whatever its
    failed count; a poll answer without a total ends it with the error
    "unexpected deployment job status", never with success. *)
Theorem deploy_result_ignores_failed_count (env : Env) (config : DeployerConfig)
    (fuel : nat) (certPEM privkeyPEM : string) (upres : UploadResult)
    (instanceIds : list string) (dresp : DeployCertificateInstanceResponse)
    (id : Z) (n : nat) (resp : DescribeHostDeployRecordDetailResponse) :
  sslUploader_Upload env certPEM privkeyPEM = inr upres ->
  outcome (instancesToDeploy env config upres) = Ok instanceIds ->
  instanceIds <> [] ->
  SSL_DeployCertificateInstance env (newDeployRequest upres instanceIds) = inr dresp ->
  DeployRecordId dresp = Some id ->
  pollsOn env id 0 n ->
  ctx_Err env n = None ->
  SSL_DescribeHostDeployRecordDetail env n (newPollRequest id) = inr resp ->
  (n < fuel)%nat ->
  let run := Deploy env config fuel certPEM privkeyPEM in
  (finishesJob resp = true -> outcome run = Ok EmptyDeployResult) /\
  (TotalCount resp = None ->
     outcome run = Err (ErrNew "unexpected deployment job status") /\
     List.length (pollCalls (trace run)) = S n).
Proof.
  intros Hup Hids Hne Hsub Hid Hon Hctx Hpoll Hlt run.
  destruct (Deploy_after_submit env config fuel certPEM privkeyPEM upres
              instanceIds dresp Hup Hids Hne Hsub) as (Hp & _ & Ho).
  fold run in Hp, Ho. rewrite Hid in Hp, Ho.
  destruct (pollDeployRecord_reaches env id n fuel Hon Hlt)
    as (fuel' & Hrp & _ & Hro).
  rewrite Hro in Ho. rewrite Hrp in Hp.
  split.
  - intros Hfin.
    rewrite (pollDeployRecord_break env id fuel' n resp Hctx Hpoll Hfin) in Ho.
    exact Ho.
  - intros Hnone.
    rewrite (pollDeployRecord_no_total env id fuel' n resp Hctx Hpoll Hnone)
      in Ho, Hp.
    split; [exact Ho|].
    rewrite Hp, length_app, repeat_length. simpl. lia.
Qed.

(** C2, as the code has it: the loop breaks exactly at the first poll
    answer that has a total equal to succeeded + failed; every answer
    before it, whose total is there and differs, is followed by one sleep
    of five seconds and the next poll.  So [Deploy] succeeds after exactly
    [n + 1] polls if and only if the first [n] answers keep the loop
    polling, with the context open, and the next one finishes the job; and
    then it has slept [n] times. *)
Theorem poll_loop_breaks_at_first_finished_answer (env : Env)
    (config : DeployerConfig) (fuel : nat) (certPEM privkeyPEM : string)
    (upres : UploadResult) (instanceIds : list string)
    (dresp : DeployCertificateInstanceResponse) (id : Z) (n : nat) :
  sslUploader_Upload env certPEM privkeyPEM = inr upres ->
  outcome (instancesToDeploy env config upres) = Ok instanceIds ->
  instanceIds <> [] ->
  SSL_DeployCertificateInstance env (newDeployRequest upres instanceIds) = inr dresp ->
  DeployRecordId dresp = Some id ->
  (n < fuel)%nat ->
  let run := Deploy env config fuel certPEM privkeyPEM in
  let finishes_at_n :=
    pollsOn env id 0 n /\
    ctx_Err env n = None /\
    exists resp,
      SSL_DescribeHostDeployRecordDetail env n (newPollRequest id) = inr resp /\
      finishesJob resp = true in
  let breaks_after_n :=
    outcome run = Ok EmptyDeployResult /\
    pollCalls (trace run) = repeat (newPollRequest id) (S n) in
  (finishes_at_n <-> breaks_after_n) /\
  (breaks_after_n -> sleeps (trace run) = repeat (time_Second * 5) n).
Proof.
  intros Hup Hids Hne Hsub Hid Hlt run finishes_at_n breaks_after_n.
  destruct (Deploy_after_submit env config fuel certPEM privkeyPEM upres
              instanceIds dresp Hup Hids Hne Hsub) as (Hp & Hs & Ho).
  fold run in Hp, Hs, Ho. rewrite Hid in Hp, Hs, Ho.
  assert (Hforward : finishes_at_n ->
            breaks_after_n /\ sleeps (trace run) = repeat (time_Second * 5) n).
  { intros (Hon & Hctx & resp & Hpoll & Hfin).
    destruct (pollDeployRecord_reaches env id n fuel Hon Hlt)
      as (fuel' & Hrp & Hrs & Hro).
    rewrite Hro in Ho. rewrite Hrp in Hp. rewrite Hrs in Hs.
    rewrite (pollDeployRecord_break env id fuel' n resp Hctx Hpoll Hfin)
      in Ho, Hp, Hs.
    simpl in Hp, Hs, Ho. rewrite app_nil_r in Hs.
    split; [split; [exact Ho|] | exact Hs].
    rewrite Hp. change (S n) with (1 + n)%nat.
    rewrite Nat.add_comm, repeat_app. reflexivity. }
  assert (Hbackward : breaks_after_n -> finishes_at_n).
  { intros [Hok Hpolls].
    assert (Hloop : outcome (pollDeployRecord env (Some id) fuel 0%nat) = Ok tt).
    { rewrite Hok in Ho.
      destruct (outcome (pollDeployRecord env (Some id) fuel 0%nat))
        as [[]| | |]; [reflexivity | discriminate Ho ..]. }
    destruct (pollDeployRecord_break_inv env id fuel 0%nat Hloop)
      as (n' & resp & Hp' & Hon & Hctx & Hpoll & Hfin).
    assert (n' = n).
    { rewrite Hpolls, Hp' in Hp.
      apply (f_equal (@List.length _)) in Hp.
      rewrite !repeat_length in Hp. lia. }
    subst n'. simpl in Hctx, Hpoll.
    split; [exact Hon|]. split; [exact Hctx|].
    exists resp. split; assumption. }
  split; [split; [intros H; apply Hforward, H | exact Hbackward]|].
  intros H. apply Hforward, Hbackward, H.
Qed.

(** *** Concrete runs

    A deployer for one CDN domain that is not deployed yet; the upload and
    the job submission succeed, the context is never done, and the vendor
    answers the polls from a given sequence. *)

Definition example_config : DeployerConfig :=
  {| SecretId := "AKID"; SecretKey := "secret"; Domain := "cdn.example.com" |}.

Definition counts (running succeeded failed total : Z)
    : DescribeHostDeployRecordDetailResponse :=
  {| TotalCount := Some total;
     SuccessTotalCount := Some succeeded;
     FailedTotalCount := Some failed;
     RunningTotalCount := Some running |}.

Definition example_env (polls : nat -> DescribeHostDeployRecordDetailResponse)
    : Env :=
  {| ctx_Err := fun _ => None;
     sslUploader_Upload := fun _ _ =>
       inr {| CertId := "cert-1"; CertName := "certimate-1" |};
     CDN_DescribeCertDomains := fun _ => inr {| Domains := [] |};
     SSL_DescribeDeployedResources := fun _ =>
       inr {| DeployedResourcesList := [] |};
     SSL_DeployCertificateInstance := fun _ =>
       inr {| DeployRecordId := Some 42 |};
     SSL_DescribeHostDeployRecordDetail := fun i _ => inr (polls i) |}.

(** The poll sequence of the specification's example. *)
Definition spec_poll_sequence (i : nat) : DescribeHostDeployRecordDetailResponse :=
  match i with
  | O => counts 0 0 0 0
  | _ => counts 0 3 2 5
  end.

(** A job still running at the first poll and finished, with two failed
    targets, at the second. *)
Definition running_then_failed (i : nat) : DescribeHostDeployRecordDetailResponse :=
  match i with
  | O => counts 5 0 0 5
  | _ => counts 0 3 2 5
  end.

(** The one round of [running_then_failed] that keeps polling. *)
Ltac first_round_polls :=
  intros k Hk; assert (k = 0%nat) by lia; subst k;
  split; [reflexivity | eexists; split; reflexivity].

(** Counterexample to C1: the job ends with succeeded + failed = total and
    two failed targets, and [Deploy] returns success. *)
Lemma deploy_succeeds_with_failed_targets :
  let env := example_env (fun _ => counts 0 3 2 5) in
  let run := Deploy env example_config 1 "cert" "key" in
  SSL_DescribeHostDeployRecordDetail env 0%nat (newPollRequest 42)
    = inr (counts 0 3 2 5) /\
  finishesJob (counts 0 3 2 5) = true /\
  FailedTotalCount (counts 0 3 2 5) = Some 2 /\
  outcome run = Ok EmptyDeployResult /\
  (forall e, outcome run <> Err e).
Proof.
  vm_compute. repeat split; discriminate.
Qed.

Lemma deploy_result_ignores_failed_count_witness :
  outcome (Deploy (example_env running_then_failed) example_config 2 "cert" "key")
    = Ok EmptyDeployResult.
Proof.
  apply (deploy_result_ignores_failed_count (example_env running_then_failed)
           example_config 2 "cert" "key"
           {| CertId := "cert-1"; CertName := "certimate-1" |}
           ["cdn.example.com"] {| DeployRecordId := Some 42 |} 42 1
           (counts 0 3 2 5));
    try reflexivity.
  - discriminate.
  - first_round_polls.
  - lia.
Defined.

(** Counterexample to C2: on the sequence {0,0,0,0}, {0,3,2,5} the loop
    breaks at the first answer, since 0 + 0 = 0; there is one poll, not
    two, and the run is a success. *)
Lemma spec_sequence_stops_after_first_poll :
  let run := Deploy (example_env spec_poll_sequence) example_config 5 "cert" "key" in
  List.length (pollCalls (trace run)) = 1%nat /\
  List.length (pollCalls (trace run)) <> 2%nat /\
  sleeps (trace run) = [] /\
  outcome run = Ok EmptyDeployResult.
Proof.
  vm_compute. repeat split; discriminate.
Qed.

Lemma poll_loop_breaks_at_first_finished_answer_witness :
  let run := Deploy (example_env running_then_failed) example_config 2 "cert" "key" in
  outcome run = Ok EmptyDeployResult /\
  pollCalls (trace run) = [newPollRequest 42; newPollRequest 42].
Proof.
  apply (poll_loop_breaks_at_first_finished_answer
           (example_env running_then_failed)
           example_config 2 "cert" "key"
           {| CertId := "cert-1"; CertName := "certimate-1" |}
           ["cdn.example.com"] {| DeployRecordId := Some 42 |} 42 1
           eq_refl eq_refl ltac:(discriminate) eq_refl eq_refl ltac:(lia)).
  split; [first_round_polls|].
  split; [reflexivity|].
  eexists. split; reflexivity.
Defined.

(** *** Further properties of the deployer *)

(** The job submissions of a run, in order. *)
Definition deployCalls (t : list event) : list DeployCertificateInstanceRequest :=
  flat_map (fun e => match e with
                     | CallDeployCertificateInstance req => [req]
                     | _ => []
                     end) t.

(** The certificate-domain lookups of a run, in order. *)
Definition certDomainCalls (t : list event) : list DescribeCertDomainsRequest :=
  flat_map (fun e => match e with
                     | CallDescribeCertDomains req => [req]
                     | _ => []
                     end) t.

(** The events of the two lookups that precede the submission. *)
Definition isLookup (e : event) : Prop :=
  match e with
  | CallDescribeCertDomains _ | CallDescribeDeployedResources _ => True
  | _ => False
  end.

(** The events of the poll loop. *)
Definition isPollEvent (e : event) : Prop :=
  match e with
  | CallDescribeHostDeployRecordDetail _ | LogInfo _ | Sleep _ => True
  | _ => False
  end.

Lemma flat_map_nil_Forall {A B : Type} (f : A -> list B) (l : list A) :
  Forall (fun a => f a = []) l -> flat_map f l = [].
Proof.
  induction 1 as [|a l Ha _ IH]; simpl; [reflexivity|]. rewrite Ha, IH.
  reflexivity.
Qed.

Lemma slices_Contains_In (s : list string) (v : string) :
  slices_Contains s v = true <-> In v s.
Proof.
  unfold slices_Contains. rewrite existsb_exists. split.
  - intros (x & Hin & Heq). apply String.eqb_eq in Heq. subst x. exact Hin.
  - intros Hin. exists v. split; [exact Hin | apply String.eqb_refl].
Qed.

Lemma getDomainsByCertificateId_events (env : Env) (cloudCertId : string) :
  Forall isLookup (trace (getDomainsByCertificateId env cloudCertId)).
Proof.
  unfold getDomainsByCertificateId.
  apply trace_bind_Forall; [repeat constructor|]. intros _ _.
  apply trace_bind_Forall.
  - destruct (CDN_DescribeCertDomains env _); constructor.
  - intros resp _. rewrite derefAll_trace. constructor.
Qed.

Lemma getDeployedDomainsByCertificateId_events (env : Env) (cloudCertId : string) :
  Forall isLookup (trace (getDeployedDomainsByCertificateId env cloudCertId)).
Proof.
  unfold getDeployedDomainsByCertificateId.
  apply trace_bind_Forall; [repeat constructor|]. intros _ _.
  apply trace_bind_Forall.
  - destruct (SSL_DescribeDeployedResources env _); constructor.
  - intros resp _. rewrite collectResources_trace. constructor.
Qed.

Lemma instancesToDeploy_events (env : Env) (config : DeployerConfig)
    (upres : UploadResult) :
  Forall isLookup (trace (instancesToDeploy env config upres)).
Proof.
  unfold instancesToDeploy. apply trace_bind_Forall.
  - destruct (HasPrefix (Domain config) "*.");
      [apply getDomainsByCertificateId_events | constructor].
  - intros ids _. destruct (0 <? Z.of_nat (List.length ids)); [|constructor].
    apply trace_bind_Forall; [apply getDeployedDomainsByCertificateId_events|].
    intros ds _. constructor.
Qed.

Lemma pollDeployRecord_events (env : Env) (deployRecordId : option Z)
    (fuel : nat) :
  forall i, Forall isPollEvent (trace (pollDeployRecord env deployRecordId fuel i)).
Proof.
  induction fuel as [|fuel IH]; intros i; [constructor|].
  cbn [pollDeployRecord].
  destruct (ctx_Err env i); [constructor|].
  apply trace_bind_Forall; [destruct deployRecordId; constructor|].
  intros id _. apply trace_bind_Forall; [repeat constructor|]. intros _ _.
  apply trace_bind_Forall.
  - destruct (SSL_DescribeHostDeployRecordDetail env i _); constructor.
  - intros resp _. destruct (TotalCount resp); [|constructor].
    destruct (jobFinished _ _ _); [constructor|].
    apply trace_bind_Forall; [repeat constructor|]. intros _ _.
    apply trace_bind_Forall; [repeat constructor|]. intros _ _.
    apply IH.
Qed.

Lemma lookups_project_to_nothing (t : list event) :
  Forall isLookup t ->
  deployCalls t = [] /\ pollCalls t = [] /\ sleeps t = [].
Proof.
  induction 1 as [|e t He _ IH]; [repeat split; reflexivity|].
  destruct e; try contradiction He; simpl; exact IH.
Qed.

Lemma poll_events_project_to_nothing (t : list event) :
  Forall isPollEvent t -> deployCalls t = [] /\ certDomainCalls t = [].
Proof.
  induction 1 as [|e t He _ IH]; [split; reflexivity|].
  destruct e; try contradiction He; simpl; exact IH.
Qed.

(** Lines 120-180 of [Deploy]: what is done with the instances still to
    deploy to. *)
Definition deployJob (env : Env) (upres : UploadResult) (fuel : nat)
    (instanceIds : list string) : M event unit :=
  if (Z.of_nat (List.length instanceIds) =? 0) then
    emit (LogInfo "no cdn instances to deploy")
  else
    emit (LogInfo "found cdn instances to deploy") ;;
    deployCertificateInstanceResp <- submitDeployJob env upres instanceIds ;;
    pollDeployRecord env (DeployRecordId deployCertificateInstanceResp) fuel 0%nat.

Lemma Deploy_after_upload (env : Env) (config : DeployerConfig) (fuel : nat)
    (certPEM privkeyPEM : string) (upres : UploadResult) :
  sslUploader_Upload env certPEM privkeyPEM = inr upres ->
  let inst := instancesToDeploy env config upres in
  let run := Deploy env config fuel certPEM privkeyPEM in
  trace run =
    (CallUpload certPEM privkeyPEM :: LogInfo "ssl certificate uploaded"
     :: trace inst
     ++ match outcome inst with
        | Ok instanceIds => trace (deployJob env upres fuel instanceIds)
        | _ => []
        end)%list /\
  outcome run =
    match outcome inst with
    | Ok instanceIds =>
        match outcome (deployJob env upres fuel instanceIds) with
        | Ok _ => Ok EmptyDeployResult
        | Err e => Err e
        | Panic => Panic
        | OutOfFuel => OutOfFuel
        end
    | Err e => Err e
    | Panic => Panic
    | OutOfFuel => OutOfFuel
    end.
Proof.
  intros Hup inst run. subst run. unfold Deploy.
  rewrite !trace_bind, !outcome_bind, Hup.
  cbn [trace outcome fst snd emit try_wrap ret app].
  rewrite ?trace_bind, ?outcome_bind.
  cbn [trace outcome fst snd emit try_wrap ret app].
  rewrite ?trace_bind, ?outcome_bind. fold inst.
  destruct (outcome inst) as [ids| | |]; try (split; reflexivity).
  rewrite ?trace_bind, ?outcome_bind.
  change (if Z.of_nat (List.length ids) =? 0
          then emit (LogInfo "no cdn instances to deploy")
          else _) with (deployJob env upres fuel ids).
  destruct (outcome (deployJob env upres fuel ids)) as [[]| | |];
    cbn [trace fst ret]; rewrite ?app_nil_r; split; reflexivity.
Qed.

Lemma deployJob_run (env : Env) (upres : UploadResult) (fuel : nat)
    (instanceIds : list string) :
  instanceIds <> [] ->
  trace (deployJob env upres fuel instanceIds) =
    LogInfo "found cdn instances to deploy"
    :: CallDeployCertificateInstance (newDeployRequest upres instanceIds)
    :: match SSL_DeployCertificateInstance env
               (newDeployRequest upres instanceIds) with
       | inr dresp => trace (pollDeployRecord env (DeployRecordId dresp) fuel 0%nat)
       | inl _ => []
       end.
Proof.
  intros Hne. unfold deployJob, submitDeployJob.
  assert (Hlen : (Z.of_nat (List.length instanceIds) =? 0) = false).
  { destruct instanceIds; [contradiction Hne; reflexivity|].
    apply Z.eqb_neq. simpl List.length. lia. }
  rewrite Hlen, !trace_bind.
  cbn [trace outcome fst snd emit app].
  rewrite outcome_bind. cbn [trace outcome fst snd emit app].
  destruct (SSL_DeployCertificateInstance env _); reflexivity.
Qed.

(** X8: when no instance is left to deploy to (every candidate already
    serves the certificate, or the wildcard matched none), [Deploy]
    submits no job, never polls or sleeps, and returns success. *)
Theorem nothing_to_deploy_submits_no_job (env : Env) (config : DeployerConfig)
    (fuel : nat) (certPEM privkeyPEM : string) (upres : UploadResult) :
  sslUploader_Upload env certPEM privkeyPEM = inr upres ->
  outcome (instancesToDeploy env config upres) = Ok [] ->
  let run := Deploy env config fuel certPEM privkeyPEM in
  outcome run = Ok EmptyDeployResult /\
  deployCalls (trace run) = [] /\
  pollCalls (trace run) = [] /\
  sleeps (trace run) = [].
Proof.
  intros Hup Hnone run.
  destruct (Deploy_after_upload env config fuel certPEM privkeyPEM upres Hup)
    as [Ht Ho].
  fold run in Ht, Ho. rewrite Hnone in Ht, Ho.
  destruct (lookups_project_to_nothing _ (instancesToDeploy_events env config upres))
    as (Hd & Hp & Hs).
  split; [exact Ho|]. rewrite Ht.
  unfold deployCalls in *. cbn [flat_map pollCalls sleeps app].
  rewrite flat_map_app, pollCalls_app, sleeps_app, Hd, Hp, Hs.
  repeat split; reflexivity.
Qed.

(** X9: the instances [Deploy] goes on with are never ones that already
    serve the certificate: when the list is not empty the deployed
    resources were looked up, none of the list is among them, and for a
    domain that is not a wildcard the list is that one domain. *)
Theorem deployed_instances_are_skipped (env : Env) (config : DeployerConfig)
    (upres : UploadResult) (instanceIds : list string) :
  outcome (instancesToDeploy env config upres) = Ok instanceIds ->
  instanceIds <> [] ->
  exists deployedDomains,
    outcome (getDeployedDomainsByCertificateId env (CertId upres))
      = Ok deployedDomains /\
    Forall (fun instanceId => ~ In instanceId deployedDomains) instanceIds /\
    (HasPrefix (Domain config) "*." = false -> instanceIds = [Domain config]).
Proof.
  intros Hout Hne. unfold instancesToDeploy in Hout.
  rewrite outcome_bind in Hout.
  set (candidates := if HasPrefix (Domain config) "*." then _ else _) in Hout.
  destruct (outcome candidates) as [cs| | |] eqn:Hcs; try discriminate Hout.
  destruct (0 <? Z.of_nat (List.length cs)) eqn:Hlen.
  - rewrite outcome_bind in Hout.
    destruct (outcome (getDeployedDomainsByCertificateId env (CertId upres)))
      as [ds| | |]; try discriminate Hout.
    cbn [outcome snd ret] in Hout. injection Hout as <-.
    exists ds. split; [reflexivity|]. split.
    + apply Forall_forall. intros d Hd. apply filter_In in Hd as [_ Hd].
      apply negb_true_iff in Hd. intros Hin.
      apply slices_Contains_In in Hin. congruence.
    + intros Hwild. subst candidates. rewrite Hwild in Hcs.
      cbn [outcome snd ret] in Hcs. injection Hcs as <-.
      cbn [filter] in *.
      destruct (negb (slices_Contains ds (Domain config)));
        [reflexivity | contradiction Hne; reflexivity].
  - cbn [outcome snd ret] in Hout. injection Hout as <-.
    apply Z.ltb_ge in Hlen. destruct cs; [contradiction Hne; reflexivity|].
    simpl List.length in Hlen. lia.
Qed.

(** X10: every run of [Deploy] submits at most one job, and only after a
    successful upload: its request names the uploaded certificate, the
    resource type cdn, status 1, and exactly the instances still to deploy
    to, which are not none. *)
Theorem at_most_one_job_for_the_uploaded_certificate (env : Env)
    (config : DeployerConfig) (fuel : nat) (certPEM privkeyPEM : string) :
  let run := Deploy env config fuel certPEM privkeyPEM in
  deployCalls (trace run) = [] \/
  exists upres instanceIds,
    sslUploader_Upload env certPEM privkeyPEM = inr upres /\
    outcome (instancesToDeploy env config upres) = Ok instanceIds /\
    instanceIds <> [] /\
    deployCalls (trace run) =
      [ {| dci_CertificateId := Some (CertId upres);
           dci_ResourceType := Some "cdn";
           dci_Status := Some 1;
           dci_InstanceIdList := map Some instanceIds |} ].
Proof.
  intros run.
  destruct (sslUploader_Upload env certPEM privkeyPEM) as [e|upres] eqn:Hup.
  - left. subst run. unfold Deploy. rewrite trace_bind.
    cbn [trace outcome fst snd emit app]. rewrite trace_bind, Hup. reflexivity.
  - destruct (Deploy_after_upload env config fuel certPEM privkeyPEM upres Hup)
      as [Ht _].
    fold run in Ht.
    destruct (lookups_project_to_nothing _
                (instancesToDeploy_events env config upres)) as (Hd & _ & _).
    assert (Hsplit : deployCalls (trace run) =
              match outcome (instancesToDeploy env config upres) with
              | Ok ids => deployCalls (trace (deployJob env upres fuel ids))
              | _ => []
              end).
    { rewrite Ht. unfold deployCalls in *. cbn [flat_map app].
      rewrite flat_map_app, Hd.
      destruct (outcome (instancesToDeploy env config upres)); reflexivity. }
    destruct (outcome (instancesToDeploy env config upres)) as [ids| | |] eqn:Hids;
      try (left; exact Hsplit).
    destruct ids as [|id ids]; [left; rewrite Hsplit; reflexivity|].
    right. exists upres, (id :: ids).
    split; [reflexivity|]. split; [exact Hids|]. split; [discriminate|].
    rewrite Hsplit, deployJob_run by discriminate.
    unfold deployCalls. cbn [flat_map app]. f_equal.
    destruct (SSL_DeployCertificateInstance env _) as [e|dresp]; [reflexivity|].
    apply (poll_events_project_to_nothing _
             (pollDeployRecord_events env (DeployRecordId dresp) fuel 0%nat)).
Qed.

(** X11: cancellation is seen before each poll.  When the context is done
    at the iteration that follows [n] rounds of polling, [Deploy] returns
    the context's error, having made exactly those [n] polls and [n]
    sleeps: no poll is sent once the context is done. *)
Theorem cancellation_stops_the_polling (env : Env) (config : DeployerConfig)
    (fuel : nat) (certPEM privkeyPEM : string) (upres : UploadResult)
    (instanceIds : list string) (dresp : DeployCertificateInstanceResponse)
    (id : Z) (n : nat) (err : error) :
  sslUploader_Upload env certPEM privkeyPEM = inr upres ->
  outcome (instancesToDeploy env config upres) = Ok instanceIds ->
  instanceIds <> [] ->
  SSL_DeployCertificateInstance env (newDeployRequest upres instanceIds) = inr dresp ->
  DeployRecordId dresp = Some id ->
  pollsOn env id 0 n ->
  ctx_Err env n = Some err ->
  (n < fuel)%nat ->
  let run := Deploy env config fuel certPEM privkeyPEM in
  outcome run = Err err /\
  pollCalls (trace run) = repeat (newPollRequest id) n /\
  sleeps (trace run) = repeat (time_Second * 5) n.
Proof.
  intros Hup Hids Hne Hsub Hid Hon Hctx Hlt run.
  destruct (Deploy_after_submit env config fuel certPEM privkeyPEM upres
              instanceIds dresp Hup Hids Hne Hsub) as (Hp & Hs & Ho).
  fold run in Hp, Hs, Ho. rewrite Hid in Hp, Hs, Ho.
  destruct (pollDeployRecord_reaches env id n fuel Hon Hlt)
    as (fuel' & Hrp & Hrs & Hro).
  rewrite Hro in Ho. rewrite Hrp in Hp. rewrite Hrs in Hs.
  cbn [pollDeployRecord] in Ho, Hp, Hs. rewrite Hctx in Ho, Hp, Hs.
  cbn [trace outcome fst snd fail pollCalls sleeps] in Ho, Hp, Hs.
  rewrite app_nil_r in Hp, Hs. repeat split; assumption.
Qed.

(** X12: a poll that fails ends [Deploy] with that error, wrapped with the
    name of the SDK request; the failed poll is the last one, and it is
    not retried. *)
Theorem poll_error_is_returned (env : Env) (config : DeployerConfig)
    (fuel : nat) (certPEM privkeyPEM : string) (upres : UploadResult)
    (instanceIds : list string) (dresp : DeployCertificateInstanceResponse)
    (id : Z) (n : nat) (err : error) :
  sslUploader_Upload env certPEM privkeyPEM = inr upres ->
  outcome (instancesToDeploy env config upres) = Ok instanceIds ->
  instanceIds <> [] ->
  SSL_DeployCertificateInstance env (newDeployRequest upres instanceIds) = inr dresp ->
  DeployRecordId dresp = Some id ->
  pollsOn env id 0 n ->
  ctx_Err env n = None ->
  SSL_DescribeHostDeployRecordDetail env n (newPollRequest id) = inl err ->
  (n < fuel)%nat ->
  let run := Deploy env config fuel certPEM privkeyPEM in
  outcome run =
    Err (ErrWrap "failed to execute sdk request 'ssl.DescribeHostDeployRecordDetail'"
           err) /\
  pollCalls (trace run) = repeat (newPollRequest id) (S n).
Proof.
  intros Hup Hids Hne Hsub Hid Hon Hctx Hpoll Hlt run.
  destruct (Deploy_after_submit env config fuel certPEM privkeyPEM upres
              instanceIds dresp Hup Hids Hne Hsub) as (Hp & _ & Ho).
  fold run in Hp, Ho. rewrite Hid in Hp, Ho.
  destruct (pollDeployRecord_reaches env id n fuel Hon Hlt)
    as (fuel' & Hrp & _ & Hro).
  rewrite Hro in Ho. rewrite Hrp in Hp.
  assert (Hlast : pollDeployRecord env (Some id) (S fuel') n =
            ([CallDescribeHostDeployRecordDetail (newPollRequest id)],
             Err (ErrWrap
               "failed to execute sdk request 'ssl.DescribeHostDeployRecordDetail'"
               err))).
  { cbn [pollDeployRecord]. rewrite Hctx. simpl. rewrite Hpoll. reflexivity. }
  rewrite Hlast in Ho, Hp. split; [exact Ho|].
  rewrite Hp. cbn [trace fst pollCalls].
  change (S n) with (1 + n)%nat. rewrite Nat.add_comm, repeat_app. reflexivity.
Qed.

(** X13: the loop has no bound of its own.  While the context stays open
    and every answer has a total that differs from succeeded + failed, the
    deployer keeps polling: for every amount of fuel the run uses all of
    it, one poll and one five-second sleep per unit, without returning. *)
Theorem polling_never_gives_up (env : Env) (config : DeployerConfig)
    (certPEM privkeyPEM : string) (upres : UploadResult)
    (instanceIds : list string) (dresp : DeployCertificateInstanceResponse)
    (id : Z) :
  sslUploader_Upload env certPEM privkeyPEM = inr upres ->
  outcome (instancesToDeploy env config upres) = Ok instanceIds ->
  instanceIds <> [] ->
  SSL_DeployCertificateInstance env (newDeployRequest upres instanceIds) = inr dresp ->
  DeployRecordId dresp = Some id ->
  (forall n, pollsOn env id 0 n) ->
  forall fuel,
    let run := Deploy env config fuel certPEM privkeyPEM in
    outcome run = OutOfFuel /\
    pollCalls (trace run) = repeat (newPollRequest id) fuel /\
    sleeps (trace run) = repeat (time_Second * 5) fuel.
Proof.
  intros Hup Hids Hne Hsub Hid Hon fuel run.
  destruct (Deploy_after_submit env config fuel certPEM privkeyPEM upres
              instanceIds dresp Hup Hids Hne Hsub) as (Hp & Hs & Ho).
  fold run in Hp, Hs, Ho. rewrite Hid in Hp, Hs, Ho.
  pose proof (pollDeployRecord_rounds env id fuel 0%nat 0%nat (Hon fuel))
    as Hrounds.
  cbv zeta in Hrounds. rewrite Nat.add_0_r in Hrounds.
  cbn [pollDeployRecord trace outcome fst snd pollCalls sleeps] in Hrounds.
  rewrite !app_nil_r in Hrounds. destruct Hrounds as (Hrp & Hrs & Hro).
  rewrite Hro in Ho. rewrite Hrp in Hp. rewrite Hrs in Hs.
  repeat split; assumption.
Qed.

(** X14: a submission answer without a deploy record id is dereferenced at
    the first iteration of the loop: with the context open, [Deploy]
    panics before any poll is sent. *)
Theorem missing_deploy_record_id_panics (env : Env) (config : DeployerConfig)
    (fuel : nat) (certPEM privkeyPEM : string) (upres : UploadResult)
    (instanceIds : list string) (dresp : DeployCertificateInstanceResponse) :
  sslUploader_Upload env certPEM privkeyPEM = inr upres ->
  outcome (instancesToDeploy env config upres) = Ok instanceIds ->
  instanceIds <> [] ->
  SSL_DeployCertificateInstance env (newDeployRequest upres instanceIds) = inr dresp ->
  DeployRecordId dresp = None ->
  ctx_Err env 0%nat = None ->
  (0 < fuel)%nat ->
  let run := Deploy env config fuel certPEM privkeyPEM in
  outcome run = Panic /\
  pollCalls (trace run) = [] /\
  deployCalls (trace run) = [newDeployRequest upres instanceIds].
Proof.
  intros Hup Hids Hne Hsub Hid Hctx Hlt run.
  destruct (Deploy_after_submit env config fuel certPEM privkeyPEM upres
              instanceIds dresp Hup Hids Hne Hsub) as (Hp & _ & Ho).
  fold run in Hp, Ho. rewrite Hid in Hp, Ho.
  destruct fuel as [|fuel]; [lia|].
  cbn [pollDeployRecord] in Hp, Ho. rewrite Hctx in Hp, Ho.
  split; [exact Ho|]. split; [exact Hp|].
  destruct (Deploy_after_upload env config (S fuel) certPEM privkeyPEM upres Hup)
    as [Ht _].
  fold run in Ht. rewrite Hids in Ht.
  destruct (lookups_project_to_nothing _
              (instancesToDeploy_events env config upres)) as (Hd & _ & _).
  rewrite Ht, (deployJob_run env upres (S fuel) instanceIds Hne), Hsub, Hid.
  unfold deployCalls in *. cbn [flat_map app].
  rewrite flat_map_app, Hd.
  cbn [pollDeployRecord]. rewrite Hctx. reflexivity.
Qed.

Lemma getDeployedDomainsByCertificateId_no_cert_domains (env : Env)
    (cloudCertId : string) :
  certDomainCalls (trace (getDeployedDomainsByCertificateId env cloudCertId)) = [].
Proof.
  unfold getDeployedDomainsByCertificateId. rewrite trace_bind.
  cbn [trace outcome fst snd emit app]. rewrite trace_bind.
  destruct (SSL_DescribeDeployedResources env _) as [e|r];
    cbn [trace outcome fst snd try_wrap fail ret app];
    rewrite ?collectResources_trace; reflexivity.
Qed.

Lemma deployJob_no_cert_domains (env : Env) (upres : UploadResult)
    (fuel : nat) (instanceIds : list string) :
  certDomainCalls (trace (deployJob env upres fuel instanceIds)) = [].
Proof.
  destruct instanceIds as [|id ids]; [reflexivity|].
  rewrite deployJob_run by discriminate.
  unfold certDomainCalls. cbn [flat_map app].
  destruct (SSL_DeployCertificateInstance env _) as [e|dresp]; [reflexivity|].
  apply (poll_events_project_to_nothing _
           (pollDeployRecord_events env (DeployRecordId dresp) fuel 0%nat)).
Qed.

(** X15: the certificate's domains are looked up exactly for a wildcard.
    With a configured domain that does not start with [*.] no run of
    [Deploy] asks the vendor for them; with one that does, a run whose
    upload succeeded asks once, for the uploaded certificate and the
    product cdn. *)
Theorem cert_domains_looked_up_only_for_wildcard (env : Env)
    (config : DeployerConfig) (fuel : nat) (certPEM privkeyPEM : string) :
  let run := Deploy env config fuel certPEM privkeyPEM in
  (HasPrefix (Domain config) "*." = false -> certDomainCalls (trace run) = []) /\
  (HasPrefix (Domain config) "*." = true ->
   forall upres, sslUploader_Upload env certPEM privkeyPEM = inr upres ->
     certDomainCalls (trace run) =
       [ {| dcd_CertId := Some (CertId upres); dcd_Product := Some "cdn" |} ]).
Proof.
  intros run.
  assert (Hinst : forall upres,
    certDomainCalls (trace (instancesToDeploy env config upres)) =
      if HasPrefix (Domain config) "*."
      then [ {| dcd_CertId := Some (CertId upres); dcd_Product := Some "cdn" |} ]
      else []).
  { intros upres. unfold instancesToDeploy. rewrite trace_bind.
    unfold certDomainCalls. rewrite flat_map_app.
    fold (certDomainCalls (trace (if HasPrefix (Domain config) "*."
            then getDomainsByCertificateId env (CertId upres)
            else ret [Domain config]))).
    assert (Hrest : forall (o : Outcome (list string)),
      flat_map (fun e => match e with
                         | CallDescribeCertDomains req => [req]
                         | _ => []
                         end)
        match o with
        | Ok ids =>
            trace (if 0 <? Z.of_nat (List.length ids)
                   then deployedDomains <-
                          getDeployedDomainsByCertificateId env (CertId upres) ;;
                        ret (filter (fun instanceId =>
                               negb (slices_Contains deployedDomains instanceId)) ids)
                   else ret ids)
        | _ => []
        end = []).
    { intros [ids| | |]; try reflexivity.
      destruct (0 <? Z.of_nat (List.length ids)); [|reflexivity].
      rewrite trace_bind, flat_map_app.
      fold (certDomainCalls (trace (getDeployedDomainsByCertificateId env
                                      (CertId upres)))).
      rewrite getDeployedDomainsByCertificateId_no_cert_domains.
      destruct (outcome (getDeployedDomainsByCertificateId env (CertId upres)));
        reflexivity. }
    rewrite Hrest, app_nil_r.
    destruct (HasPrefix (Domain config) "*."); [|reflexivity].
    unfold getDomainsByCertificateId. rewrite trace_bind.
    cbn [trace outcome fst snd emit app]. rewrite trace_bind.
    destruct (CDN_DescribeCertDomains env _) as [e|r];
      cbn [trace outcome fst snd try_wrap fail ret app];
      rewrite ?derefAll_trace; reflexivity. }
  assert (Hrun : forall upres,
    sslUploader_Upload env certPEM privkeyPEM = inr upres ->
    certDomainCalls (trace run) =
      certDomainCalls (trace (instancesToDeploy env config upres))).
  { intros upres Hup.
    destruct (Deploy_after_upload env config fuel certPEM privkeyPEM upres Hup)
      as [Ht _].
    fold run in Ht. rewrite Ht. unfold certDomainCalls. cbn [flat_map app].
    rewrite flat_map_app.
    destruct (outcome (instancesToDeploy env config upres)) as [ids| | |];
      rewrite ?app_nil_r; try reflexivity.
    fold (certDomainCalls (trace (deployJob env upres fuel ids))).
    rewrite deployJob_no_cert_domains, app_nil_r. reflexivity. }
  split.
  - intros Hwild.
    destruct (sslUploader_Upload env certPEM privkeyPEM) as [e|upres] eqn:Hup.
    + subst run. unfold Deploy. rewrite trace_bind.
      cbn [trace outcome fst snd emit app]. rewrite trace_bind, Hup. reflexivity.
    + rewrite (Hrun upres eq_refl), Hinst, Hwild. reflexivity.
  - intros Hwild upres Hup.
    rewrite (Hrun upres Hup), Hinst, Hwild. reflexivity.
Qed.

(** *** More concrete runs

    The same deployer with the vendor's behaviour given piece by piece:
    the domains that already serve the certificate, the state of the
    context per iteration, the deploy record id of the submission answer
    and the answers to the polls. *)

Definition scripted_env (deployed : list string) (ctx : nat -> option error)
    (recordId : option Z)
    (polls : nat -> error + DescribeHostDeployRecordDetailResponse) : Env :=
  {| ctx_Err := ctx;
     sslUploader_Upload := fun _ _ =>
       inr {| CertId := "cert-1"; CertName := "certimate-1" |};
     CDN_DescribeCertDomains := fun _ =>
       inr {| Domains := [Some "a.example.com"; Some "b.example.com"] |};
     SSL_DescribeDeployedResources := fun _ =>
       inr {| DeployedResourcesList :=
                [Some {| Resources := map Some deployed |}] |};
     SSL_DeployCertificateInstance := fun _ => inr {| DeployRecordId := recordId |};
     SSL_DescribeHostDeployRecordDetail := fun i _ => polls i |}.

Definition wildcard_config : DeployerConfig :=
  {| SecretId := "AKID"; SecretKey := "secret"; Domain := "*.example.com" |}.

Definition example_upres : UploadResult :=
  {| CertId := "cert-1"; CertName := "certimate-1" |}.

Definition never_done (i : nat) : option error := None.

Definition done_from (n : nat) (i : nat) : option error :=
  if (n <=? i)%nat then Some ErrCanceled else None.

Definition still_running (i : nat)
    : error + DescribeHostDeployRecordDetailResponse :=
  inr (counts 5 0 0 5).

Definition fails_at (n : nat) (i : nat)
    : error + DescribeHostDeployRecordDetailResponse :=
  if (n <=? i)%nat then inl (ErrNew "connection reset") else inr (counts 5 0 0 5).

Lemma nothing_to_deploy_submits_no_job_witness :
  let run :=
    Deploy (scripted_env ["cdn.example.com"] never_done (Some 42) still_running)
      example_config 0 "cert" "key" in
  outcome run = Ok EmptyDeployResult /\ deployCalls (trace run) = [].
Proof.
  destruct (nothing_to_deploy_submits_no_job
              (scripted_env ["cdn.example.com"] never_done (Some 42) still_running)
              example_config 0 "cert" "key" example_upres eq_refl eq_refl)
    as (Ho & Hd & _).
  split; assumption.
Defined.

Lemma deployed_instances_are_skipped_witness :
  exists deployedDomains,
    outcome (getDeployedDomainsByCertificateId
               (scripted_env ["a.example.com"] never_done (Some 42) still_running)
               "cert-1") = Ok deployedDomains /\
    Forall (fun instanceId => ~ In instanceId deployedDomains) ["b.example.com"].
Proof.
  destruct (deployed_instances_are_skipped
              (scripted_env ["a.example.com"] never_done (Some 42) still_running)
              wildcard_config example_upres ["b.example.com"] eq_refl
              ltac:(discriminate)) as (ds & Hds & Hnot & _).
  exists ds. split; assumption.
Defined.

Lemma cancellation_stops_the_polling_witness :
  let run :=
    Deploy (scripted_env [] (done_from 1) (Some 42) still_running)
      example_config 5 "cert" "key" in
  outcome run = Err ErrCanceled /\
  pollCalls (trace run) = [newPollRequest 42].
Proof.
  destruct (cancellation_stops_the_polling
              (scripted_env [] (done_from 1) (Some 42) still_running)
              example_config 5 "cert" "key" example_upres ["cdn.example.com"]
              {| DeployRecordId := Some 42 |} 42 1 ErrCanceled
              eq_refl eq_refl ltac:(discriminate) eq_refl eq_refl)
    as (Ho & Hp & _).
  - first_round_polls.
  - reflexivity.
  - lia.
  - split; assumption.
Defined.

Lemma poll_error_is_returned_witness :
  outcome (Deploy (scripted_env [] never_done (Some 42) (fails_at 1))
             example_config 5 "cert" "key")
  = Err (ErrWrap "failed to execute sdk request 'ssl.DescribeHostDeployRecordDetail'"
           (ErrNew "connection reset")).
Proof.
  apply (poll_error_is_returned
           (scripted_env [] never_done (Some 42) (fails_at 1))
           example_config 5 "cert" "key" example_upres ["cdn.example.com"]
           {| DeployRecordId := Some 42 |} 42 1 (ErrNew "connection reset")
           eq_refl eq_refl ltac:(discriminate) eq_refl eq_refl).
  - first_round_polls.
  - reflexivity.
  - reflexivity.
  - lia.
Defined.

Lemma polling_never_gives_up_witness :
  outcome (Deploy (scripted_env [] never_done (Some 42) still_running)
             example_config 3 "cert" "key") = OutOfFuel.
Proof.
  apply (polling_never_gives_up
           (scripted_env [] never_done (Some 42) still_running)
           example_config "cert" "key" example_upres ["cdn.example.com"]
           {| DeployRecordId := Some 42 |} 42
           eq_refl eq_refl ltac:(discriminate) eq_refl eq_refl).
  intros n k Hk. split; [reflexivity|]. eexists. split; reflexivity.
Defined.

Lemma missing_deploy_record_id_panics_witness :
  outcome (Deploy (scripted_env [] never_done None still_running)
             example_config 5 "cert" "key") = Panic.
Proof.
  apply (missing_deploy_record_id_panics
           (scripted_env [] never_done None still_running)
           example_config 5 "cert" "key" example_upres ["cdn.example.com"]
           {| DeployRecordId := None |}
           eq_refl eq_refl ltac:(discriminate) eq_refl eq_refl eq_refl).
  lia.
Defined.

Lemma cert_domains_looked_up_only_for_wildcard_witness :
  certDomainCalls
    (trace (Deploy (scripted_env [] never_done (Some 42) still_running)
              wildcard_config 2 "cert" "key"))
  = [ {| dcd_CertId := Some "cert-1"; dcd_Product := Some "cdn" |} ].
Proof.
  apply (proj2 (cert_domains_looked_up_only_for_wildcard
                  (scripted_env [] never_done (Some 42) still_running)
                  wildcard_config 2 "cert" "key") eq_refl example_upres eq_refl).
Defined.

End TencentCloudCDN.

(** ** pkg/core: the SSL manager interface *)

(** [core.SSLManageUploadResult] *)
Record SSLManageUploadResult : Type := {
  CertId : string;
  CertName : string
}.

(** [x509.Certificate], the fields the providers read *)
Record x509Certificate : Type := {
  Subject_CommonName : string;
  DNSNames : list string;
  NotBefore : Time;
  NotAfter : Time
}.

(** [fmt.Sprintf("certimate-%d", time.Now().UnixMilli())] *)
Definition newCertName (nowUnixMilli : Z) : string :=
  "certimate-" ++ Sprintf_d nowUnixMilli.

(** ** The ctyun AO provider ([package ctcccloudao]) *)

Module CtccCloudAO.

Record SSLManagerProviderConfig : Type := {
  AccessKeyId : string;
  SecretAccessKey : string
}.

(** The SDK's structs, the fields the provider touches; pointer fields are
    [option]s.  The records of a list answer are taken to be non-nil. *)
Record ListCertsRequest : Type := {
  Page : option Z;
  PerPage : option Z;
  UsageMode : option Z
}.

Record CertRecord : Type := {
  rec_Id : Z;
  CN : string;
  SANs : list string;
  IssueTime : Z;
  ExpiresTime : Z
}.

Record ListCertsReturnObj : Type := {
  Results : list CertRecord
}.

Record ListCertsResponse : Type := {
  list_ReturnObj : option ListCertsReturnObj
}.

Record QueryCertRequest : Type := {
  query_Id : option Z
}.

Record CertDetail : Type := {
  Id : Z;
  Name : string;
  Certs : string
}.

Record QueryCertReturnObj : Type := {
  Result : option CertDetail
}.

Record QueryCertResponse : Type := {
  query_ReturnObj : option QueryCertReturnObj
}.

Record CreateCertRequest : Type := {
  create_Name : option string;
  create_Certs : option string;
  create_Key : option string
}.

Record CreateCertReturnObj : Type := {
  create_Id : Z
}.

Record CreateCertResponse : Type := {
  create_ReturnObj : option CreateCertReturnObj
}.

Inductive event : Type :=
| CallListCerts (req : ListCertsRequest)
| CallQueryCert (req : QueryCertRequest)
| CallCreateCert (req : CreateCertRequest)
| LogInfo (msg : string).

(** What the provider talks to.  [ctx_Err i] is the state of the context
    when the [i]-th iteration of the page loop looks at it, counted from 0;
    the store answers by request; [now_UnixMilli] is
    [time.Now().UnixMilli()] at the one place it is read. *)
Record Env : Type := {
  ctx_Err : nat -> option error;
  ListCerts : ListCertsRequest -> error + ListCertsResponse;
  QueryCert : QueryCertRequest -> error + QueryCertResponse;
  CreateCert : CreateCertRequest -> error + CreateCertResponse;
  now_UnixMilli : Z
}.

Section Provider.

(** [strings.EqualFold] of the Go standard library *)
Variable EqualFold : string -> string -> bool.
(** [xcert.ParseCertificateFromPEM] *)
Variable ParseCertificateFromPEM : string -> error + x509Certificate.
(** [xcert.EqualCertificatesFromPEM] *)
Variable EqualCertificatesFromPEM : string -> string -> bool.

Variable env : Env.

(** line 68-69 *)
Definition listCertPerPage : Z := 1000.

(** lines 77-81 *)
Definition newListCertsRequest (listCertPage : Z) : ListCertsRequest :=
  {| Page := Some listCertPage;
     PerPage := Some listCertPerPage;
     UsageMode := Some 0 |}.

(** lines 110-112 *)
Definition newQueryCertRequest (certRecord : CertRecord) : QueryCertRequest :=
  {| query_Id := Some (rec_Id certRecord) |}.

(** line 117-120: the guarded content comparison says "different" *)
Definition contentDiffers (certPEM : string) (queryCertResp : QueryCertResponse)
    : bool :=
  match query_ReturnObj queryCertResp with
  | Some obj =>
      match Result obj with
      | Some result => negb (EqualCertificatesFromPEM certPEM (Certs result))
      | None => false
      end
  | None => false
  end.

(** lines 89-129: the loop over the records of one page.  [Some] is the
    [return] of line 125, [None] the end of the page. *)
Fixpoint scanRecords (certPEM : string) (certX509 : x509Certificate)
    (records : list CertRecord) : M event (option SSLManageUploadResult) :=
  match records with
  | [] => ret None
  | certRecord :: rest =>
      if negb (EqualFold (Subject_CommonName certX509) (CN certRecord)) then
        scanRecords certPEM certX509 rest
      else if negb (slices_Equal (DNSNames certX509) (SANs certRecord)) then
        scanRecords certPEM certX509 rest
      else if negb (Time_Equal (NotBefore certX509)
                      (time_Unix (IssueTime certRecord))) then
        scanRecords certPEM certX509 rest
      else if negb (Time_Equal (NotAfter certX509)
                      (time_Unix (ExpiresTime certRecord))) then
        scanRecords certPEM certX509 rest
      else
        let queryCertReq := newQueryCertRequest certRecord in
        emit (CallQueryCert queryCertReq) ;;
        queryCertResp <-
          try_wrap "failed to execute sdk request 'ao.QueryCert'"
            (QueryCert env queryCertReq) ;;
        if contentDiffers certPEM queryCertResp then
          scanRecords certPEM certX509 rest
        else
          emit (LogInfo "ssl certificate already exists") ;;
          obj <- deref (query_ReturnObj queryCertResp) ;;
          result <- deref (Result obj) ;;
          ret (Some {| CertId := Sprintf_d (Id result);
                       CertName := Name result |})
  end.

(** line 132: the page just read was the last one *)
Definition lastPage (listCertsResp : ListCertsResponse) : bool :=
  match list_ReturnObj listCertsResp with
  | None => true
  | Some obj => Z.of_nat (List.length (Results obj)) <? listCertPerPage
  end.

(** lines 70-137: the page loop, entered at iteration [i] with page number
    [listCertPage]; [None] is the [break]. *)
Fixpoint listAndScan (certPEM : string) (certX509 : x509Certificate)
    (fuel : nat) (i : nat) (listCertPage : Z)
    : M event (option SSLManageUploadResult) :=
  match fuel with
  | O => ([], OutOfFuel)
  | S fuel' =>
      match ctx_Err env i with
      | Some err => fail err
      | None =>
          let listCertsReq := newListCertsRequest listCertPage in
          emit (CallListCerts listCertsReq) ;;
          listCertsResp <-
            try_wrap "failed to execute sdk request 'ao.ListCerts'"
              (ListCerts env listCertsReq) ;;
          found <-
            match list_ReturnObj listCertsResp with
            | Some obj => scanRecords certPEM certX509 (Results obj)
            | None => ret None
            end ;;
          match found with
          | Some result => ret (Some result)
          | None =>
              if lastPage listCertsResp then ret None
              else listAndScan certPEM certX509 fuel' (S i) (inc32 listCertPage)
          end
      end
  end.

(** lines 144-148 *)
Definition newCreateCertRequest (certName certPEM privkeyPEM : string)
    : CreateCertRequest :=
  {| create_Name := Some certName;
     create_Certs := Some certPEM;
     create_Key := Some privkeyPEM |}.

Definition Upload (fuel : nat) (certPEM privkeyPEM : string)
    : M event SSLManageUploadResult :=
  certX509 <- try (ParseCertificateFromPEM certPEM) ;;
  found <- listAndScan certPEM certX509 fuel 0%nat 1 ;;
  match found with
  | Some result => ret result
  | None =>
      let certName := newCertName (now_UnixMilli env) in
      let createCertReq := newCreateCertRequest certName certPEM privkeyPEM in
      emit (CallCreateCert createCertReq) ;;
      createCertResp <-
        try_wrap "failed to execute sdk request 'ao.CreateCert'"
          (CreateCert env createCertReq) ;;
      obj <- deref (create_ReturnObj createCertResp) ;;
      ret {| CertId := Sprintf_d (create_Id obj); CertName := certName |}
  end.

(** The calls of a run, by kind and in order. *)
Fixpoint listCalls (t : list event) : list ListCertsRequest :=
  match t with
  | [] => []
  | CallListCerts req :: t' => req :: listCalls t'
  | _ :: t' => listCalls t'
  end.

Fixpoint createCalls (t : list event) : list CreateCertRequest :=
  match t with
  | [] => []
  | CallCreateCert req :: t' => req :: createCalls t'
  | _ :: t' => createCalls t'
  end.

(** The four metadata checks of lines 91-105, all passed. *)
Definition sameMetadata (certX509 : x509Certificate) (certRecord : CertRecord)
    : bool :=
  EqualFold (Subject_CommonName certX509) (CN certRecord)
  && slices_Equal (DNSNames certX509) (SANs certRecord)
  && Time_Equal (NotBefore certX509) (time_Unix (IssueTime certRecord))
  && Time_Equal (NotAfter certX509) (time_Unix (ExpiresTime certRecord)).

(** The detail record of a query answer, when it has one. *)
Definition detailOf (queryCertResp : QueryCertResponse) : option CertDetail :=
  match query_ReturnObj queryCertResp with
  | Some obj => Result obj
  | None => None
  end.

(** A record the scan passes over: its metadata differs, or its detail is
    fetched, is there, and has other content. *)
Definition passedOver (certPEM : string) (certX509 : x509Certificate)
    (certRecord : CertRecord) : bool :=
  if sameMetadata certX509 certRecord then
    match QueryCert env (newQueryCertRequest certRecord) with
    | inr queryCertResp => contentDiffers certPEM queryCertResp
    | inl _ => false
    end
  else true.

(** A record that matches: same metadata, and a detail record with the
    same content. *)
Definition matching (certPEM : string) (certX509 : x509Certificate)
    (certRecord : CertRecord) : option CertDetail :=
  if sameMetadata certX509 certRecord then
    match QueryCert env (newQueryCertRequest certRecord) with
    | inr queryCertResp =>
        match detailOf queryCertResp with
        | Some result =>
            if EqualCertificatesFromPEM certPEM (Certs result)
            then Some result else None
        | None => None
        end
    | inl _ => None
    end
  else None.

(** The page number [i] iterations after page [listCertPage]: [i] times
    [listCertPage++] on an [int32]. *)
Definition pageAfter (listCertPage : Z) (i : nat) : Z :=
  Nat.iter i inc32 listCertPage.

(** The list requests of [n] iterations from page [listCertPage] on. *)
Definition pageRequests (listCertPage : Z) (n : nat) : list ListCertsRequest :=
  map (fun k => newListCertsRequest (pageAfter listCertPage k)) (seq 0 n).

(** A page that is full and has no match: the loop goes on to the next. *)
Definition fullPageWithoutMatch (certPEM : string) (certX509 : x509Certificate)
    (listCertPage : Z) : bool :=
  match ListCerts env (newListCertsRequest listCertPage) with
  | inr listCertsResp =>
      match list_ReturnObj listCertsResp with
      | Some obj =>
          negb (lastPage listCertsResp)
          && forallb (passedOver certPEM certX509) (Results obj)
      | None => false
      end
  | inl _ => false
  end.

(** A last page (short, or without a body) that has no match: the
    enumeration is exhausted. *)
Definition lastPageWithoutMatch (certPEM : string) (certX509 : x509Certificate)
    (listCertPage : Z) : bool :=
  match ListCerts env (newListCertsRequest listCertPage) with
  | inr listCertsResp =>
      lastPage listCertsResp
      && match list_ReturnObj listCertsResp with
         | Some obj => forallb (passedOver certPEM certX509) (Results obj)
         | None => true
         end
  | inl _ => false
  end.

(** *** Properties of the record scan *)

Lemma listCalls_app (t1 t2 : list event) :
  listCalls (t1 ++ t2) = (listCalls t1 ++ listCalls t2)%list.
Proof.
  induction t1 as [|e t1 IH]; simpl; [reflexivity|].
  destruct e; simpl; rewrite IH; reflexivity.
Qed.

Lemma createCalls_app (t1 t2 : list event) :
  createCalls (t1 ++ t2) = (createCalls t1 ++ createCalls t2)%list.
Proof.
  induction t1 as [|e t1 IH]; simpl; [reflexivity|].
  destruct e; simpl; rewrite IH; reflexivity.
Qed.

(** The body of the record loop for the record in hand (lines 107-128),
    reached once the metadata checks have passed. *)
Definition fetchAndCompare (certPEM : string) (certX509 : x509Certificate)
    (certRecord : CertRecord) (rest : list CertRecord)
    : M event (option SSLManageUploadResult) :=
  emit (CallQueryCert (newQueryCertRequest certRecord)) ;;
  queryCertResp <-
    try_wrap "failed to execute sdk request 'ao.QueryCert'"
      (QueryCert env (newQueryCertRequest certRecord)) ;;
  if contentDiffers certPEM queryCertResp then
    scanRecords certPEM certX509 rest
  else
    emit (LogInfo "ssl certificate already exists") ;;
    obj <- deref (query_ReturnObj queryCertResp) ;;
    result <- deref (Result obj) ;;
    ret (Some {| CertId := Sprintf_d (Id result); CertName := Name result |}).

Lemma scanRecords_cons (certPEM : string) (certX509 : x509Certificate)
    (certRecord : CertRecord) (rest : list CertRecord) :
  scanRecords certPEM certX509 (certRecord :: rest) =
    if sameMetadata certX509 certRecord
    then fetchAndCompare certPEM certX509 certRecord rest
    else scanRecords certPEM certX509 rest.
Proof.
  unfold sameMetadata, fetchAndCompare. cbn [scanRecords].
  destruct (EqualFold _ _); [|reflexivity].
  destruct (slices_Equal _ _); [|reflexivity].
  destruct (Time_Equal (NotBefore certX509) _); [|reflexivity].
  destruct (Time_Equal (NotAfter certX509) _); reflexivity.
Qed.

(** A record that is passed over adds at most its detail query to the
    trace and leaves the outcome to the rest of the page. *)
Lemma scanRecords_passedOver (certPEM : string) (certX509 : x509Certificate)
    (certRecord : CertRecord) (rest : list CertRecord) :
  passedOver certPEM certX509 certRecord = true ->
  scanRecords certPEM certX509 (certRecord :: rest) =
    ((if sameMetadata certX509 certRecord
      then [CallQueryCert (newQueryCertRequest certRecord)] else [])
     ++ trace (scanRecords certPEM certX509 rest),
     outcome (scanRecords certPEM certX509 rest))%list.
Proof.
  unfold passedOver. rewrite scanRecords_cons.
  destruct (sameMetadata certX509 certRecord).
  - unfold fetchAndCompare.
    destruct (QueryCert env (newQueryCertRequest certRecord)) as [e|resp];
      [discriminate|].
    intros Hdiff. simpl. rewrite Hdiff.
    destruct (scanRecords certPEM certX509 rest); reflexivity.
  - intros _. destruct (scanRecords certPEM certX509 rest); reflexivity.
Qed.

(** A matching record ends the scan with the detail record's id and name. *)
Lemma scanRecords_matching (certPEM : string) (certX509 : x509Certificate)
    (certRecord : CertRecord) (rest : list CertRecord) (result : CertDetail) :
  matching certPEM certX509 certRecord = Some result ->
  scanRecords certPEM certX509 (certRecord :: rest) =
    ([CallQueryCert (newQueryCertRequest certRecord);
      LogInfo "ssl certificate already exists"],
     Ok (Some {| CertId := Sprintf_d (Id result); CertName := Name result |})).
Proof.
  unfold matching. rewrite scanRecords_cons.
  destruct (sameMetadata certX509 certRecord); [|discriminate].
  unfold fetchAndCompare, detailOf, contentDiffers.
  destruct (QueryCert env (newQueryCertRequest certRecord)) as [e|resp];
    [discriminate|].
  destruct (query_ReturnObj resp) as [obj|] eqn:Hobj; [|discriminate].
  destruct (Result obj) as [d|] eqn:Hd; [|discriminate].
  destruct (EqualCertificatesFromPEM certPEM (Certs d)) eqn:Heq; [|discriminate].
  intros H; injection H as <-.
  cbn [bind emit try_wrap ret app negb]. rewrite Hobj.
  cbn [bind deref ret app]. rewrite Hd, Heq. reflexivity.
Qed.

(** Same metadata and a detail answer without a detail record: the content
    check is skipped, and building the result dereferences nil. *)
Lemma scanRecords_nil_detail (certPEM : string) (certX509 : x509Certificate)
    (certRecord : CertRecord) (rest : list CertRecord)
    (queryCertResp : QueryCertResponse) :
  sameMetadata certX509 certRecord = true ->
  QueryCert env (newQueryCertRequest certRecord) = inr queryCertResp ->
  detailOf queryCertResp = None ->
  contentDiffers certPEM queryCertResp = false /\
  scanRecords certPEM certX509 (certRecord :: rest) =
    ([CallQueryCert (newQueryCertRequest certRecord);
      LogInfo "ssl certificate already exists"], Panic).
Proof.
  intros Hmeta Hq Hnil. rewrite scanRecords_cons, Hmeta.
  unfold fetchAndCompare, detailOf, contentDiffers in *. rewrite Hq.
  destruct (query_ReturnObj queryCertResp) as [obj|] eqn:Hobj.
  - rewrite Hnil. split; [reflexivity|].
    cbn [bind emit try_wrap ret app]. rewrite Hobj.
    cbn [bind deref ret app]. rewrite Hnil. reflexivity.
  - split; [reflexivity|].
    cbn [bind emit try_wrap ret app]. rewrite Hobj. reflexivity.
Qed.

(** The scan of a page makes no list and no create call; its queries are
    the only SDK calls. *)
Lemma scanRecords_quiet (certPEM : string) (certX509 : x509Certificate)
    (records : list CertRecord) :
  listCalls (trace (scanRecords certPEM certX509 records)) = [] /\
  createCalls (trace (scanRecords certPEM certX509 records)) = [].
Proof.
  induction records as [|r rest IH]; [split; reflexivity|].
  rewrite scanRecords_cons.
  destruct (sameMetadata certX509 r); [|exact IH].
  unfold fetchAndCompare.
  destruct (QueryCert env (newQueryCertRequest r)) as [e|resp]; simpl;
    [split; reflexivity|].
  destruct (contentDiffers certPEM resp).
  - destruct (scanRecords certPEM certX509 rest) as [t o].
    simpl in *. exact IH.
  - destruct (query_ReturnObj resp) as [obj|]; simpl; [|split; reflexivity].
    destruct (Result obj); simpl; split; reflexivity.
Qed.

(** Records that are all passed over leave the scan where it was. *)
Lemma scanRecords_skip (certPEM : string) (certX509 : x509Certificate)
    (pre rest : list CertRecord) :
  forallb (passedOver certPEM certX509) pre = true ->
  outcome (scanRecords certPEM certX509 (pre ++ rest)) =
    outcome (scanRecords certPEM certX509 rest).
Proof.
  induction pre as [|r pre IH]; intros Hpre; [reflexivity|].
  simpl in Hpre. apply andb_true_iff in Hpre as [Hr Hpre].
  change ((r :: pre) ++ rest)%list with (r :: (pre ++ rest))%list.
  rewrite (scanRecords_passedOver _ _ _ _ Hr). simpl. apply IH, Hpre.
Qed.

Lemma scanRecords_none (certPEM : string) (certX509 : x509Certificate)
    (records : list CertRecord) :
  forallb (passedOver certPEM certX509) records = true ->
  outcome (scanRecords certPEM certX509 records) = Ok None.
Proof.
  intros H. rewrite <- (app_nil_r records).
  rewrite (scanRecords_skip _ _ _ _ H). reflexivity.
Qed.

(** *** Properties of the page loop *)

Lemma pageRequests_S (listCertPage : Z) (n : nat) :
  pageRequests listCertPage (S n) =
    newListCertsRequest listCertPage :: pageRequests (inc32 listCertPage) n.
Proof.
  unfold pageRequests. cbn [seq map]. f_equal.
  rewrite <- seq_shift, map_map. apply map_ext. intros k.
  unfold pageAfter. rewrite Nat.iter_succ_r. reflexivity.
Qed.

(** One iteration of the page loop whose list call succeeds. *)
Lemma listAndScan_iteration (certPEM : string) (certX509 : x509Certificate)
    (fuel i : nat) (listCertPage : Z) (listCertsResp : ListCertsResponse) :
  ctx_Err env i = None ->
  ListCerts env (newListCertsRequest listCertPage) = inr listCertsResp ->
  let scan :=
    match list_ReturnObj listCertsResp with
    | Some obj => scanRecords certPEM certX509 (Results obj)
    | None => ret None
    end in
  let next := listAndScan certPEM certX509 fuel (S i) (inc32 listCertPage) in
  let run := listAndScan certPEM certX509 (S fuel) i listCertPage in
  listCalls (trace run) =
    newListCertsRequest listCertPage ::
    match outcome scan with
    | Ok None => if lastPage listCertsResp then [] else listCalls (trace next)
    | _ => []
    end /\
  outcome run =
    match outcome scan with
    | Ok (Some result) => Ok (Some result)
    | Ok None => if lastPage listCertsResp then Ok None else outcome next
    | Err e => Err e
    | Panic => Panic
    | OutOfFuel => OutOfFuel
    end.
Proof.
  intros Hctx Hlist scan next run.
  assert (Hquiet : listCalls (trace scan) = []).
  { subst scan. destruct (list_ReturnObj listCertsResp);
      [apply scanRecords_quiet | reflexivity]. }
  subst run. cbn [listAndScan]. rewrite Hctx.
  rewrite !trace_bind, !outcome_bind, Hlist.
  cbn [trace outcome fst snd emit try_wrap ret app listCalls].
  rewrite !trace_bind, !outcome_bind. fold scan. fold next.
  rewrite listCalls_app, Hquiet.
  destruct (outcome scan) as [[result|]| | |];
    cbn [trace outcome fst snd ret app listCalls]; try (split; reflexivity).
  destruct (lastPage listCertsResp); split; reflexivity.
Qed.

(** Neither the page loop nor the scans inside it call create. *)
Lemma listAndScan_createCalls (certPEM : string) (certX509 : x509Certificate)
    (fuel : nat) :
  forall (i : nat) (listCertPage : Z),
  createCalls (trace (listAndScan certPEM certX509 fuel i listCertPage)) = [].
Proof.
  induction fuel as [|fuel IH]; intros i listCertPage; [reflexivity|].
  cbn [listAndScan].
  destruct (ctx_Err env i); [reflexivity|].
  rewrite trace_bind. cbn [trace outcome fst snd emit app createCalls].
  rewrite trace_bind, createCalls_app.
  destruct (ListCerts env (newListCertsRequest listCertPage)) as [e|resp];
    [reflexivity|].
  cbn [trace outcome fst snd try_wrap ret app createCalls].
  rewrite trace_bind, createCalls_app.
  assert (Hquiet : createCalls (trace
    match list_ReturnObj resp with
    | Some obj => scanRecords certPEM certX509 (Results obj)
    | None => ret None
    end) = []).
  { destruct (list_ReturnObj resp); [apply scanRecords_quiet | reflexivity]. }
  rewrite Hquiet. cbn [app].
  match goal with |- context [outcome ?m] => destruct (outcome m) as [[r|]| | |] end;
    try reflexivity.
  destruct (lastPage resp); [reflexivity | apply IH].
Qed.

(** The context stays open and the pages are full and without a match, for
    the [n] iterations from [i] on. *)
Definition pagesOn (certPEM : string) (certX509 : x509Certificate)
    (i : nat) (listCertPage : Z) (n : nat) : Prop :=
  forall k, (k < n)%nat ->
    ctx_Err env (i + k) = None /\
    fullPageWithoutMatch certPEM certX509 (pageAfter listCertPage k) = true.

Lemma listAndScan_rounds (certPEM : string) (certX509 : x509Certificate)
    (n : nat) :
  forall (i : nat) (listCertPage : Z) (fuel : nat),
  pagesOn certPEM certX509 i listCertPage n ->
  let run := listAndScan certPEM certX509 (n + fuel) i listCertPage in
  let rest :=
    listAndScan certPEM certX509 fuel (i + n) (pageAfter listCertPage n) in
  listCalls (trace run) =
    (pageRequests listCertPage n ++ listCalls (trace rest))%list /\
  outcome run = outcome rest.
Proof.
  induction n as [|n IH]; intros i listCertPage fuel Hon.
  - cbn. rewrite Nat.add_0_r. split; reflexivity.
  - destruct (Hon 0%nat ltac:(lia)) as [Hctx Hfull].
    rewrite Nat.add_0_r in Hctx. cbn [pageAfter Nat.iter nat_rect] in Hfull.
    unfold fullPageWithoutMatch in Hfull.
    destruct (ListCerts env (newListCertsRequest listCertPage))
      as [e|resp] eqn:Hlist; [discriminate|].
    destruct (list_ReturnObj resp) as [obj|] eqn:Hobj; [|discriminate].
    apply andb_true_iff in Hfull as [Hlast Hnone].
    apply negb_true_iff in Hlast.
    assert (Hon' : pagesOn certPEM certX509 (S i) (inc32 listCertPage) n).
    { intros k Hk. replace (S i + k)%nat with (i + S k)%nat by lia.
      unfold pageAfter. rewrite <- Nat.iter_succ_r. apply Hon. lia. }
    specialize (IH (S i) (inc32 listCertPage) fuel Hon'). cbv zeta in IH.
    replace (S i + n)%nat with (i + S n)%nat in IH by lia.
    unfold pageAfter in IH. rewrite <- Nat.iter_succ_r in IH.
    destruct IH as [IHc IHo].
    cbv zeta. change (S n + fuel)%nat with (S (n + fuel)).
    destruct (listAndScan_iteration certPEM certX509 (n + fuel) i listCertPage
                resp Hctx Hlist) as [Hc Ho].
    rewrite Hobj, (scanRecords_none _ _ _ Hnone), Hlast in Hc, Ho.
    rewrite Hc, Ho, IHc, IHo, pageRequests_S. split; reflexivity.
Qed.

Lemma pageRequests_snoc (listCertPage : Z) (n : nat) :
  pageRequests listCertPage (S n) =
    (pageRequests listCertPage n
     ++ [newListCertsRequest (pageAfter listCertPage n)])%list.
Proof.
  unfold pageRequests. rewrite seq_S, map_app. reflexivity.
Qed.

(** The page loop's run when the first [n] pages are full and without a
    match and the context stays open: it reaches page [n] with fuel to
    spare. *)
Lemma listAndScan_reaches (certPEM : string) (certX509 : x509Certificate)
    (n fuel : nat) :
  pagesOn certPEM certX509 0 1 n ->
  (n < fuel)%nat ->
  exists fuel',
    let run := listAndScan certPEM certX509 fuel 0%nat 1 in
    let last := listAndScan certPEM certX509 (S fuel') n (pageAfter 1 n) in
    listCalls (trace run) = (pageRequests 1 n ++ listCalls (trace last))%list /\
    outcome run = outcome last.
Proof.
  intros Hon Hlt. exists (fuel - S n)%nat.
  pose proof (listAndScan_rounds certPEM certX509 n 0%nat 1 (S (fuel - S n)) Hon)
    as Hrounds.
  replace (n + S (fuel - S n))%nat with fuel in Hrounds by lia.
  exact Hrounds.
Qed.

(** The calls of [Upload] around the page loop: the list calls are the
    loop's, and create is called only after the loop has ended without a
    match. *)
Lemma Upload_calls (fuel : nat) (certPEM privkeyPEM : string)
    (certX509 : x509Certificate) :
  ParseCertificateFromPEM certPEM = inr certX509 ->
  let loop := listAndScan certPEM certX509 fuel 0%nat 1 in
  let run := Upload fuel certPEM privkeyPEM in
  let createCertReq :=
    newCreateCertRequest (newCertName (now_UnixMilli env)) certPEM privkeyPEM in
  listCalls (trace run) = listCalls (trace loop) /\
  createCalls (trace run) =
    match outcome loop with
    | Ok None => [createCertReq]
    | _ => []
    end /\
  outcome run =
    match outcome loop with
    | Ok (Some result) => Ok result
    | Ok None =>
        match CreateCert env createCertReq with
        | inl e => Err (ErrWrap "failed to execute sdk request 'ao.CreateCert'" e)
        | inr createCertResp =>
            match create_ReturnObj createCertResp with
            | Some obj =>
                Ok {| CertId := Sprintf_d (create_Id obj);
                      CertName := newCertName (now_UnixMilli env) |}
            | None => Panic
            end
        end
    | Err e => Err e
    | Panic => Panic
    | OutOfFuel => OutOfFuel
    end.
Proof.
  intros Hparse loop run createCertReq.
  pose proof (listAndScan_createCalls certPEM certX509 fuel 0%nat 1) as Hnc.
  fold loop in Hnc.
  subst run. unfold Upload. rewrite Hparse.
  rewrite ?trace_bind, ?outcome_bind.
  cbn [try trace outcome fst snd ret app].
  rewrite ?trace_bind, ?outcome_bind. fold loop.
  rewrite listCalls_app, createCalls_app, Hnc.
  destruct (outcome loop) as [[result|]| | |];
    cbn [trace outcome fst snd ret app listCalls createCalls];
    rewrite ?app_nil_r; try (repeat split; reflexivity).
  fold createCertReq.
  rewrite ?trace_bind, ?outcome_bind.
  cbn [trace outcome fst snd emit ret app listCalls createCalls].
  rewrite ?trace_bind, ?outcome_bind.
  destruct (CreateCert env createCertReq) as [e|resp];
    cbn [trace outcome fst snd try_wrap fail ret app listCalls createCalls];
    rewrite ?app_nil_r; try (repeat split; reflexivity).
  rewrite ?trace_bind, ?outcome_bind.
  destruct (create_ReturnObj resp);
    cbn [trace outcome fst snd deref panic ret app listCalls createCalls];
    rewrite ?app_nil_r; repeat split; reflexivity.
Qed.

(** The outcome of the iteration that finds its verdict in the middle of a
    page: the records before are passed over, and the scan of the rest of
    the page ends with [verdict], which is not "no match". *)
Lemma listAndScan_verdict (certPEM : string) (certX509 : x509Certificate)
    (fuel i : nat) (listCertPage : Z) (listCertsResp : ListCertsResponse)
    (obj : ListCertsReturnObj) (pre rest : list CertRecord) :
  ctx_Err env i = None ->
  ListCerts env (newListCertsRequest listCertPage) = inr listCertsResp ->
  list_ReturnObj listCertsResp = Some obj ->
  Results obj = (pre ++ rest)%list ->
  forallb (passedOver certPEM certX509) pre = true ->
  outcome (scanRecords certPEM certX509 rest) <> Ok None ->
  let run := listAndScan certPEM certX509 (S fuel) i listCertPage in
  listCalls (trace run) = [newListCertsRequest listCertPage] /\
  outcome run =
    match outcome (scanRecords certPEM certX509 rest) with
    | Ok found => Ok found
    | Err e => Err e
    | Panic => Panic
    | OutOfFuel => OutOfFuel
    end.
Proof.
  intros Hctx Hlist Hobj Hres Hpre Hverdict run.
  destruct (listAndScan_iteration certPEM certX509 fuel i listCertPage
              listCertsResp Hctx Hlist) as [Hc Ho].
  fold run in Hc, Ho.
  rewrite Hobj, Hres, (scanRecords_skip _ _ _ _ Hpre) in Hc, Ho.
  destruct (outcome (scanRecords certPEM certX509 rest)) as [[r|]| | |];
    try (split; assumption).
  contradiction Hverdict; reflexivity.
Qed.

(** A run of [Upload] that finds a matching record: [n] full pages without
    a match, then the page holding the first match. *)
Lemma ao_Upload_returns_existing (fuel n : nat) (certPEM privkeyPEM : string)
    (certX509 : x509Certificate) (listCertsResp : ListCertsResponse)
    (obj : ListCertsReturnObj) (pre post : list CertRecord)
    (certRecord : CertRecord) (result : CertDetail) :
  ParseCertificateFromPEM certPEM = inr certX509 ->
  pagesOn certPEM certX509 0 1 n ->
  ctx_Err env n = None ->
  ListCerts env (newListCertsRequest (pageAfter 1 n)) = inr listCertsResp ->
  list_ReturnObj listCertsResp = Some obj ->
  Results obj = (pre ++ certRecord :: post)%list ->
  forallb (passedOver certPEM certX509) pre = true ->
  matching certPEM certX509 certRecord = Some result ->
  (n < fuel)%nat ->
  let run := Upload fuel certPEM privkeyPEM in
  outcome run =
    Ok {| CertId := Sprintf_d (Id result); CertName := Name result |} /\
  createCalls (trace run) = [] /\
  listCalls (trace run) = pageRequests 1 (S n).
Proof.
  intros Hparse Hon Hctx Hlist Hobj Hres Hpre Hmatch Hlt run.
  destruct (Upload_calls fuel certPEM privkeyPEM certX509 Hparse)
    as (Hl & Hc & Ho).
  fold run in Hl, Hc, Ho.
  destruct (listAndScan_reaches certPEM certX509 n fuel Hon Hlt)
    as (fuel' & Hrl & Hro).
  rewrite Hro in Hc, Ho. rewrite Hrl in Hl.
  pose proof (scanRecords_matching certPEM certX509 certRecord post result Hmatch)
    as Hscan.
  destruct (listAndScan_verdict certPEM certX509 fuel' n (pageAfter 1 n)
              listCertsResp obj pre (certRecord :: post)
              Hctx Hlist Hobj Hres Hpre) as [Hvl Hvo].
  { rewrite Hscan. discriminate. }
  rewrite Hscan in Hvo. cbn [outcome snd] in Hvo.
  rewrite Hvo in Hc, Ho. rewrite Hvl in Hl.
  rewrite pageRequests_snoc. repeat split; assumption.
Qed.

(** A run of [Upload] whose enumeration is exhausted without a match. *)
Lemma ao_Upload_creates_when_exhausted (fuel n : nat) (certPEM privkeyPEM : string)
    (certX509 : x509Certificate) :
  ParseCertificateFromPEM certPEM = inr certX509 ->
  pagesOn certPEM certX509 0 1 n ->
  ctx_Err env n = None ->
  lastPageWithoutMatch certPEM certX509 (pageAfter 1 n) = true ->
  (n < fuel)%nat ->
  let run := Upload fuel certPEM privkeyPEM in
  let certName := newCertName (now_UnixMilli env) in
  let createCertReq := newCreateCertRequest certName certPEM privkeyPEM in
  createCalls (trace run) = [createCertReq] /\
  listCalls (trace run) = pageRequests 1 (S n) /\
  (forall e, CreateCert env createCertReq = inl e ->
     outcome run = Err (ErrWrap "failed to execute sdk request 'ao.CreateCert'" e)) /\
  (forall createCertResp created,
     CreateCert env createCertReq = inr createCertResp ->
     create_ReturnObj createCertResp = Some created ->
     outcome run =
       Ok {| CertId := Sprintf_d (create_Id created); CertName := certName |}).
Proof.
  intros Hparse Hon Hctx Hlast Hlt run certName createCertReq.
  destruct (Upload_calls fuel certPEM privkeyPEM certX509 Hparse)
    as (Hl & Hc & Ho).
  fold run in Hl, Hc, Ho. fold certName in Hc, Ho. fold createCertReq in Hc, Ho.
  destruct (listAndScan_reaches certPEM certX509 n fuel Hon Hlt)
    as (fuel' & Hrl & Hro).
  rewrite Hro in Hc, Ho. rewrite Hrl in Hl.
  unfold lastPageWithoutMatch in Hlast.
  destruct (ListCerts env (newListCertsRequest (pageAfter 1 n)))
    as [e|resp] eqn:Hlist; [discriminate|].
  apply andb_true_iff in Hlast as [Hshort Hnone].
  destruct (listAndScan_iteration certPEM certX509 fuel' n (pageAfter 1 n)
              resp Hctx Hlist) as [Hil Hio].
  assert (Hscan : outcome
    match list_ReturnObj resp with
    | Some obj => scanRecords certPEM certX509 (Results obj)
    | None => ret None
    end = Ok None).
  { destruct (list_ReturnObj resp); [apply scanRecords_none, Hnone | reflexivity]. }
  rewrite Hscan, Hshort in Hil, Hio.
  rewrite Hio in Hc, Ho. rewrite Hil in Hl.
  rewrite pageRequests_snoc.
  split; [exact Hc|]. split; [exact Hl|]. split.
  - intros e He. rewrite He in Ho. exact Ho.
  - intros r created Hr Hcreated. rewrite Hr, Hcreated in Ho. exact Ho.
Qed.

Lemma sameMetadata_true (certX509 : x509Certificate) (certRecord : CertRecord) :
  sameMetadata certX509 certRecord = true <->
  EqualFold (Subject_CommonName certX509) (CN certRecord) = true /\
  DNSNames certX509 = SANs certRecord /\
  NotBefore certX509 = time_Unix (IssueTime certRecord) /\
  NotAfter certX509 = time_Unix (ExpiresTime certRecord).
Proof.
  assert (Htime : forall t u, Time_Equal t u = true <-> t = u).
  { intros [ts tn] [us un]. unfold Time_Equal. simpl.
    rewrite andb_true_iff, !Z.eqb_eq.
    split; [intros [-> ->]; reflexivity | intros H; injection H; auto]. }
  unfold sameMetadata.
  rewrite !andb_true_iff, slices_Equal_true, !Htime. tauto.
Qed.

(** C4: the record loop compares the common name with [EqualFold], then
    the SAN lists element by element in order, then notBefore and notAfter
    against the record's Unix seconds; a record failing any of these is
    left at once, its detail never queried; a record passing all of them
    has its detail queried, and the detail's content compared; a
    certificate whose SAN list differs from the record's, in an entry or
    in order, is always left. *)
Theorem metadata_prefilter_short_circuits (certPEM : string)
    (certX509 : x509Certificate) (certRecord : CertRecord)
    (rest : list CertRecord) :
  let run := scanRecords certPEM certX509 (certRecord :: rest) in
  let next := scanRecords certPEM certX509 rest in
  let queryCertReq := newQueryCertRequest certRecord in
  (EqualFold (Subject_CommonName certX509) (CN certRecord) = false -> run = next) /\
  (DNSNames certX509 <> SANs certRecord -> run = next) /\
  (NotBefore certX509 <> time_Unix (IssueTime certRecord) -> run = next) /\
  (NotAfter certX509 <> time_Unix (ExpiresTime certRecord) -> run = next) /\
  (sameMetadata certX509 certRecord = false -> run = next) /\
  (sameMetadata certX509 certRecord = true ->
     (exists t, trace run = CallQueryCert queryCertReq :: t) /\
     (forall e, QueryCert env queryCertReq = inl e ->
        run = ([CallQueryCert queryCertReq],
               Err (ErrWrap "failed to execute sdk request 'ao.QueryCert'" e))) /\
     (forall queryCertResp result,
        QueryCert env queryCertReq = inr queryCertResp ->
        detailOf queryCertResp = Some result ->
        if EqualCertificatesFromPEM certPEM (Certs result)
        then run = ([CallQueryCert queryCertReq;
                     LogInfo "ssl certificate already exists"],
                    Ok (Some {| CertId := Sprintf_d (Id result);
                                CertName := Name result |}))
        else run = (CallQueryCert queryCertReq :: trace next, outcome next))).
Proof.
  intros run next queryCertReq.
  assert (Hleft : sameMetadata certX509 certRecord = false -> run = next).
  { intros H. subst run. rewrite scanRecords_cons, H. reflexivity. }
  assert (Hnot : ~ (EqualFold (Subject_CommonName certX509) (CN certRecord) = true /\
                    DNSNames certX509 = SANs certRecord /\
                    NotBefore certX509 = time_Unix (IssueTime certRecord) /\
                    NotAfter certX509 = time_Unix (ExpiresTime certRecord)) ->
                 run = next).
  { intros H. apply Hleft. apply not_true_is_false.
    rewrite sameMetadata_true. exact H. }
  split; [intros H; apply Hnot; rewrite H; intros [H' _]; discriminate|].
  split; [intros H; apply Hnot; intros (_ & H' & _); exact (H H')|].
  split; [intros H; apply Hnot; intros (_ & _ & H' & _); exact (H H')|].
  split; [intros H; apply Hnot; intros (_ & _ & _ & H'); exact (H H')|].
  split; [exact Hleft|].
  intros Hmeta.
  assert (Hrun : run = fetchAndCompare certPEM certX509 certRecord rest).
  { subst run. rewrite scanRecords_cons, Hmeta. reflexivity. }
  split; [|split].
  - rewrite Hrun. unfold fetchAndCompare. rewrite trace_bind.
    eexists. reflexivity.
  - intros e He. rewrite Hrun. unfold fetchAndCompare.
    fold queryCertReq. rewrite He. reflexivity.
  - intros queryCertResp result Hq Hdetail.
    destruct (EqualCertificatesFromPEM certPEM (Certs result)) eqn:Heq.
    + subst run. apply scanRecords_matching.
      unfold matching. rewrite Hmeta. fold queryCertReq.
      rewrite Hq, Hdetail, Heq. reflexivity.
    + subst run.
      rewrite (scanRecords_passedOver certPEM certX509 certRecord rest).
      * rewrite Hmeta. reflexivity.
      * unfold passedOver. rewrite Hmeta. fold queryCertReq. rewrite Hq.
        unfold contentDiffers. unfold detailOf in Hdetail.
        destruct (query_ReturnObj queryCertResp) as [o|]; [|discriminate].
        rewrite Hdetail, Heq. reflexivity.
Qed.

(** C9: a detail answer that succeeds without a detail record (nil
    [ReturnObj] or nil [Result]) on a record whose metadata matches skips
    the content comparison; the record is taken for a match, and building
    the result dereferences the nil detail: [Upload] panics, where a
    present detail with equal content would have been returned. *)
Theorem nil_detail_is_dereferenced (fuel n : nat) (certPEM privkeyPEM : string)
    (certX509 : x509Certificate) (listCertsResp : ListCertsResponse)
    (obj : ListCertsReturnObj) (pre post : list CertRecord)
    (certRecord : CertRecord) (queryCertResp : QueryCertResponse) :
  ParseCertificateFromPEM certPEM = inr certX509 ->
  pagesOn certPEM certX509 0 1 n ->
  ctx_Err env n = None ->
  ListCerts env (newListCertsRequest (pageAfter 1 n)) = inr listCertsResp ->
  list_ReturnObj listCertsResp = Some obj ->
  Results obj = (pre ++ certRecord :: post)%list ->
  forallb (passedOver certPEM certX509) pre = true ->
  sameMetadata certX509 certRecord = true ->
  QueryCert env (newQueryCertRequest certRecord) = inr queryCertResp ->
  (query_ReturnObj queryCertResp = None \/
   exists o, query_ReturnObj queryCertResp = Some o /\ Result o = None) ->
  (n < fuel)%nat ->
  contentDiffers certPEM queryCertResp = false /\
  scanRecords certPEM certX509 (certRecord :: post) =
    ([CallQueryCert (newQueryCertRequest certRecord);
      LogInfo "ssl certificate already exists"], Panic) /\
  outcome (Upload fuel certPEM privkeyPEM) = Panic /\
  createCalls (trace (Upload fuel certPEM privkeyPEM)) = [].
Proof.
  intros Hparse Hon Hctx Hlist Hobj Hres Hpre Hmeta Hq Hnil Hlt.
  assert (Hdetail : detailOf queryCertResp = None).
  { unfold detailOf. destruct Hnil as [-> | (o & -> & Ho)]; [reflexivity|exact Ho]. }
  destruct (scanRecords_nil_detail certPEM certX509 certRecord post
              queryCertResp Hmeta Hq Hdetail) as [Hdiff Hscan].
  split; [exact Hdiff|]. split; [exact Hscan|].
  destruct (Upload_calls fuel certPEM privkeyPEM certX509 Hparse)
    as (_ & Hc & Ho).
  destruct (listAndScan_reaches certPEM certX509 n fuel Hon Hlt)
    as (fuel' & _ & Hro).
  rewrite Hro in Hc, Ho.
  destruct (listAndScan_verdict certPEM certX509 fuel' n (pageAfter 1 n)
              listCertsResp obj pre (certRecord :: post)
              Hctx Hlist Hobj Hres Hpre) as [_ Hvo].
  { rewrite Hscan. discriminate. }
  rewrite Hscan in Hvo. cbn [outcome snd] in Hvo.
  rewrite Hvo in Hc, Ho. split; assumption.
Qed.

(** *** Further properties of the AO upload *)

(** The detail queries of a run, in order. *)
Definition queryCalls (t : list event) : list QueryCertRequest :=
  flat_map (fun e => match e with
                     | CallQueryCert req => [req]
                     | _ => []
                     end) t.

(** A detail query is for a listed record whose metadata is that of the
    certificate in hand; any other event passes. *)
Definition queriesListedMatch (certX509 : x509Certificate) (e : event) : Prop :=
  match e with
  | CallQueryCert req =>
      exists listCertsReq listCertsResp obj certRecord,
        ListCerts env listCertsReq = inr listCertsResp /\
        list_ReturnObj listCertsResp = Some obj /\
        In certRecord (Results obj) /\
        sameMetadata certX509 certRecord = true /\
        req = newQueryCertRequest certRecord
  | _ => True
  end.

Lemma scanRecords_queries (certPEM : string) (certX509 : x509Certificate)
    (listCertsReq : ListCertsRequest) (listCertsResp : ListCertsResponse)
    (obj : ListCertsReturnObj) (records : list CertRecord) :
  ListCerts env listCertsReq = inr listCertsResp ->
  list_ReturnObj listCertsResp = Some obj ->
  incl records (Results obj) ->
  Forall (queriesListedMatch certX509)
    (trace (scanRecords certPEM certX509 records)).
Proof.
  intros Hlist Hobj. induction records as [|r rest IH]; intros Hincl;
    [constructor|].
  assert (Hrest : Forall (queriesListedMatch certX509)
                    (trace (scanRecords certPEM certX509 rest))).
  { apply IH. intros x Hx. apply Hincl. right. exact Hx. }
  rewrite scanRecords_cons.
  destruct (sameMetadata certX509 r) eqn:Hmeta; [|exact Hrest].
  unfold fetchAndCompare. apply trace_bind_Forall.
  - constructor; [|constructor]. simpl.
    exists listCertsReq, listCertsResp, obj, r.
    repeat split; try assumption. apply Hincl. left. reflexivity.
  - intros _ _. apply trace_bind_Forall.
    + destruct (QueryCert env (newQueryCertRequest r)); constructor.
    + intros resp _. destruct (contentDiffers certPEM resp); [exact Hrest|].
      apply trace_bind_Forall; [repeat constructor|]. intros _ _.
      apply trace_bind_Forall; [destruct (query_ReturnObj resp); constructor|].
      intros o _.
      apply trace_bind_Forall; [destruct (Result o); constructor|].
      intros d _. constructor.
Qed.

Lemma listAndScan_queries (certPEM : string) (certX509 : x509Certificate)
    (fuel : nat) :
  forall (i : nat) (listCertPage : Z),
  Forall (queriesListedMatch certX509)
    (trace (listAndScan certPEM certX509 fuel i listCertPage)).
Proof.
  induction fuel as [|fuel IH]; intros i listCertPage; [constructor|].
  cbn [listAndScan]. destruct (ctx_Err env i); [constructor|].
  apply trace_bind_Forall; [repeat constructor|]. intros _ _.
  destruct (ListCerts env (newListCertsRequest listCertPage))
    as [e|resp] eqn:Hlist.
  - apply trace_bind_Forall; [constructor|]. intros a Ha. discriminate Ha.
  - apply trace_bind_Forall; [constructor|]. intros a Ha.
    cbn [try_wrap ret outcome snd] in Ha. injection Ha as <-.
    apply trace_bind_Forall.
    + destruct (list_ReturnObj resp) as [obj|] eqn:Hobj; [|constructor].
      apply (scanRecords_queries certPEM certX509 _ resp obj _ Hlist Hobj).
      apply incl_refl.
    + intros [found|] _; [constructor|].
      destruct (lastPage resp); [constructor | apply IH].
Qed.

(** X16: a detail is never fetched for a record that was not listed with
    the metadata of the certificate in hand: every QueryCert call of a run
    of [Upload] carries the id of a record of some list answer whose
    common name, SAN list and validity times are those of the
    certificate. *)
Theorem detail_queried_only_for_metadata_match (fuel : nat)
    (certPEM privkeyPEM : string) (req : QueryCertRequest) :
  In req (queryCalls (trace (Upload fuel certPEM privkeyPEM))) ->
  exists certX509 listCertsReq listCertsResp obj certRecord,
    ParseCertificateFromPEM certPEM = inr certX509 /\
    ListCerts env listCertsReq = inr listCertsResp /\
    list_ReturnObj listCertsResp = Some obj /\
    In certRecord (Results obj) /\
    sameMetadata certX509 certRecord = true /\
    query_Id req = Some (rec_Id certRecord).
Proof.
  intros Hin. unfold queryCalls in Hin. apply in_flat_map in Hin.
  destruct Hin as (e & He & Hreq).
  destruct e; try contradiction Hreq. destruct Hreq as [<-|[]].
  unfold Upload in He.
  destruct (ParseCertificateFromPEM certPEM) as [err|certX509] eqn:Hparse;
    [contradiction He|].
  assert (Hall : Forall (queriesListedMatch certX509)
            (trace (found <- listAndScan certPEM certX509 fuel 0%nat 1 ;;
                    match found with
                    | Some result => ret result
                    | None =>
                        let certName := newCertName (now_UnixMilli env) in
                        let createCertReq :=
                          newCreateCertRequest certName certPEM privkeyPEM in
                        emit (CallCreateCert createCertReq) ;;
                        createCertResp <-
                          try_wrap "failed to execute sdk request 'ao.CreateCert'"
                            (CreateCert env createCertReq) ;;
                        obj <- deref (create_ReturnObj createCertResp) ;;
                        ret {| CertId := Sprintf_d (create_Id obj);
                               CertName := certName |}
                    end))).
  { apply trace_bind_Forall; [apply listAndScan_queries|].
    intros [found|] _; [constructor|]. cbv zeta.
    apply trace_bind_Forall; [repeat constructor|]. intros _ _.
    apply trace_bind_Forall; [destruct (CreateCert env _); constructor|].
    intros resp _.
    apply trace_bind_Forall; [destruct (create_ReturnObj resp); constructor|].
    intros o _. constructor. }
  cbn [try bind ret app] in He.
  match type of He with
  | In _ (trace (let (t', r) := ?m in _)) =>
      assert (Htr : In (CallQueryCert req0) (trace m))
        by (destruct m; exact He)
  end.
  rewrite Forall_forall in Hall. specialize (Hall _ Htr). simpl in Hall.
  destruct Hall as (lreq & lresp & obj & r & H1 & H2 & H3 & H4 & H5).
  exists certX509, lreq, lresp, obj, r. subst req0.
  repeat split; assumption.
Qed.

Lemma scanRecords_query_error (certPEM : string) (certX509 : x509Certificate)
    (certRecord : CertRecord) (rest : list CertRecord) (err : error) :
  sameMetadata certX509 certRecord = true ->
  QueryCert env (newQueryCertRequest certRecord) = inl err ->
  scanRecords certPEM certX509 (certRecord :: rest) =
    ([CallQueryCert (newQueryCertRequest certRecord)],
     Err (ErrWrap "failed to execute sdk request 'ao.QueryCert'" err)).
Proof.
  intros Hmeta Hq. rewrite scanRecords_cons, Hmeta.
  unfold fetchAndCompare. rewrite Hq. reflexivity.
Qed.

(** X17: every run of [Upload] calls create at most once, and only after
    the enumeration has ended without a match; the one request then
    carries the certificate, the key and the name
    [certimate-<Unix milliseconds>]. *)
Theorem create_only_after_exhausted_enumeration (fuel : nat)
    (certPEM privkeyPEM : string) :
  let run := Upload fuel certPEM privkeyPEM in
  createCalls (trace run) = [] \/
  exists certX509,
    ParseCertificateFromPEM certPEM = inr certX509 /\
    outcome (listAndScan certPEM certX509 fuel 0%nat 1) = Ok None /\
    createCalls (trace run) =
      [ {| create_Name :=
             Some ("certimate-" ++ Sprintf_d (now_UnixMilli env))%string;
           create_Certs := Some certPEM;
           create_Key := Some privkeyPEM |} ].
Proof.
  intros run.
  destruct (ParseCertificateFromPEM certPEM) as [err|certX509] eqn:Hparse.
  - left. subst run. unfold Upload. rewrite Hparse. reflexivity.
  - destruct (Upload_calls fuel certPEM privkeyPEM certX509 Hparse)
      as (_ & Hc & _).
    fold run in Hc.
    destruct (outcome (listAndScan certPEM certX509 fuel 0%nat 1))
      as [[found|]| | |] eqn:Hloop; try (left; exact Hc).
    right. exists certX509. split; [reflexivity|]. split; [exact Hloop|].
    exact Hc.
Qed.

(** X18: a detail query that fails aborts the upload: the error is
    returned, wrapped with the request's name, although a later record may
    match; nothing is created. *)
Theorem query_error_aborts_upload (fuel n : nat) (certPEM privkeyPEM : string)
    (certX509 : x509Certificate) (listCertsResp : ListCertsResponse)
    (obj : ListCertsReturnObj) (pre post : list CertRecord)
    (certRecord : CertRecord) (err : error) :
  ParseCertificateFromPEM certPEM = inr certX509 ->
  pagesOn certPEM certX509 0 1 n ->
  ctx_Err env n = None ->
  ListCerts env (newListCertsRequest (pageAfter 1 n)) = inr listCertsResp ->
  list_ReturnObj listCertsResp = Some obj ->
  Results obj = (pre ++ certRecord :: post)%list ->
  forallb (passedOver certPEM certX509) pre = true ->
  sameMetadata certX509 certRecord = true ->
  QueryCert env (newQueryCertRequest certRecord) = inl err ->
  (n < fuel)%nat ->
  let run := Upload fuel certPEM privkeyPEM in
  outcome run = Err (ErrWrap "failed to execute sdk request 'ao.QueryCert'" err) /\
  createCalls (trace run) = [].
Proof.
  intros Hparse Hon Hctx Hlist Hobj Hres Hpre Hmeta Hq Hlt run.
  destruct (Upload_calls fuel certPEM privkeyPEM certX509 Hparse)
    as (_ & Hc & Ho).
  fold run in Hc, Ho.
  destruct (listAndScan_reaches certPEM certX509 n fuel Hon Hlt)
    as (fuel' & _ & Hro).
  rewrite Hro in Hc, Ho.
  pose proof (scanRecords_query_error certPEM certX509 certRecord post err
                Hmeta Hq) as Hscan.
  destruct (listAndScan_verdict certPEM certX509 fuel' n (pageAfter 1 n)
              listCertsResp obj pre (certRecord :: post)
              Hctx Hlist Hobj Hres Hpre) as [_ Hvo].
  { rewrite Hscan. discriminate. }
  rewrite Hscan in Hvo. cbn [outcome snd] in Hvo.
  rewrite Hvo in Hc, Ho. split; assumption.
Qed.

(** X19: a list call that fails aborts the upload with the error wrapped;
    the failed page is the last one asked for, and nothing is created. *)
Theorem list_error_aborts_upload (fuel n : nat) (certPEM privkeyPEM : string)
    (certX509 : x509Certificate) (err : error) :
  ParseCertificateFromPEM certPEM = inr certX509 ->
  pagesOn certPEM certX509 0 1 n ->
  ctx_Err env n = None ->
  ListCerts env (newListCertsRequest (pageAfter 1 n)) = inl err ->
  (n < fuel)%nat ->
  let run := Upload fuel certPEM privkeyPEM in
  outcome run = Err (ErrWrap "failed to execute sdk request 'ao.ListCerts'" err) /\
  listCalls (trace run) = pageRequests 1 (S n) /\
  createCalls (trace run) = [].
Proof.
  intros Hparse Hon Hctx Hlist Hlt run.
  destruct (Upload_calls fuel certPEM privkeyPEM certX509 Hparse)
    as (Hl & Hc & Ho).
  fold run in Hl, Hc, Ho.
  destruct (listAndScan_reaches certPEM certX509 n fuel Hon Hlt)
    as (fuel' & Hrl & Hro).
  rewrite Hro in Hc, Ho. rewrite Hrl in Hl.
  assert (Hlast : listAndScan certPEM certX509 (S fuel') n (pageAfter 1 n) =
            ([CallListCerts (newListCertsRequest (pageAfter 1 n))],
             Err (ErrWrap "failed to execute sdk request 'ao.ListCerts'" err))).
  { cbn [listAndScan]. rewrite Hctx, Hlist. reflexivity. }
  rewrite Hlast in Hl, Hc, Ho. cbn [trace outcome fst snd listCalls] in Hl, Hc, Ho.
  rewrite pageRequests_snoc. repeat split; assumption.
Qed.

(** X20: cancellation is seen before each page.  When the context is done
    at the iteration that follows [n] full pages without a match, [Upload]
    returns the context's error, having listed exactly those [n] pages,
    and creates nothing. *)
Theorem cancellation_stops_the_enumeration (fuel n : nat)
    (certPEM privkeyPEM : string) (certX509 : x509Certificate) (err : error) :
  ParseCertificateFromPEM certPEM = inr certX509 ->
  pagesOn certPEM certX509 0 1 n ->
  ctx_Err env n = Some err ->
  (n < fuel)%nat ->
  let run := Upload fuel certPEM privkeyPEM in
  outcome run = Err err /\
  listCalls (trace run) = pageRequests 1 n /\
  createCalls (trace run) = [].
Proof.
  intros Hparse Hon Hctx Hlt run.
  destruct (Upload_calls fuel certPEM privkeyPEM certX509 Hparse)
    as (Hl & Hc & Ho).
  fold run in Hl, Hc, Ho.
  destruct (listAndScan_reaches certPEM certX509 n fuel Hon Hlt)
    as (fuel' & Hrl & Hro).
  rewrite Hro in Hc, Ho. rewrite Hrl in Hl.
  cbn [listAndScan] in Hl, Hc, Ho. rewrite Hctx in Hl, Hc, Ho.
  cbn [trace outcome fst snd fail listCalls] in Hl, Hc, Ho.
  rewrite app_nil_r in Hl. repeat split; assumption.
Qed.



(** X22: a create answer that succeeds without its body is dereferenced:
    the create call has been sent, and [Upload] panics instead of
    returning the new certificate. *)
Theorem create_answer_without_body_panics (fuel n : nat)
    (certPEM privkeyPEM : string) (certX509 : x509Certificate)
    (createCertResp : CreateCertResponse) :
  ParseCertificateFromPEM certPEM = inr certX509 ->
  pagesOn certPEM certX509 0 1 n ->
  ctx_Err env n = None ->
  lastPageWithoutMatch certPEM certX509 (pageAfter 1 n) = true ->
  (n < fuel)%nat ->
  let run := Upload fuel certPEM privkeyPEM in
  let createCertReq :=
    newCreateCertRequest (newCertName (now_UnixMilli env)) certPEM privkeyPEM in
  CreateCert env createCertReq = inr createCertResp ->
  create_ReturnObj createCertResp = None ->
  outcome run = Panic /\ createCalls (trace run) = [createCertReq].
Proof.
  intros Hparse Hon Hctx Hlast Hlt run createCertReq Hcreate Hnil.
  destruct (Upload_calls fuel certPEM privkeyPEM certX509 Hparse)
    as (_ & Hc & Ho).
  fold run in Hc, Ho. fold createCertReq in Hc, Ho.
  destruct (listAndScan_reaches certPEM certX509 n fuel Hon Hlt)
    as (fuel' & _ & Hro).
  rewrite Hro in Hc, Ho.
  unfold lastPageWithoutMatch in Hlast.
  destruct (ListCerts env (newListCertsRequest (pageAfter 1 n)))
    as [e|resp] eqn:Hlist; [discriminate|].
  apply andb_true_iff in Hlast as [Hshort Hnone].
  destruct (listAndScan_iteration certPEM certX509 fuel' n (pageAfter 1 n)
              resp Hctx Hlist) as [_ Hio].
  assert (Hscan : outcome
    match list_ReturnObj resp with
    | Some obj => scanRecords certPEM certX509 (Results obj)
    | None => ret None
    end = Ok None).
  { destruct (list_ReturnObj resp); [apply scanRecords_none, Hnone | reflexivity]. }
  rewrite Hscan, Hshort in Hio. rewrite Hio in Hc, Ho.
  rewrite Hcreate, Hnil in Ho. split; assumption.
Qed.

End Provider.

(** *** A concrete store

    The certificate in hand is for [example.com] and [www.example.com].
    The store's first page is full of records for another name; its second
    page is given.  Detail queries answer by record id: 7 has the content
    in hand, 9 has no detail record, any other id has other content. *)

Definition asciiLower (c : ascii) : ascii :=
  let n := nat_of_ascii c in
  if ((65 <=? n) && (n <=? 90))%nat then ascii_of_nat (n + 32) else c.

(** A stand-in for [strings.EqualFold] on ASCII strings. *)
Fixpoint asciiEqualFold (s t : string) : bool :=
  match s, t with
  | EmptyString, EmptyString => true
  | String a s', String b t' =>
      Ascii.eqb (asciiLower a) (asciiLower b) && asciiEqualFold s' t'
  | _, _ => false
  end.

Definition example_cert : x509Certificate :=
  {| Subject_CommonName := "Example.com";
     DNSNames := ["example.com"; "www.example.com"];
     NotBefore := time_Unix 1700000000;
     NotAfter := time_Unix 1707776000 |}.

Definition example_parse (certPEM : string) : error + x509Certificate :=
  inr example_cert.

Definition same_record (id : Z) : CertRecord :=
  {| rec_Id := id; CN := "example.com";
     SANs := ["example.com"; "www.example.com"];
     IssueTime := 1700000000; ExpiresTime := 1707776000 |}.

Definition swapped_record (id : Z) : CertRecord :=
  {| rec_Id := id; CN := "example.com";
     SANs := ["www.example.com"; "example.com"];
     IssueTime := 1700000000; ExpiresTime := 1707776000 |}.

Definition other_record (id : Z) : CertRecord :=
  {| rec_Id := id; CN := "other.org"; SANs := ["other.org"];
     IssueTime := 1600000000; ExpiresTime := 1607776000 |}.

Definition example_detail (id : Z) : QueryCertResponse :=
  if id =? 9 then {| query_ReturnObj := Some {| Result := None |} |}
  else {| query_ReturnObj := Some {| Result := Some
           {| Id := id; Name := "stored-cert";
              Certs := if id =? 7 then "CERT" else "ANOTHER CERT" |} |} |}.

Definition example_env (page2 : list CertRecord) : Env :=
  {| ctx_Err := fun _ => None;
     ListCerts := fun req =>
       match Page req with
       | Some 1 => inr {| list_ReturnObj :=
                            Some {| Results := repeat (other_record 1) 1000 |} |}
       | Some 2 => inr {| list_ReturnObj := Some {| Results := page2 |} |}
       | _ => inr {| list_ReturnObj := None |}
       end;
     QueryCert := fun req =>
       match query_Id req with
       | Some id => inr (example_detail id)
       | None => inl (ErrNew "missing id")
       end;
     CreateCert := fun _ =>
       inr {| create_ReturnObj := Some {| create_Id := 900 |} |};
     now_UnixMilli := 1700000000123 |}.

(** The first page of the example store is full and without a match. *)
Ltac first_page_full :=
  intros k Hk; assert (k = 0%nat) by lia; subst k;
  split; [reflexivity | vm_compute; reflexivity].

Lemma metadata_prefilter_short_circuits_witness :
  scanRecords asciiEqualFold String.eqb (example_env []) "CERT" example_cert
    [swapped_record 7; same_record 7]
  = scanRecords asciiEqualFold String.eqb (example_env []) "CERT" example_cert
      [same_record 7].
Proof.
  apply (proj1 (proj2 (metadata_prefilter_short_circuits asciiEqualFold
           String.eqb (example_env []) "CERT" example_cert (swapped_record 7)
           [same_record 7]))).
  simpl. discriminate.
Defined.

Lemma nil_detail_is_dereferenced_witness :
  outcome (Upload asciiEqualFold example_parse String.eqb
             (example_env [same_record 8; same_record 9; same_record 7])
             2 "CERT" "KEY") = Panic.
Proof.
  apply (nil_detail_is_dereferenced asciiEqualFold example_parse String.eqb
           (example_env [same_record 8; same_record 9; same_record 7])
           2 1 "CERT" "KEY" example_cert
           {| list_ReturnObj := Some {| Results :=
                [same_record 8; same_record 9; same_record 7] |} |}
           {| Results := [same_record 8; same_record 9; same_record 7] |}
           [same_record 8] [same_record 7] (same_record 9) (example_detail 9));
    try reflexivity.
  - first_page_full.
  - right. eexists. split; reflexivity.
  - lia.
Defined.

(** *** More concrete stores

    The same store with its behaviour given piece by piece: the state of
    the context per iteration, the answer for the second page, the answers
    to the detail queries and the body of the create answer. *)

Definition scripted_env (ctx : nat -> option error)
    (page2 : error + list CertRecord)
    (detail : Z -> error + QueryCertResponse)
    (created : option CreateCertReturnObj) : Env :=
  {| ctx_Err := ctx;
     ListCerts := fun req =>
       match Page req with
       | Some 1 => inr {| list_ReturnObj :=
                            Some {| Results := repeat (other_record 1) 1000 |} |}
       | Some 2 =>
           match page2 with
           | inl e => inl e
           | inr records =>
               inr {| list_ReturnObj := Some {| Results := records |} |}
           end
       | _ => inr {| list_ReturnObj := None |}
       end;
     QueryCert := fun req =>
       match query_Id req with
       | Some id => detail id
       | None => inl (ErrNew "missing id")
       end;
     CreateCert := fun _ => inr {| create_ReturnObj := created |};
     now_UnixMilli := 1700000000123 |}.

Definition never_done (i : nat) : option error := None.

Definition done_from (n : nat) (i : nat) : option error :=
  if (n <=? i)%nat then Some ErrDeadlineExceeded else None.

Definition detail_unavailable (id : Z) : error + QueryCertResponse :=
  inl (ErrNew "service unavailable").

Lemma detail_queried_only_for_metadata_match_witness :
  exists certX509 listCertsReq listCertsResp obj certRecord,
    example_parse "CERT" = inr certX509 /\
    ListCerts (example_env [same_record 8; same_record 7]) listCertsReq
      = inr listCertsResp /\
    list_ReturnObj listCertsResp = Some obj /\
    In certRecord (Results obj) /\
    sameMetadata asciiEqualFold certX509 certRecord = true /\
    Some 8 = Some (rec_Id certRecord).
Proof.
  apply (detail_queried_only_for_metadata_match asciiEqualFold example_parse
           String.eqb (example_env [same_record 8; same_record 7])
           2 "CERT" "KEY" {| query_Id := Some 8 |}).
  vm_compute. left. reflexivity.
Defined.

Lemma query_error_aborts_upload_witness :
  outcome (Upload asciiEqualFold example_parse String.eqb
             (scripted_env never_done (inr [same_record 8; same_record 7])
                detail_unavailable None)
             2 "CERT" "KEY")
  = Err (ErrWrap "failed to execute sdk request 'ao.QueryCert'"
           (ErrNew "service unavailable")).
Proof.
  apply (query_error_aborts_upload asciiEqualFold example_parse String.eqb
           (scripted_env never_done (inr [same_record 8; same_record 7])
              detail_unavailable None)
           2 1 "CERT" "KEY" example_cert
           {| list_ReturnObj := Some {| Results :=
                [same_record 8; same_record 7] |} |}
           {| Results := [same_record 8; same_record 7] |}
           [] [same_record 7] (same_record 8) (ErrNew "service unavailable"));
    try reflexivity.
  - first_page_full.
  - lia.
Defined.

Lemma list_error_aborts_upload_witness :
  outcome (Upload asciiEqualFold example_parse String.eqb
             (scripted_env never_done (inl (ErrNew "gateway timeout"))
                detail_unavailable None)
             2 "CERT" "KEY")
  = Err (ErrWrap "failed to execute sdk request 'ao.ListCerts'"
           (ErrNew "gateway timeout")).
Proof.
  apply (list_error_aborts_upload asciiEqualFold example_parse String.eqb
           (scripted_env never_done (inl (ErrNew "gateway timeout"))
              detail_unavailable None)
           2 1 "CERT" "KEY" example_cert (ErrNew "gateway timeout"));
    try reflexivity.
  - first_page_full.
  - lia.
Defined.

Lemma cancellation_stops_the_enumeration_witness :
  let run :=
    Upload asciiEqualFold example_parse String.eqb
      (scripted_env (done_from 1) (inr []) detail_unavailable None)
      2 "CERT" "KEY" in
  outcome run = Err ErrDeadlineExceeded /\
  listCalls (trace run) = [newListCertsRequest 1].
Proof.
  destruct (cancellation_stops_the_enumeration asciiEqualFold example_parse
              String.eqb
              (scripted_env (done_from 1) (inr []) detail_unavailable None)
              2 1 "CERT" "KEY" example_cert ErrDeadlineExceeded eq_refl)
    as (Ho & Hl & _).
  - first_page_full.
  - reflexivity.
  - lia.
  - split; assumption.
Defined.


Lemma create_answer_without_body_panics_witness :
  outcome (Upload asciiEqualFold example_parse String.eqb
             (scripted_env never_done (inr []) detail_unavailable None)
             2 "CERT" "KEY") = Panic.
Proof.
  apply (create_answer_without_body_panics asciiEqualFold example_parse
           String.eqb
           (scripted_env never_done (inr []) detail_unavailable None)
           2 1 "CERT" "KEY" example_cert {| create_ReturnObj := None |});
    try reflexivity.
  - first_page_full.
  - lia.
Defined.

End CtccCloudAO.

(** ** The ctyun ELB provider ([package ctcccloudelb]) *)

Module CtccCloudELB.

Record SSLManagerProviderConfig : Type := {
  AccessKeyId : string;
  SecretAccessKey : string;
  RegionId : string
}.

(** The SDK's structs, the fields the provider touches; pointer fields are
    [option]s.  The records of the list answer are taken to be non-nil. *)
Record ListCertificatesRequest : Type := {
  list_RegionID : option string
}.

Record CertificateRecord : Type := {
  ID : string;
  Name : string;
  Certificate : string
}.

Record ListCertificatesResponse : Type := {
  list_ReturnObj : list CertificateRecord
}.

Record CreateCertificateRequest : Type := {
  ClientToken : option string;
  create_RegionID : option string;
  create_Name : option string;
  Description : option string;
  Type_ : option string;
  create_Certificate : option string;
  PrivateKey : option string
}.

Record CreateCertificateReturnObj : Type := {
  create_ID : string
}.

Record CreateCertificateResponse : Type := {
  create_ReturnObj : option CreateCertificateReturnObj
}.

Inductive event : Type :=
| CallListCertificates (req : ListCertificatesRequest)
| CallCreateCertificate (req : CreateCertificateRequest)
| LogInfo (msg : string).

(** What the provider talks to; [now_UnixMilli] is
    [time.Now().UnixMilli()] and [newUUID] is [uuid.New().String()], each
    at the one place it is read. *)
Record Env : Type := {
  ListCertificates : ListCertificatesRequest -> error + ListCertificatesResponse;
  CreateCertificate : CreateCertificateRequest -> error + CreateCertificateResponse;
  now_UnixMilli : Z;
  newUUID : string
}.

Section Provider.

(** [xcert.EqualCertificatesFromPEM] *)
Variable EqualCertificatesFromPEM : string -> string -> bool.

Variable env : Env.
Variable config : SSLManagerProviderConfig.

Definition generateClientToken : string := newUUID env.

(** lines 73-75 *)
Definition newListCertificatesRequest : ListCertificatesRequest :=
  {| list_RegionID := Some (RegionId config) |}.

(** lines 81-90: the loop over the listed records; [Some] is the [return]
    of line 85. *)
Fixpoint findExisting (certPEM : string) (records : list CertificateRecord)
    : option SSLManageUploadResult :=
  match records with
  | [] => None
  | certRecord :: rest =>
      if EqualCertificatesFromPEM certPEM (Certificate certRecord)
      then Some {| CertId := ID certRecord; CertName := Name certRecord |}
      else findExisting certPEM rest
  end.

(** lines 98-106 *)
Definition newCreateCertificateRequest (certName certPEM privkeyPEM : string)
    : CreateCertificateRequest :=
  {| ClientToken := Some generateClientToken;
     create_RegionID := Some (RegionId config);
     create_Name := Some certName;
     Description := Some "upload from certimate";
     Type_ := Some "Server";
     create_Certificate := Some certPEM;
     PrivateKey := Some privkeyPEM |}.

Definition Upload (certPEM privkeyPEM : string) : M event SSLManageUploadResult :=
  let listCertificatesReq := newListCertificatesRequest in
  emit (CallListCertificates listCertificatesReq) ;;
  listCertificatesResp <-
    try_wrap "failed to execute sdk request 'elb.ListCertificates'"
      (ListCertificates env listCertificatesReq) ;;
  match findExisting certPEM (list_ReturnObj listCertificatesResp) with
  | Some result =>
      emit (LogInfo "ssl certificate already exists") ;;
      ret result
  | None =>
      let certName := newCertName (now_UnixMilli env) in
      let createCertificateReq :=
        newCreateCertificateRequest certName certPEM privkeyPEM in
      emit (CallCreateCertificate createCertificateReq) ;;
      createCertificateResp <-
        try_wrap "failed to execute sdk request 'elb.CreateCertificate'"
          (CreateCertificate env createCertificateReq) ;;
      obj <- deref (create_ReturnObj createCertificateResp) ;;
      ret {| CertId := create_ID obj; CertName := certName |}
  end.

(** The calls of a run, by kind and in order. *)
Fixpoint listCalls (t : list event) : list ListCertificatesRequest :=
  match t with
  | [] => []
  | CallListCertificates req :: t' => req :: listCalls t'
  | _ :: t' => listCalls t'
  end.

Fixpoint createCalls (t : list event) : list CreateCertificateRequest :=
  match t with
  | [] => []
  | CallCreateCertificate req :: t' => req :: createCalls t'
  | _ :: t' => createCalls t'
  end.

(** A record with other content than the certificate in hand. *)
Definition differs (certPEM : string) (certRecord : CertificateRecord) : bool :=
  negb (EqualCertificatesFromPEM certPEM (Certificate certRecord)).

(** *** Properties of the ELB upload *)

Lemma findExisting_first (certPEM : string)
    (pre post : list CertificateRecord) (certRecord : CertificateRecord) :
  forallb (differs certPEM) pre = true ->
  EqualCertificatesFromPEM certPEM (Certificate certRecord) = true ->
  findExisting certPEM (pre ++ certRecord :: post) =
    Some {| CertId := ID certRecord; CertName := Name certRecord |}.
Proof.
  intros Hpre Heq. induction pre as [|r pre IH]; simpl.
  - rewrite Heq. reflexivity.
  - simpl in Hpre. apply andb_true_iff in Hpre as [Hr Hpre].
    unfold differs in Hr. apply negb_true_iff in Hr. rewrite Hr.
    apply IH, Hpre.
Qed.

Lemma findExisting_none (certPEM : string) (records : list CertificateRecord) :
  forallb (differs certPEM) records = true ->
  findExisting certPEM records = None.
Proof.
  induction records as [|r records IH]; intros H; [reflexivity|].
  simpl in H. apply andb_true_iff in H as [Hr H].
  unfold differs in Hr. apply negb_true_iff in Hr.
  simpl. rewrite Hr. apply IH, H.
Qed.

(** A run of [Upload] whose list answer holds a matching record. *)
Lemma elb_Upload_returns_existing (certPEM privkeyPEM : string)
    (listCertificatesResp : ListCertificatesResponse)
    (pre post : list CertificateRecord) (certRecord : CertificateRecord) :
  ListCertificates env newListCertificatesRequest = inr listCertificatesResp ->
  list_ReturnObj listCertificatesResp = (pre ++ certRecord :: post)%list ->
  forallb (differs certPEM) pre = true ->
  EqualCertificatesFromPEM certPEM (Certificate certRecord) = true ->
  let run := Upload certPEM privkeyPEM in
  outcome run = Ok {| CertId := ID certRecord; CertName := Name certRecord |} /\
  createCalls (trace run) = [] /\
  listCalls (trace run) = [newListCertificatesRequest].
Proof.
  intros Hlist Hrecords Hpre Heq run.
  subst run. unfold Upload. rewrite Hlist. cbn [try_wrap].
  rewrite !trace_bind, !outcome_bind.
  cbn [trace outcome fst snd emit ret app].
  rewrite Hrecords, (findExisting_first _ _ _ _ Hpre Heq).
  repeat split; reflexivity.
Qed.

(** A run of [Upload] whose list answer holds no matching record. *)
Lemma elb_Upload_creates_when_exhausted (certPEM privkeyPEM : string)
    (listCertificatesResp : ListCertificatesResponse) :
  ListCertificates env newListCertificatesRequest = inr listCertificatesResp ->
  forallb (differs certPEM) (list_ReturnObj listCertificatesResp) = true ->
  let run := Upload certPEM privkeyPEM in
  let certName := newCertName (now_UnixMilli env) in
  let createCertificateReq :=
    newCreateCertificateRequest certName certPEM privkeyPEM in
  createCalls (trace run) = [createCertificateReq] /\
  listCalls (trace run) = [newListCertificatesRequest] /\
  (forall e, CreateCertificate env createCertificateReq = inl e ->
     outcome run =
       Err (ErrWrap "failed to execute sdk request 'elb.CreateCertificate'" e)) /\
  (forall createCertificateResp created,
     CreateCertificate env createCertificateReq = inr createCertificateResp ->
     create_ReturnObj createCertificateResp = Some created ->
     outcome run = Ok {| CertId := create_ID created; CertName := certName |}).
Proof.
  intros Hlist Hnone run certName createCertificateReq.
  subst run. unfold Upload. rewrite Hlist. cbn [try_wrap].
  rewrite !trace_bind, !outcome_bind.
  cbn [trace outcome fst snd emit ret app].
  rewrite (findExisting_none _ _ Hnone).
  fold certName. fold createCertificateReq.
  rewrite ?trace_bind, ?outcome_bind.
  cbn [trace outcome fst snd emit ret app listCalls createCalls].
  destruct (CreateCertificate env createCertificateReq) as [e|resp];
    cbn [trace outcome fst snd try_wrap fail ret app listCalls createCalls].
  - split; [reflexivity|]. split; [reflexivity|]. split.
    + intros e' He. injection He as <-. reflexivity.
    + intros r c Hr. discriminate Hr.
  - destruct (create_ReturnObj resp) as [obj|] eqn:Hobj;
      cbn [trace outcome fst snd deref panic ret app listCalls createCalls];
      (split; [reflexivity|]; split; [reflexivity|]; split;
       [intros e He; discriminate He|]);
      intros r c Hr Hc; injection Hr as <-; rewrite Hobj in Hc;
      [injection Hc as <-; reflexivity | discriminate Hc].
Qed.

(** *** Further properties of the ELB upload *)

Lemma findExisting_None_differs (certPEM : string)
    (records : list CertificateRecord) :
  findExisting certPEM records = None ->
  forallb (differs certPEM) records = true.
Proof.
  induction records as [|r records IH]; intros H; [reflexivity|].
  simpl in H. unfold differs at 1. simpl.
  destruct (EqualCertificatesFromPEM certPEM (Certificate r)); [discriminate|].
  apply IH, H.
Qed.

(** X23: every run of [Upload] lists the certificates exactly once and
    calls create at most once; it calls create only when the list call
    succeeded and no listed record has the content of the certificate in
    hand, and the request then carries the certificate, the key, the name
    [certimate-<Unix milliseconds>], the configured region and the
    description and type the provider always sends. *)
Theorem create_only_when_nothing_listed_matches (certPEM privkeyPEM : string) :
  let run := Upload certPEM privkeyPEM in
  listCalls (trace run) = [ {| list_RegionID := Some (RegionId config) |} ] /\
  (createCalls (trace run) = [] \/
   exists listCertificatesResp,
     ListCertificates env newListCertificatesRequest = inr listCertificatesResp /\
     forallb (differs certPEM) (list_ReturnObj listCertificatesResp) = true /\
     createCalls (trace run) =
       [ {| ClientToken := Some (newUUID env);
            create_RegionID := Some (RegionId config);
            create_Name :=
              Some ("certimate-" ++ Sprintf_d (now_UnixMilli env))%string;
            Description := Some "upload from certimate";
            Type_ := Some "Server";
            create_Certificate := Some certPEM;
            PrivateKey := Some privkeyPEM |} ]).
Proof.
  intros run. subst run. unfold Upload.
  destruct (ListCertificates env newListCertificatesRequest) as [e|resp] eqn:Hlist;
    [split; [reflexivity | left; reflexivity]|].
  cbn [try_wrap bind emit ret app].
  destruct (findExisting certPEM (list_ReturnObj resp)) as [found|] eqn:Hfind;
    [split; [reflexivity | left; reflexivity]|].
  apply findExisting_None_differs in Hfind.
  cbn [bind emit ret app].
  destruct (CreateCertificate env _) as [e|r];
    [|cbn [try_wrap bind ret app]; destruct (create_ReturnObj r)];
    (split; [reflexivity|]; right; exists resp;
     split; [reflexivity|]; split; [exact Hfind | reflexivity]).
Qed.

End Provider.

(** *** A concrete store *)

Definition example_config : SSLManagerProviderConfig :=
  {| AccessKeyId := "AK"; SecretAccessKey := "SK"; RegionId := "region-1" |}.

Definition example_env (records : list CertificateRecord) : Env :=
  {| ListCertificates := fun _ => inr {| list_ReturnObj := records |};
     CreateCertificate := fun _ =>
       inr {| create_ReturnObj := Some {| create_ID := "cert-new" |} |};
     now_UnixMilli := 1700000000123;
     newUUID := "123e4567-e89b-12d3-a456-426614174000" |}.

Definition example_records : list CertificateRecord :=
  [ {| ID := "cert-a"; Name := "first"; Certificate := "ANOTHER CERT" |};
    {| ID := "cert-b"; Name := "second"; Certificate := "CERT" |};
    {| ID := "cert-c"; Name := "third"; Certificate := "CERT" |} ].

(** X24: uploading the same certificate again finds the one created the
    first time.  After an upload that found nothing and created a
    certificate, an upload of the same material against a store that lists
    the created record (the returned id, the synthesized name and the
    uploaded content, behind records of other content) returns the same id
    and name and creates nothing, provided the certificate compares equal
    to itself. *)
Theorem second_upload_finds_the_created_certificate
    (EqualCertificatesFromPEM : string -> string -> bool)
    (env env' : Env) (config : SSLManagerProviderConfig)
    (certPEM privkeyPEM : string)
    (listCertificatesResp listCertificatesResp' : ListCertificatesResponse)
    (createCertificateResp : CreateCertificateResponse)
    (created : CreateCertificateReturnObj)
    (pre post : list CertificateRecord) :
  EqualCertificatesFromPEM certPEM certPEM = true ->
  ListCertificates env (newListCertificatesRequest config) = inr listCertificatesResp ->
  forallb (differs EqualCertificatesFromPEM certPEM)
    (list_ReturnObj listCertificatesResp) = true ->
  CreateCertificate env
    (newCreateCertificateRequest env config (newCertName (now_UnixMilli env))
       certPEM privkeyPEM) = inr createCertificateResp ->
  create_ReturnObj createCertificateResp = Some created ->
  ListCertificates env' (newListCertificatesRequest config) = inr listCertificatesResp' ->
  list_ReturnObj listCertificatesResp' =
    (pre ++ {| ID := create_ID created;
               Name := newCertName (now_UnixMilli env);
               Certificate := certPEM |} :: post)%list ->
  forallb (differs EqualCertificatesFromPEM certPEM) pre = true ->
  let first := Upload EqualCertificatesFromPEM env config certPEM privkeyPEM in
  let second := Upload EqualCertificatesFromPEM env' config certPEM privkeyPEM in
  outcome first =
    Ok {| CertId := create_ID created;
          CertName := newCertName (now_UnixMilli env) |} /\
  outcome second = outcome first /\
  List.length (createCalls (trace first)) = 1%nat /\
  createCalls (trace second) = [].
Proof.
  intros Hrefl Hlist Hnone Hcreate Hcreated Hlist' Hrecords Hpre first second.
  destruct (elb_Upload_creates_when_exhausted EqualCertificatesFromPEM env config
              certPEM privkeyPEM listCertificatesResp Hlist Hnone)
    as (Hc & _ & _ & Hok).
  destruct (elb_Upload_returns_existing EqualCertificatesFromPEM env' config
              certPEM privkeyPEM listCertificatesResp' pre post
              {| ID := create_ID created;
                 Name := newCertName (now_UnixMilli env);
                 Certificate := certPEM |} Hlist' Hrecords Hpre Hrefl)
    as (Ho' & Hc' & _).
  fold first in Hc, Hok. fold second in Ho', Hc'.
  pose proof (Hok createCertificateResp created Hcreate Hcreated) as Ho.
  split; [exact Ho|]. split; [rewrite Ho; exact Ho'|].
  split; [rewrite Hc; reflexivity | exact Hc'].
Qed.

Lemma create_only_when_nothing_listed_matches_witness :
  createCalls (trace (Upload String.eqb (example_env example_records)
                        example_config "CERT" "KEY")) = [] \/
  exists listCertificatesResp,
    ListCertificates (example_env example_records)
      (newListCertificatesRequest example_config) = inr listCertificatesResp /\
    forallb (differs String.eqb "CERT") (list_ReturnObj listCertificatesResp)
      = true /\
    createCalls (trace (Upload String.eqb (example_env example_records)
                          example_config "CERT" "KEY")) =
      [ {| ClientToken := Some "123e4567-e89b-12d3-a456-426614174000";
           create_RegionID := Some "region-1";
           create_Name := Some "certimate-1700000000123";
           Description := Some "upload from certimate";
           Type_ := Some "Server";
           create_Certificate := Some "CERT";
           PrivateKey := Some "KEY" |} ].
Proof.
  apply (create_only_when_nothing_listed_matches String.eqb
           (example_env example_records) example_config "CERT" "KEY").
Defined.

Lemma second_upload_finds_the_created_certificate_witness :
  outcome (Upload String.eqb
             (example_env [ {| ID := "cert-new"; Name := "certimate-1700000000123";
                               Certificate := "CERT" |} ])
             example_config "CERT" "KEY")
  = outcome (Upload String.eqb (example_env []) example_config "CERT" "KEY").
Proof.
  apply (second_upload_finds_the_created_certificate String.eqb
           (example_env [])
           (example_env [ {| ID := "cert-new"; Name := "certimate-1700000000123";
                             Certificate := "CERT" |} ])
           example_config "CERT" "KEY"
           {| list_ReturnObj := [] |}
           {| list_ReturnObj :=
                [ {| ID := "cert-new"; Name := "certimate-1700000000123";
                     Certificate := "CERT" |} ] |}
           {| create_ReturnObj := Some {| create_ID := "cert-new" |} |}
           {| create_ID := "cert-new" |} [] []);
    reflexivity.
Defined.

End CtccCloudELB.

(** ** Certificate names *)

From Stdlib Require Import DecimalZ DecimalPos.

Lemma Sprintf_d_inj (a b : Z) : Sprintf_d a = Sprintf_d b -> a = b.
Proof.
  unfold Sprintf_d. intros H.
  assert (Hnn : forall z, Z.to_int z <> Decimal.Pos Decimal.Nil /\
                          Z.to_int z <> Decimal.Neg Decimal.Nil).
  { intros [|q|q]; simpl; split; try discriminate;
      intros Hq; injection Hq as Hq; exact (Unsigned.to_uint_nonnil q Hq). }
  apply (f_equal NilZero.int_of_string) in H.
  rewrite !NilZero.isi in H by apply Hnn.
  injection H as H. apply DecimalZ.to_int_inj, H.
Qed.

(** X25: the synthesized names are as unique as the clock: two names made
    at different Unix milliseconds are different, so two uploads of
    distinct certificates never ask for the same name unless they read the
    same millisecond. *)
Theorem newCertName_distinct (ms1 ms2 : Z) :
  ms1 <> ms2 -> newCertName ms1 <> newCertName ms2.
Proof.
  intros Hne Heq. apply Hne. unfold newCertName in Heq.
  cbn [String.append] in Heq. injection Heq as Heq.
  apply Sprintf_d_inj, Heq.
Qed.

Lemma newCertName_distinct_witness :
  newCertName 1700000000123 <> newCertName 1700000000124.
Proof.
  apply (newCertName_distinct 1700000000123 1700000000124). lia.
Defined.

(** ** The upload-dedup protocol, over both stores *)

(** C3: when the store holds a matching record, [Upload] returns that
    record's id and name and never calls create; the first match in
    enumeration order wins, and no page after the one holding it is
    listed.  For AO the enumeration is [n] full pages without a match and
    then the page with the first match; for ELB it is the one list
    answer. *)
Theorem upload_returns_first_matching_record :
  (forall (EqualFold : string -> string -> bool)
          (ParseCertificateFromPEM : string -> error + x509Certificate)
          (EqualCertificatesFromPEM : string -> string -> bool)
          (env : CtccCloudAO.Env) (fuel n : nat) (certPEM privkeyPEM : string)
          (certX509 : x509Certificate)
          (listCertsResp : CtccCloudAO.ListCertsResponse)
          (obj : CtccCloudAO.ListCertsReturnObj)
          (pre post : list CtccCloudAO.CertRecord)
          (certRecord : CtccCloudAO.CertRecord)
          (result : CtccCloudAO.CertDetail),
     ParseCertificateFromPEM certPEM = inr certX509 ->
     CtccCloudAO.pagesOn EqualFold EqualCertificatesFromPEM env
       certPEM certX509 0 1 n ->
     CtccCloudAO.ctx_Err env n = None ->
     CtccCloudAO.ListCerts env
       (CtccCloudAO.newListCertsRequest (CtccCloudAO.pageAfter 1 n))
       = inr listCertsResp ->
     CtccCloudAO.list_ReturnObj listCertsResp = Some obj ->
     CtccCloudAO.Results obj = (pre ++ certRecord :: post)%list ->
     forallb (CtccCloudAO.passedOver EqualFold EqualCertificatesFromPEM env
                certPEM certX509) pre = true ->
     CtccCloudAO.matching EqualFold EqualCertificatesFromPEM env
       certPEM certX509 certRecord = Some result ->
     (n < fuel)%nat ->
     let run :=
       CtccCloudAO.Upload EqualFold ParseCertificateFromPEM
         EqualCertificatesFromPEM env fuel certPEM privkeyPEM in
     outcome run =
       Ok {| CertId := Sprintf_d (CtccCloudAO.Id result);
             CertName := CtccCloudAO.Name result |} /\
     CtccCloudAO.createCalls (trace run) = [] /\
     CtccCloudAO.listCalls (trace run) = CtccCloudAO.pageRequests 1 (S n))
  /\
  (forall (EqualCertificatesFromPEM : string -> string -> bool)
          (env : CtccCloudELB.Env)
          (config : CtccCloudELB.SSLManagerProviderConfig)
          (certPEM privkeyPEM : string)
          (listCertificatesResp : CtccCloudELB.ListCertificatesResponse)
          (pre post : list CtccCloudELB.CertificateRecord)
          (certRecord : CtccCloudELB.CertificateRecord),
     CtccCloudELB.ListCertificates env
       (CtccCloudELB.newListCertificatesRequest config)
       = inr listCertificatesResp ->
     CtccCloudELB.list_ReturnObj listCertificatesResp
       = (pre ++ certRecord :: post)%list ->
     forallb (CtccCloudELB.differs EqualCertificatesFromPEM certPEM) pre = true ->
     EqualCertificatesFromPEM certPEM (CtccCloudELB.Certificate certRecord)
       = true ->
     let run :=
       CtccCloudELB.Upload EqualCertificatesFromPEM env config
         certPEM privkeyPEM in
     outcome run =
       Ok {| CertId := CtccCloudELB.ID certRecord;
             CertName := CtccCloudELB.Name certRecord |} /\
     CtccCloudELB.createCalls (trace run) = [] /\
     CtccCloudELB.listCalls (trace run)
       = [CtccCloudELB.newListCertificatesRequest config]).
Proof.
  split.
  - intros. apply CtccCloudAO.ao_Upload_returns_existing with
      (listCertsResp := listCertsResp) (obj := obj) (pre := pre) (post := post)
      (certRecord := certRecord) (certX509 := certX509); assumption.
  - intros. apply CtccCloudELB.elb_Upload_returns_existing with
      (listCertificatesResp := listCertificatesResp) (pre := pre) (post := post);
      assumption.
Qed.

(** C7: when the enumeration is exhausted without a match, [Upload] calls
    create exactly once, with the certificate, the key and the fresh name
    [certimate-<Unix milliseconds>]; a create answer that carries the new
    record makes [Upload] return the new id with that name, and a create
    error is returned wrapped. *)
Theorem upload_creates_once_when_no_match :
  (forall (EqualFold : string -> string -> bool)
          (ParseCertificateFromPEM : string -> error + x509Certificate)
          (EqualCertificatesFromPEM : string -> string -> bool)
          (env : CtccCloudAO.Env) (fuel n : nat) (certPEM privkeyPEM : string)
          (certX509 : x509Certificate),
     ParseCertificateFromPEM certPEM = inr certX509 ->
     CtccCloudAO.pagesOn EqualFold EqualCertificatesFromPEM env
       certPEM certX509 0 1 n ->
     CtccCloudAO.ctx_Err env n = None ->
     CtccCloudAO.lastPageWithoutMatch EqualFold EqualCertificatesFromPEM env
       certPEM certX509 (CtccCloudAO.pageAfter 1 n) = true ->
     (n < fuel)%nat ->
     let run :=
       CtccCloudAO.Upload EqualFold ParseCertificateFromPEM
         EqualCertificatesFromPEM env fuel certPEM privkeyPEM in
     let certName :=
       ("certimate-" ++ Sprintf_d (CtccCloudAO.now_UnixMilli env))%string in
     let createCertReq :=
       {| CtccCloudAO.create_Name := Some certName;
          CtccCloudAO.create_Certs := Some certPEM;
          CtccCloudAO.create_Key := Some privkeyPEM |} in
     CtccCloudAO.createCalls (trace run) = [createCertReq] /\
     (forall e, CtccCloudAO.CreateCert env createCertReq = inl e ->
        outcome run =
          Err (ErrWrap "failed to execute sdk request 'ao.CreateCert'" e)) /\
     (forall createCertResp created,
        CtccCloudAO.CreateCert env createCertReq = inr createCertResp ->
        CtccCloudAO.create_ReturnObj createCertResp = Some created ->
        outcome run =
          Ok {| CertId := Sprintf_d (CtccCloudAO.create_Id created);
                CertName := certName |}))
  /\
  (forall (EqualCertificatesFromPEM : string -> string -> bool)
          (env : CtccCloudELB.Env)
          (config : CtccCloudELB.SSLManagerProviderConfig)
          (certPEM privkeyPEM : string)
          (listCertificatesResp : CtccCloudELB.ListCertificatesResponse),
     CtccCloudELB.ListCertificates env
       (CtccCloudELB.newListCertificatesRequest config)
       = inr listCertificatesResp ->
     forallb (CtccCloudELB.differs EqualCertificatesFromPEM certPEM)
       (CtccCloudELB.list_ReturnObj listCertificatesResp) = true ->
     let run :=
       CtccCloudELB.Upload EqualCertificatesFromPEM env config
         certPEM privkeyPEM in
     let certName :=
       ("certimate-" ++ Sprintf_d (CtccCloudELB.now_UnixMilli env))%string in
     exists createCertificateReq,
       CtccCloudELB.createCalls (trace run) = [createCertificateReq] /\
       CtccCloudELB.create_Name createCertificateReq = Some certName /\
       CtccCloudELB.create_Certificate createCertificateReq = Some certPEM /\
       CtccCloudELB.PrivateKey createCertificateReq = Some privkeyPEM /\
       (forall e,
          CtccCloudELB.CreateCertificate env createCertificateReq = inl e ->
          outcome run =
            Err (ErrWrap "failed to execute sdk request 'elb.CreateCertificate'" e)) /\
       (forall createCertificateResp created,
          CtccCloudELB.CreateCertificate env createCertificateReq
            = inr createCertificateResp ->
          CtccCloudELB.create_ReturnObj createCertificateResp = Some created ->
          outcome run =
            Ok {| CertId := CtccCloudELB.create_ID created;
                  CertName := certName |})).
Proof.
  split.
  - intros EqualFold Parse EqualCerts env fuel n certPEM privkeyPEM certX509
      Hparse Hon Hctx Hlast Hlt run certName createCertReq.
    destruct (CtccCloudAO.ao_Upload_creates_when_exhausted EqualFold Parse
                EqualCerts env fuel n certPEM privkeyPEM certX509
                Hparse Hon Hctx Hlast Hlt) as (Hc & _ & He & Hok).
    split; [exact Hc|]. split; [exact He | exact Hok].
  - intros EqualCerts env config certPEM privkeyPEM resp Hlist Hnone
      run certName.
    destruct (CtccCloudELB.elb_Upload_creates_when_exhausted EqualCerts env config
                certPEM privkeyPEM resp Hlist Hnone) as (Hc & _ & He & Hok).
    eexists. split; [exact Hc|].
    split; [reflexivity|]. split; [reflexivity|]. split; [reflexivity|].
    split; [exact He | exact Hok].
Qed.

(** *** Concrete runs of the two uploads *)

Lemma upload_returns_first_matching_record_witness :
  outcome (CtccCloudAO.Upload CtccCloudAO.asciiEqualFold CtccCloudAO.example_parse
             String.eqb
             (CtccCloudAO.example_env
                [CtccCloudAO.same_record 8; CtccCloudAO.same_record 7;
                 CtccCloudAO.same_record 7])
             2 "CERT" "KEY")
    = Ok {| CertId := "7"; CertName := "stored-cert" |} /\
  outcome (CtccCloudELB.Upload String.eqb
             (CtccCloudELB.example_env CtccCloudELB.example_records)
             CtccCloudELB.example_config "CERT" "KEY")
    = Ok {| CertId := "cert-b"; CertName := "second" |}.
Proof.
  split.
  - apply (proj1 upload_returns_first_matching_record
             CtccCloudAO.asciiEqualFold CtccCloudAO.example_parse String.eqb
             (CtccCloudAO.example_env
                [CtccCloudAO.same_record 8; CtccCloudAO.same_record 7;
                 CtccCloudAO.same_record 7])
             2%nat 1%nat "CERT" "KEY" CtccCloudAO.example_cert
             {| CtccCloudAO.list_ReturnObj := Some {| CtccCloudAO.Results :=
                  [CtccCloudAO.same_record 8; CtccCloudAO.same_record 7;
                   CtccCloudAO.same_record 7] |} |}
             {| CtccCloudAO.Results :=
                  [CtccCloudAO.same_record 8; CtccCloudAO.same_record 7;
                   CtccCloudAO.same_record 7] |}
             [CtccCloudAO.same_record 8] [CtccCloudAO.same_record 7]
             (CtccCloudAO.same_record 7)
             {| CtccCloudAO.Id := 7; CtccCloudAO.Name := "stored-cert";
                CtccCloudAO.Certs := "CERT" |});
      try reflexivity.
    + CtccCloudAO.first_page_full.
    + lia.
  - apply (proj2 upload_returns_first_matching_record String.eqb
             (CtccCloudELB.example_env CtccCloudELB.example_records)
             CtccCloudELB.example_config "CERT" "KEY"
             {| CtccCloudELB.list_ReturnObj := CtccCloudELB.example_records |}
             [ {| CtccCloudELB.ID := "cert-a"; CtccCloudELB.Name := "first";
                  CtccCloudELB.Certificate := "ANOTHER CERT" |} ]
             [ {| CtccCloudELB.ID := "cert-c"; CtccCloudELB.Name := "third";
                  CtccCloudELB.Certificate := "CERT" |} ]
             {| CtccCloudELB.ID := "cert-b"; CtccCloudELB.Name := "second";
                CtccCloudELB.Certificate := "CERT" |});
      reflexivity.
Defined.

Lemma upload_creates_once_when_no_match_witness :
  outcome (CtccCloudAO.Upload CtccCloudAO.asciiEqualFold CtccCloudAO.example_parse
             String.eqb
             (CtccCloudAO.example_env [CtccCloudAO.same_record 8])
             2 "CERT" "KEY")
    = Ok {| CertId := "900"; CertName := "certimate-1700000000123" |} /\
  exists createCertificateReq,
    CtccCloudELB.createCalls
      (trace (CtccCloudELB.Upload String.eqb
                (CtccCloudELB.example_env []) CtccCloudELB.example_config
                "CERT" "KEY")) = [createCertificateReq] /\
    CtccCloudELB.create_Name createCertificateReq
      = Some "certimate-1700000000123".
Proof.
  split.
  - destruct (proj1 upload_creates_once_when_no_match
                CtccCloudAO.asciiEqualFold CtccCloudAO.example_parse String.eqb
                (CtccCloudAO.example_env [CtccCloudAO.same_record 8])
                2%nat 1%nat "CERT" "KEY" CtccCloudAO.example_cert
                eq_refl ltac:(CtccCloudAO.first_page_full) eq_refl eq_refl
                ltac:(lia)) as (_ & _ & Hok).
    apply (Hok {| CtccCloudAO.create_ReturnObj :=
                    Some {| CtccCloudAO.create_Id := 900 |} |}
               {| CtccCloudAO.create_Id := 900 |} eq_refl eq_refl).
  - destruct (proj2 upload_creates_once_when_no_match String.eqb
                (CtccCloudELB.example_env []) CtccCloudELB.example_config
                "CERT" "KEY" {| CtccCloudELB.list_ReturnObj := [] |}
                eq_refl eq_refl) as (req & Hc & Hn & _).
    exists req. split; [exact Hc | exact Hn].
Defined.

(** ** Certificates of the domain model ([package domain]) *)

From Stdlib Require HexadecimalString.

Module Domain.

(** [domain.Meta], the fields the repository fills *)
Record Meta : Type := {
  Id : string;
  CreatedAt : Time;
  UpdatedAt : Time
}.

Definition CertificateSourceType : Type := string.
Definition CertificateKeyAlgorithmType : Type := string.

Record Certificate : Type := {
  meta : Meta;
  Source : CertificateSourceType;
  SubjectAltNames : string;
  SerialNumber : string;
  cert_Certificate : string;
  PrivateKey : string;
  IssuerOrg : string;
  IssuerCertificate : string;
  KeyAlgorithm : CertificateKeyAlgorithmType;
  ValidityNotBefore : Time;
  ValidityNotAfter : Time;
  ACMEAcctUrl : string;
  ACMECertUrl : string;
  ACMECertStableUrl : string;
  IsRenewed : bool;
  IsRevoked : bool;
  WorkflowId : string;
  WorkflowRunId : string;
  WorkflowNodeId : string;
  DeletedAt : option Time
}.

Definition CertificateKeyAlgorithmTypeRSA2048 : CertificateKeyAlgorithmType := "RSA2048".
Definition CertificateKeyAlgorithmTypeRSA3072 : CertificateKeyAlgorithmType := "RSA3072".
Definition CertificateKeyAlgorithmTypeRSA4096 : CertificateKeyAlgorithmType := "RSA4096".
Definition CertificateKeyAlgorithmTypeRSA8192 : CertificateKeyAlgorithmType := "RSA8192".
Definition CertificateKeyAlgorithmTypeEC256 : CertificateKeyAlgorithmType := "EC256".
Definition CertificateKeyAlgorithmTypeEC384 : CertificateKeyAlgorithmType := "EC384".
Definition CertificateKeyAlgorithmTypeEC512 : CertificateKeyAlgorithmType := "EC512".

(** *** crypto/x509, as far as [PopulateFromX509] reads it *)

Inductive PublicKeyAlgorithm : Type :=
| UnknownPublicKeyAlgorithm
| RSA
| DSA
| ECDSA
| Ed25519.

(** The dynamic type of [certX509.PublicKey]: an [*rsa.PublicKey] with its
    modulus, an [*ecdsa.PublicKey] with the [BitSize] of its curve
    parameters ([None] when [Curve] or [Curve.Params()] is nil), or
    anything else. *)
Inductive PublicKey : Type :=
| rsa_PublicKey (N : Z)
| ecdsa_PublicKey (BitSize : option Z)
| other_PublicKey.

Record x509_Certificate : Type := {
  x509_DNSNames : list string;
  x509_SerialNumber : Z;
  x509_Issuer_Organization : list string;
  x509_NotBefore : Time;
  x509_NotAfter : Time;
  x509_PublicKeyAlgorithm : PublicKeyAlgorithm;
  x509_PublicKey : PublicKey
}.

(** [strings.Join(elems, sep)] *)
Definition strings_Join (elems : list string) (sep : string) : string :=
  String.concat sep elems.

(** [x.Text(16)] of a [*big.Int]: lower-case digits, a minus sign for a
    negative number. *)
Definition Text16 (x : Z) : string :=
  HexadecimalString.NilZero.string_of_int (Z.to_hex_int x).

(** [strings.ToUpper] on ASCII text, which the output of [Text] is. *)
Definition upper (c : ascii) : ascii :=
  let n := nat_of_ascii c in
  if ((97 <=? n) && (n <=? 122))%nat then ascii_of_nat (n - 32) else c.

Fixpoint strings_ToUpper (s : string) : string :=
  match s with
  | EmptyString => EmptyString
  | String c rest => String (upper c) (strings_ToUpper rest)
  end.

(** [x.BitLen()] of a [*big.Int]: the length of the absolute value in
    bits, 0 for 0. *)
Definition BitLen (x : Z) : Z :=
  if x =? 0 then 0 else Z.log2 (Z.abs x) + 1.

(** The [switch len] of the RSA case. *)
Definition rsaKeyAlgorithm (len : Z) : CertificateKeyAlgorithmType :=
  if len =? 0 then "RSA"
  else if len =? 2048 then CertificateKeyAlgorithmTypeRSA2048
  else if len =? 3072 then CertificateKeyAlgorithmTypeRSA3072
  else if len =? 4096 then CertificateKeyAlgorithmTypeRSA4096
  else if len =? 8192 then CertificateKeyAlgorithmTypeRSA8192
  else "RSA" ++ Sprintf_d len.

(** The [switch len] of the ECDSA case. *)
Definition ecKeyAlgorithm (len : Z) : CertificateKeyAlgorithmType :=
  if len =? 0 then "EC"
  else if len =? 256 then CertificateKeyAlgorithmTypeEC256
  else if len =? 384 then CertificateKeyAlgorithmTypeEC384
  else if len =? 521 then CertificateKeyAlgorithmTypeEC512
  else "EC" ++ Sprintf_d len.

(** The [switch certX509.PublicKeyAlgorithm]. *)
Definition keyAlgorithmOf (certX509 : x509_Certificate)
  : CertificateKeyAlgorithmType :=
  match x509_PublicKeyAlgorithm certX509 with
  | RSA =>
      let len :=
        match x509_PublicKey certX509 with
        | rsa_PublicKey N => BitLen N
        | _ => 0
        end in
      rsaKeyAlgorithm len
  | ECDSA =>
      let len :=
        match x509_PublicKey certX509 with
        | ecdsa_PublicKey (Some BitSize) => BitSize
        | _ => 0
        end in
      ecKeyAlgorithm len
  | Ed25519 => "ED25519"
  | _ => EmptyString
  end.

Definition PopulateFromX509 (c : Certificate) (certX509 : x509_Certificate)
  : Certificate :=
  {| meta := meta c;
     Source := Source c;
     SubjectAltNames := strings_Join (x509_DNSNames certX509) ";";
     SerialNumber := strings_ToUpper (Text16 (x509_SerialNumber certX509));
     cert_Certificate := cert_Certificate c;
     PrivateKey := PrivateKey c;
     IssuerOrg := strings_Join (x509_Issuer_Organization certX509) ";";
     IssuerCertificate := IssuerCertificate c;
     KeyAlgorithm := keyAlgorithmOf certX509;
     ValidityNotBefore := x509_NotBefore certX509;
     ValidityNotAfter := x509_NotAfter certX509;
     ACMEAcctUrl := ACMEAcctUrl c;
     ACMECertUrl := ACMECertUrl c;
     ACMECertStableUrl := ACMECertStableUrl c;
     IsRenewed := IsRenewed c;
     IsRevoked := IsRevoked c;
     WorkflowId := WorkflowId c;
     WorkflowRunId := WorkflowRunId c;
     WorkflowNodeId := WorkflowNodeId c;
     DeletedAt := DeletedAt c |}.

Section PEM.

(** [xcert.ExtractCertificatesFromPEM] (its second result) and
    [xcert.ParseCertificateFromPEM] (its first result, a pointer that may
    be nil); the errors of both are dropped by the caller. *)
Variable ExtractCertificatesFromPEM_issuer : string -> string.
Variable ParseCertificateFromPEM : string -> option x509_Certificate.

Definition PopulateFromPEM (c : Certificate) (certPEM privkeyPEM : string)
  : Certificate :=
  let c :=
    {| meta := meta c;
       Source := Source c;
       SubjectAltNames := SubjectAltNames c;
       SerialNumber := SerialNumber c;
       cert_Certificate := certPEM;
       PrivateKey := privkeyPEM;
       IssuerOrg := IssuerOrg c;
       IssuerCertificate := ExtractCertificatesFromPEM_issuer certPEM;
       KeyAlgorithm := KeyAlgorithm c;
       ValidityNotBefore := ValidityNotBefore c;
       ValidityNotAfter := ValidityNotAfter c;
       ACMEAcctUrl := ACMEAcctUrl c;
       ACMECertUrl := ACMECertUrl c;
       ACMECertStableUrl := ACMECertStableUrl c;
       IsRenewed := IsRenewed c;
       IsRevoked := IsRevoked c;
       WorkflowId := WorkflowId c;
       WorkflowRunId := WorkflowRunId c;
       WorkflowNodeId := WorkflowNodeId c;
       DeletedAt := DeletedAt c |} in
  match ParseCertificateFromPEM certPEM with
  | Some certX509 => PopulateFromX509 c certX509
  | None => c
  end.

End PEM.

Section KeyTypes.

(** lego's [certcrypto.KeyType] is a string type; these are its six
    constants. *)
Definition certcrypto_KeyType : Type := string.
Variables certcrypto_RSA2048 certcrypto_RSA3072 certcrypto_RSA4096
  certcrypto_RSA8192 certcrypto_EC256 certcrypto_EC384 : certcrypto_KeyType.

Definition keyTypeMap : list (CertificateKeyAlgorithmType * certcrypto_KeyType) :=
  [ (CertificateKeyAlgorithmTypeRSA2048, certcrypto_RSA2048);
    (CertificateKeyAlgorithmTypeRSA3072, certcrypto_RSA3072);
    (CertificateKeyAlgorithmTypeRSA4096, certcrypto_RSA4096);
    (CertificateKeyAlgorithmTypeRSA8192, certcrypto_RSA8192);
    (CertificateKeyAlgorithmTypeEC256, certcrypto_EC256);
    (CertificateKeyAlgorithmTypeEC384, certcrypto_EC384);
    (CertificateKeyAlgorithmTypeEC512, "P512") ].

(** [m[t]] on a map literal with distinct keys *)
Fixpoint lookup (m : list (CertificateKeyAlgorithmType * certcrypto_KeyType))
    (t : CertificateKeyAlgorithmType) : option certcrypto_KeyType :=
  match m with
  | [] => None
  | (k, v) :: rest => if String.eqb k t then Some v else lookup rest t
  end.

(** Both results of [t.KeyType()]: the key type and the error, [None] for
    nil. *)
Definition KeyType (t : CertificateKeyAlgorithmType)
  : certcrypto_KeyType * option error :=
  match lookup keyTypeMap t with
  | Some keyType => (keyType, None)
  | None =>
      (certcrypto_RSA2048,
       Some (ErrNew ("unsupported key algorithm type: '" ++ t ++ "'")))
  end.

(** The seven names of the [const] block. *)
Definition supported : list CertificateKeyAlgorithmType :=
  [ CertificateKeyAlgorithmTypeRSA2048; CertificateKeyAlgorithmTypeRSA3072;
    CertificateKeyAlgorithmTypeRSA4096; CertificateKeyAlgorithmTypeRSA8192;
    CertificateKeyAlgorithmTypeEC256; CertificateKeyAlgorithmTypeEC384;
    CertificateKeyAlgorithmTypeEC512 ].

Lemma lookup_keyTypeMap (t : CertificateKeyAlgorithmType) :
  lookup keyTypeMap t <> None <-> In t supported.
Proof.
  unfold keyTypeMap, supported. cbn [lookup In].
  repeat match goal with
  | |- context [String.eqb ?k t] => destruct (String.eqb_spec k t) as [<-|?]
  end; split; intros H; try discriminate; auto 10;
    try (exfalso; apply H; reflexivity);
    exfalso; repeat destruct H as [H|H]; contradiction.
Qed.

Lemma KeyType_nil_iff (t : CertificateKeyAlgorithmType) :
  snd (KeyType t) = None <-> In t supported.
Proof.
  rewrite <- lookup_keyTypeMap. unfold KeyType.
  destruct (lookup keyTypeMap t); cbn [snd]; split; intros H;
    try discriminate; try reflexivity.
  exfalso. apply H. reflexivity.
Qed.

(** A name made of a prefix and a decimal number is one of the seven only
    when the number is the one in the constant. *)
Lemma rsaKeyAlgorithm_supported (len : Z) :
  In (rsaKeyAlgorithm len) supported <-> In len [2048; 3072; 4096; 8192].
Proof.
  unfold rsaKeyAlgorithm.
  destruct (Z.eqb_spec len 0) as [->|H0].
  { split; intros H; exfalso; repeat destruct H as [H|H];
      try contradiction; discriminate H. }
  destruct (Z.eqb_spec len 2048) as [->|H1]; [split; intros _; cbn; auto 10|].
  destruct (Z.eqb_spec len 3072) as [->|H2]; [split; intros _; cbn; auto 10|].
  destruct (Z.eqb_spec len 4096) as [->|H3]; [split; intros _; cbn; auto 10|].
  destruct (Z.eqb_spec len 8192) as [->|H4]; [split; intros _; cbn; auto 10|].
  split; intros H; exfalso.
  - unfold supported in H.
    repeat destruct H as [H|H]; try contradiction;
      cbn [String.append] in H; try discriminate H;
      injection H as H.
    + apply (Sprintf_d_inj 2048 len) in H. congruence.
    + apply (Sprintf_d_inj 3072 len) in H. congruence.
    + apply (Sprintf_d_inj 4096 len) in H. congruence.
    + apply (Sprintf_d_inj 8192 len) in H. congruence.
  - repeat destruct H as [H|H]; try contradiction; congruence.
Qed.

Lemma ecKeyAlgorithm_supported (len : Z) :
  In (ecKeyAlgorithm len) supported <-> In len [256; 384; 521; 512].
Proof.
  unfold ecKeyAlgorithm.
  destruct (Z.eqb_spec len 0) as [->|H0].
  { split; intros H; exfalso; repeat destruct H as [H|H];
      try contradiction; discriminate H. }
  destruct (Z.eqb_spec len 256) as [->|H1]; [split; intros _; cbn; auto 10|].
  destruct (Z.eqb_spec len 384) as [->|H2]; [split; intros _; cbn; auto 10|].
  destruct (Z.eqb_spec len 521) as [->|H3]; [split; intros _; cbn; auto 10|].
  destruct (Z.eqb_spec len 512) as [->|H4]; [split; intros _; cbn; auto 10|].
  split; intros H; exfalso.
  - unfold supported in H.
    repeat destruct H as [H|H]; try contradiction;
      cbn [String.append] in H; try discriminate H;
      injection H as H.
    + apply (Sprintf_d_inj 256 len) in H. congruence.
    + apply (Sprintf_d_inj 384 len) in H. congruence.
    + apply (Sprintf_d_inj 512 len) in H. congruence.
  - repeat destruct H as [H|H]; try contradiction; congruence.
Qed.

(** X26: [KeyType] fails exactly on the names outside the [const] block.
    The error is nil if and only if the name is one of the seven constants
    (the lookup is exact, so also case-sensitive); for every other name the
    results are lego's RSA2048 together with the error that quotes the
    name; and the name EC512 is mapped to the key type [P512]. *)
Theorem KeyType_fails_exactly_on_unsupported_names
    (t : CertificateKeyAlgorithmType) :
  (snd (KeyType t) = None <-> In t supported) /\
  (~ In t supported ->
     KeyType t =
       (certcrypto_RSA2048,
        Some (ErrNew ("unsupported key algorithm type: '" ++ t ++ "'")))) /\
  KeyType CertificateKeyAlgorithmTypeEC512 = ("P512", None).
Proof.
  split; [apply KeyType_nil_iff|]. split; [|reflexivity].
  intros Hnot. unfold KeyType.
  destruct (lookup keyTypeMap t) as [keyType|] eqn:Hlookup; [|reflexivity].
  exfalso. apply Hnot, lookup_keyTypeMap. rewrite Hlookup. discriminate.
Qed.

(** X27: which parsed certificates get a key algorithm that [KeyType]
    accepts.  After [PopulateFromX509] the certificate's key algorithm is
    accepted exactly for an RSA key whose modulus has 2048, 3072, 4096 or
    8192 bits and for an ECDSA key on a curve of bit size 256, 384, 521 or
    512: the 521-bit curve is stored under the name EC512, and a 512-bit
    curve reaches the same name through the default branch.  Ed25519
    keys, other algorithms and keys of an unexpected dynamic type are
    never accepted. *)
Theorem populated_key_algorithm_accepted_iff
    (c : Certificate) (certX509 : x509_Certificate) :
  snd (KeyType (KeyAlgorithm (PopulateFromX509 c certX509))) = None <->
  (x509_PublicKeyAlgorithm certX509 = RSA /\
   exists N, x509_PublicKey certX509 = rsa_PublicKey N /\
             In (BitLen N) [2048; 3072; 4096; 8192]) \/
  (x509_PublicKeyAlgorithm certX509 = ECDSA /\
   exists BitSize, x509_PublicKey certX509 = ecdsa_PublicKey (Some BitSize) /\
                   In BitSize [256; 384; 521; 512]).
Proof.
  rewrite KeyType_nil_iff.
  destruct certX509 as [names serial org notBefore notAfter alg key].
  cbn [PopulateFromX509 KeyAlgorithm]. unfold keyAlgorithmOf.
  cbn [x509_PublicKeyAlgorithm x509_PublicKey].
  assert (Hrsa0 : ~ In (rsaKeyAlgorithm 0) supported).
  { rewrite rsaKeyAlgorithm_supported. intros H.
    repeat destruct H as [H|H]; try contradiction; discriminate H. }
  assert (Hec0 : ~ In (ecKeyAlgorithm 0) supported).
  { rewrite ecKeyAlgorithm_supported. intros H.
    repeat destruct H as [H|H]; try contradiction; discriminate H. }
  destruct alg.
  - split; [intros H; exfalso|intros [[H _]|[H _]]; discriminate H].
    repeat destruct H as [H|H]; try contradiction; discriminate H.
  - destruct key as [N|[BitSize|]|].
    + rewrite rsaKeyAlgorithm_supported. split.
      * intros H. left. split; [reflexivity|]. exists N. split; [reflexivity|exact H].
      * intros [(_ & N' & Hkey & Hin)|(Halg & _)]; [|discriminate Halg].
        injection Hkey as ->. exact Hin.
    + split; [intros H; contradiction|].
      intros [(_ & N' & Hkey & _)|(Halg & _)]; discriminate.
    + split; [intros H; contradiction|].
      intros [(_ & N' & Hkey & _)|(Halg & _)]; discriminate.
    + split; [intros H; contradiction|].
      intros [(_ & N' & Hkey & _)|(Halg & _)]; discriminate.
  - split; [intros H; exfalso|intros [[H _]|[H _]]; discriminate H].
    repeat destruct H as [H|H]; try contradiction; discriminate H.
  - destruct key as [N|[BitSize|]|].
    + split; [intros H; contradiction|].
      intros [(Halg & _)|(_ & b & Hkey & _)]; discriminate.
    + rewrite ecKeyAlgorithm_supported. split.
      * intros H. right. split; [reflexivity|]. exists BitSize.
        split; [reflexivity|exact H].
      * intros [(Halg & _)|(_ & b & Hkey & Hin)]; [discriminate Halg|].
        injection Hkey as ->. exact Hin.
    + split; [intros H; contradiction|].
      intros [(Halg & _)|(_ & b & Hkey & _)]; discriminate.
    + split; [intros H; contradiction|].
      intros [(Halg & _)|(_ & b & Hkey & _)]; discriminate.
  - split; [intros H; exfalso|intros [[H _]|[H _]]; discriminate H].
    repeat destruct H as [H|H]; try contradiction; discriminate H.
Qed.

End KeyTypes.

End Domain.

Example serial_number_is_upper_case_hex :
  Domain.strings_ToUpper (Domain.Text16 48879) = "BEEF" /\
  Domain.strings_ToUpper (Domain.Text16 (-26)) = "-1A" /\
  Domain.strings_ToUpper (Domain.Text16 0) = "0".
Proof. repeat split. Qed.

Example BitLen_examples :
  Domain.BitLen 0 = 0 /\ Domain.BitLen 255 = 8 /\ Domain.BitLen 256 = 9 /\
  Domain.BitLen (2 ^ 2048 - 1) = 2048.
Proof. repeat split. Qed.

Example strings_Join_examples :
  Domain.strings_Join [] ";" = EmptyString /\
  Domain.strings_Join ["a.example"] ";" = "a.example" /\
  Domain.strings_Join ["a.example"; "b.example"] ";" = "a.example;b.example".
Proof. repeat split. Qed.

(** ** The certificate repository ([package repository]) *)

Lemma add64_small (x y : Z) :
  - 2 ^ 63 <= x + y < 2 ^ 63 -> add64 x y = x + y.
Proof.
  intros H. unfold add64, wrap.
  change (2 ^ (64 - 1)) with (2 ^ 63). change (2 ^ 64) with (2 * 2 ^ 63).
  rewrite Z.mod_small by lia. lia.
Qed.

Lemma bind_Ok {E A B : Type} (t : list E) (a : A) (k : A -> M E B) :
  bind (t, Ok a) k = ((t ++ trace (k a))%list, outcome (k a)).
Proof.
  unfold bind, trace, outcome. destruct (k a). reflexivity.
Qed.

Module Repository.

Section App.

(** pocketbase's [*core.Record] *)
Variable Record_ : Type.

(** The calls on the application ([app.GetApp()]), on the settings
    repository and on the logger (the message; the attributes are left
    out). *)
Inductive event : Type :=
| CallFindAllRecords (collection : string) (exprs : list string)
| CallDelete (record : Record_)
| CallGetByName (name : string)
| LogError (msg : string)
| LogInfo (msg : string).

(** The application's answers.  An expression made by [dbx.NewExp] is its
    text; [Delete] is asked per call of a run, numbered from 0. *)
Record App : Type := {
  FindAllRecords : string -> list string -> error + list Record_;
  Delete : nat -> Record_ -> option error
}.

Variable app : App.

Definition CollectionNameCertificate : string := "certificate".

(** The [for _, record := range records] of [DeleteWhere]; [i] numbers the
    [Delete] calls. *)
Fixpoint deleteEach (records : list Record_) (i : nat) (count : Z)
    (errs : list error) : M event (Z * list error) :=
  match records with
  | [] => ret (count, errs)
  | record :: rest =>
      emit (CallDelete record) ;;
      match Delete app i record with
      | Some err => deleteEach rest (S i) count (errs ++ [err])%list
      | None => deleteEach rest (S i) (add64 count 1) errs
      end
  end.

(** [errors.Join(errs...)] under [len(errs) > 0], and nil otherwise: the
    joined error is the list of its parts. *)
Definition joined (errs : list error) : option (list error) :=
  match errs with
  | [] => None
  | _ :: _ => Some errs
  end.

(** Both results of [DeleteWhere]: the count and the error. *)
Definition DeleteWhere (exprs : list string)
  : M event (Z * option (list error)) :=
  emit (CallFindAllRecords CollectionNameCertificate exprs) ;;
  match FindAllRecords app CollectionNameCertificate exprs with
  | inl _ => ret (0, None)
  | inr records =>
      r <- deleteEach records 0 0 [] ;;
      ret (fst r, joined (snd r))
  end.

Definition deleteCalls (t : list event) : list Record_ :=
  flat_map (fun e => match e with CallDelete record => [record] | _ => [] end) t.

Definition findCalls (t : list event) : list (string * list string) :=
  flat_map (fun e => match e with
                     | CallFindAllRecords collection exprs => [(collection, exprs)]
                     | _ => []
                     end) t.

Definition logs (t : list event) : list event :=
  filter (fun e => match e with LogError _ | LogInfo _ => true | _ => false end) t.

(** Every record of the list is passed to [Delete], also after a failure;
    each call adds one to the count or one error. *)
Lemma deleteEach_run (records : list Record_) :
  forall (i : nat) (count : Z) (errs : list error),
    0 <= count ->
    count + Z.of_nat (List.length records) < 2 ^ 63 ->
    exists count' errs',
      outcome (deleteEach records i count errs) = Ok (count', (errs ++ errs')%list) /\
      trace (deleteEach records i count errs) = map CallDelete records /\
      count' + Z.of_nat (List.length errs')
        = count + Z.of_nat (List.length records) /\
      count <= count' /\
      (errs' = [] <->
       forall j record, nth_error records j = Some record ->
                        Delete app (i + j) record = None).
Proof.
  induction records as [|record rest IH]; intros i count errs Hpos Hsmall.
  - exists count, []. cbn [deleteEach]. rewrite app_nil_r.
    split; [reflexivity|]. split; [reflexivity|]. split; [simpl; lia|].
    split; [lia|]. split; [|reflexivity].
    intros _ [|j] record H; discriminate H.
  - cbn [deleteEach]. rewrite outcome_bind, trace_bind.
    cbn [emit outcome trace fst snd List.length map] in *.
    destruct (Delete app i record) as [err|] eqn:Hdel.
    + destruct (IH (S i) count (errs ++ [err])%list Hpos ltac:(lia))
        as (count' & errs' & Hout & Htr & Hsum & Hle & Hiff).
      exists count', (err :: errs'). rewrite Hout, Htr, <- app_assoc.
      split; [reflexivity|]. split; [reflexivity|].
      split; [cbn [List.length]; lia|]. split; [exact Hle|].
      split; [discriminate|].
      intros Hall. specialize (Hall 0%nat record eq_refl).
      rewrite Nat.add_0_r, Hdel in Hall. discriminate Hall.
    + rewrite add64_small by lia.
      destruct (IH (S i) (count + 1) errs ltac:(lia) ltac:(lia))
        as (count' & errs' & Hout & Htr & Hsum & Hle & Hiff).
      exists count', errs'. rewrite Hout, Htr.
      split; [reflexivity|]. split; [reflexivity|]. split; [lia|].
      split; [lia|]. rewrite Hiff. split.
      * intros Hall [|j] record' Hnth.
        -- injection Hnth as <-. rewrite Nat.add_0_r. exact Hdel.
        -- rewrite <- Nat.add_succ_comm. apply Hall. exact Hnth.
      * intros Hall j record' Hnth. rewrite Nat.add_succ_comm.
        apply (Hall (S j)). exact Hnth.
Qed.

Lemma deleteCalls_map (records : list Record_) :
  deleteCalls (map CallDelete records) = records.
Proof.
  induction records as [|record rest IH]; [reflexivity|].
  cbn [map deleteCalls flat_map List.app]. f_equal. exact IH.
Qed.

(** A run of [DeleteWhere] whose lookup succeeds, event by event. *)
Lemma DeleteWhere_run (exprs : list string) (records : list Record_) :
  FindAllRecords app CollectionNameCertificate exprs = inr records ->
  Z.of_nat (List.length records) < 2 ^ 63 ->
  exists count errs,
    DeleteWhere exprs =
      (CallFindAllRecords CollectionNameCertificate exprs
         :: map CallDelete records,
       Ok (count, joined errs)) /\
    0 <= count /\
    count + Z.of_nat (List.length errs) = Z.of_nat (List.length records) /\
    (errs = [] <->
     forall i record, nth_error records i = Some record ->
                      Delete app i record = None).
Proof.
  intros Hfind Hsmall.
  destruct (deleteEach_run records 0 0 [] ltac:(lia) ltac:(lia))
    as (count & errs & Hout & Htr & Hsum & Hle & Hiff).
  exists count, errs. split; [|split; [exact Hle|split; [lia|exact Hiff]]].
  apply injective_projections.
  - change (trace (DeleteWhere exprs) =
            CallFindAllRecords CollectionNameCertificate exprs
              :: map CallDelete records).
    unfold DeleteWhere. rewrite Hfind, !trace_bind.
    cbn [emit outcome trace fst snd]. rewrite ?outcome_bind, ?trace_bind, Hout, Htr.
    cbn [List.app ret outcome trace fst snd]. rewrite app_nil_r. reflexivity.
  - change (outcome (DeleteWhere exprs) = Ok (count, joined errs)).
    unfold DeleteWhere. rewrite Hfind, !outcome_bind.
    cbn [emit outcome trace fst snd]. rewrite ?outcome_bind, Hout.
    reflexivity.
Qed.

Lemma logs_map_CallDelete (records : list Record_) :
  logs (map CallDelete records) = [].
Proof.
  induction records as [|record rest IH]; [reflexivity|exact IH].
Qed.

Lemma findCalls_map_CallDelete (records : list Record_) :
  findCalls (map CallDelete records) = [].
Proof.
  induction records as [|record rest IH]; [reflexivity|exact IH].
Qed.

(** What the three projections keep of a trace that starts with the
    settings call, the lookup and the [Delete] calls. *)
Lemma projections_after_deletions (name collection : string)
    (exprs : list string) (records : list Record_) (rest : list event) :
  let t := (CallGetByName name :: CallFindAllRecords collection exprs
              :: map CallDelete records ++ rest)%list in
  findCalls t = (collection, exprs) :: findCalls rest /\
  deleteCalls t = (records ++ deleteCalls rest)%list /\
  logs t = logs rest.
Proof.
  cbv zeta. unfold findCalls, deleteCalls, logs.
  cbn [flat_map filter List.app]. rewrite !flat_map_app, filter_app.
  split; [|split].
  - f_equal. rewrite <- (app_nil_l (flat_map _ rest)) at 2. f_equal.
    apply findCalls_map_CallDelete.
  - f_equal. apply deleteCalls_map.
  - rewrite <- (app_nil_l (filter _ rest)) at 2. f_equal.
    apply logs_map_CallDelete.
Qed.

(** X28: [DeleteWhere] accounts for every record it found.  When the
    lookup succeeds, each found record is passed to [Delete] once, in
    order, a failure stopping nothing; the count and the number of joined
    errors add up to the number of records, and the error is nil exactly
    when every deletion succeeded. *)
Theorem DeleteWhere_accounts_for_every_record
    (exprs : list string) (records : list Record_) :
  FindAllRecords app CollectionNameCertificate exprs = inr records ->
  Z.of_nat (List.length records) < 2 ^ 63 ->
  let run := DeleteWhere exprs in
  exists count errs,
    outcome run = Ok (count, joined errs) /\
    deleteCalls (trace run) = records /\
    0 <= count /\
    count + Z.of_nat (List.length errs) = Z.of_nat (List.length records) /\
    (joined errs = None <->
     forall i record, nth_error records i = Some record ->
                      Delete app i record = None).
Proof.
  intros Hfind Hsmall run. subst run. unfold DeleteWhere.
  rewrite Hfind.
  destruct (deleteEach_run records 0 0 [] ltac:(lia) ltac:(lia))
    as (count & errs & Hout & Htr & Hsum & Hle & Hiff).
  exists count, errs.
  rewrite !outcome_bind, !trace_bind.
  cbn [emit outcome trace fst snd].
  rewrite ?outcome_bind, ?trace_bind, Hout, Htr.
  cbn [List.app ret outcome trace fst snd].
  rewrite app_nil_r.
  split; [reflexivity|].
  split; [cbn [deleteCalls flat_map List.app]; apply deleteCalls_map|].
  split; [exact Hle|]. split; [lia|].
  rewrite <- Hiff. destruct errs; split; intros H; try reflexivity; discriminate H.
Qed.

(** A lookup that fails is not reported: the count is 0, the error nil,
    and [Delete] is called on nothing. *)
Lemma DeleteWhere_lookup_failed (exprs : list string) (err : error) :
  FindAllRecords app CollectionNameCertificate exprs = inl err ->
  DeleteWhere exprs =
    ([CallFindAllRecords CollectionNameCertificate exprs], Ok (0, None)).
Proof.
  intros Hfind. unfold DeleteWhere. rewrite Hfind. reflexivity.
Qed.

End App.

Arguments FindAllRecords {Record_} _ _ _.
Arguments Delete {Record_} _ _ _.
Arguments DeleteWhere {Record_} _ _.
Arguments deleteCalls {Record_} _.
Arguments findCalls {Record_} _.
Arguments logs {Record_} _.
Arguments CallFindAllRecords {Record_} _ _.
Arguments CallDelete {Record_} _.
Arguments CallGetByName {Record_} _.
Arguments LogError {Record_} _.
Arguments LogInfo {Record_} _.

(** A store of three expired certificates, the second of which cannot be
    deleted; records are their row numbers. *)
Definition example_app : App nat :=
  {| FindAllRecords := fun collection exprs =>
       if String.eqb collection "certificate"
       then inr [1%nat; 2%nat; 3%nat]
       else inl (ErrNew "missing collection");
     Delete := fun i record =>
       if Nat.eqb record 2 then Some (ErrNew "the record is referenced") else None |}.

(** A store whose lookups fail. *)
Definition unavailable_app : App nat :=
  {| FindAllRecords := fun collection exprs => inl (ErrNew "database is locked");
     Delete := fun i record => None |}.

Lemma DeleteWhere_accounts_for_every_record_witness :
  let run := DeleteWhere example_app ["validityNotAfter<DATETIME('now', '-30 days')"] in
  exists count errs,
    outcome run = Ok (count, joined errs) /\
    deleteCalls (trace run) = [1%nat; 2%nat; 3%nat] /\
    0 <= count /\
    count + Z.of_nat (List.length errs) = 3 /\
    (joined errs = None <->
     forall i record, nth_error [1%nat; 2%nat; 3%nat] i = Some record ->
                      Delete example_app i record = None).
Proof.
  apply (DeleteWhere_accounts_for_every_record nat example_app
           ["validityNotAfter<DATETIME('now', '-30 days')"]
           [1%nat; 2%nat; 3%nat]); [reflexivity | cbn; lia].
Defined.

End Repository.

(** ** The certificate service ([package certificate]) *)

Module CertificateService.

Import Repository.

(** What [settings.Content.AsPersistence()] gives, the field read here. *)
Record PersistenceSettings : Type := {
  ExpiredCertificatesMaxDaysRetention : Z
}.

(** The error [cleanupExpiredCertificates] returns: the one of the settings
    repository, or the joined one of [DeleteWhere]. *)
Inductive cleanupError : Type :=
| SettingsError (err : error)
| DeleteError (errs : list error).

(** [fmt.Sprintf("validityNotAfter<DATETIME('now', '-%d days')", retention)] *)
Definition expiredBefore (retention : Z) : string :=
  "validityNotAfter<DATETIME('now', '-" ++ Sprintf_d retention ++ " days')".

Section Service.

Variable Record_ : Type.

(** The two interfaces of the service: [settingsRepo.GetByName] followed by
    [AsPersistence], and [certificateRepo.DeleteWhere]. *)
Variable settingsRepo_GetByName : string -> error + PersistenceSettings.
Variable certificateRepo_DeleteWhere :
  list string -> M (event Record_) (Z * option (list error)).

Definition cleanupExpiredCertificates
  : M (event Record_) (option cleanupError) :=
  emit (CallGetByName "persistence") ;;
  match settingsRepo_GetByName "persistence" with
  | inl err =>
      emit (LogError "failed to get persistence settings") ;;
      ret (Some (SettingsError err))
  | inr persistenceSettings =>
      if negb (ExpiredCertificatesMaxDaysRetention persistenceSettings =? 0)
      then
        r <- certificateRepo_DeleteWhere
               [expiredBefore (ExpiredCertificatesMaxDaysRetention persistenceSettings)] ;;
        match snd r with
        | Some errs =>
            emit (LogError "failed to delete expired certificates") ;;
            ret (Some (DeleteError errs))
        | None =>
            (if 0 <? fst r
             then emit (LogInfo
                          ("cleanup " ++ Sprintf_d (fst r) ++ " expired certificates"))
             else ret tt) ;;
            ret None
        end
      else ret None
  end.

End Service.

(** The service over the repository of [package repository]. *)
Definition cleanup {Record_ : Type} (app : App Record_)
    (settingsRepo_GetByName : string -> error + PersistenceSettings)
  : M (event Record_) (option cleanupError) :=
  cleanupExpiredCertificates Record_ settingsRepo_GetByName
    (DeleteWhere app).

(** X29: the cleanup that deletes nothing says nothing.  With the
    retention set to 0 the job looks nothing up; with another retention
    and a lookup that fails, the failure is dropped by the repository.
    In both cases the job returns nil, calls [Delete] on nothing and logs
    nothing. *)
Theorem cleanup_is_silent_when_disabled_or_lookup_fails
    {Record_ : Type} (app : App Record_)
    (settingsRepo_GetByName : string -> error + PersistenceSettings)
    (persistenceSettings : PersistenceSettings) :
  settingsRepo_GetByName "persistence" = inr persistenceSettings ->
  let retention := ExpiredCertificatesMaxDaysRetention persistenceSettings in
  (retention = 0 \/
   exists err,
     FindAllRecords app CollectionNameCertificate
       [expiredBefore retention] = inl err) ->
  let run := cleanup app settingsRepo_GetByName in
  outcome run = Ok None /\
  deleteCalls (trace run) = [] /\
  logs (trace run) = [] /\
  (retention = 0 -> findCalls (trace run) = []).
Proof.
  intros Hsettings retention Hcase run. subst run retention.
  unfold cleanup, cleanupExpiredCertificates. rewrite Hsettings.
  destruct (Z.eqb_spec (ExpiredCertificatesMaxDaysRetention persistenceSettings) 0)
    as [Hzero|Hnonzero]; cbn [negb].
  - repeat split; reflexivity.
  - destruct Hcase as [Hzero|[err Hfind]]; [contradiction|].
    rewrite (DeleteWhere_lookup_failed Record_ app _ err Hfind).
    repeat split; try reflexivity. intros Hzero. contradiction.
Qed.

(** X30: the cleanup with a retention other than 0 and a lookup that
    succeeds.  It looks up once, the certificates whose validity ended
    more than [retention] days ago, and passes every found record to
    [Delete].  When every deletion succeeds it returns nil and, if there
    was a record, logs how many were cleaned up; when a deletion fails it
    returns the joined errors and logs the failure, not the count. *)
Theorem cleanup_reports_failed_deletions
    {Record_ : Type} (app : App Record_)
    (settingsRepo_GetByName : string -> error + PersistenceSettings)
    (persistenceSettings : PersistenceSettings) (records : list Record_) :
  settingsRepo_GetByName "persistence" = inr persistenceSettings ->
  let retention := ExpiredCertificatesMaxDaysRetention persistenceSettings in
  retention <> 0 ->
  FindAllRecords app CollectionNameCertificate
    [expiredBefore retention] = inr records ->
  Z.of_nat (List.length records) < 2 ^ 63 ->
  let run := cleanup app settingsRepo_GetByName in
  findCalls (trace run)
    = [(CollectionNameCertificate, [expiredBefore retention])] /\
  deleteCalls (trace run) = records /\
  ((forall i record, nth_error records i = Some record ->
                     Delete app i record = None) ->
   outcome run = Ok None /\
   logs (trace run) =
     match records with
     | [] => []
     | _ :: _ =>
         [LogInfo
            ("cleanup " ++ Sprintf_d (Z.of_nat (List.length records))
                        ++ " expired certificates")]
     end) /\
  ((exists i record, nth_error records i = Some record /\
                     Delete app i record <> None) ->
   exists errs,
     errs <> [] /\
     outcome run = Ok (Some (DeleteError errs)) /\
     logs (trace run) =
       [LogError "failed to delete expired certificates"]).
Proof.
  intros Hsettings retention Hnonzero Hfind Hsmall run. subst run.
  unfold cleanup, cleanupExpiredCertificates. rewrite Hsettings.
  fold retention.
  destruct (Z.eqb_spec retention 0) as [Hzero|_]; [contradiction|]. cbn [negb].
  destruct (DeleteWhere_run Record_ app _ records Hfind Hsmall)
    as (count & errs & Hrun & Hpos & Hsum & Hiff).
  rewrite Hrun. clear Hrun.
  change (emit (@CallGetByName Record_ "persistence"))
    with ([@CallGetByName Record_ "persistence"], @Ok unit tt).
  rewrite !bind_Ok.
  cbn beta. cbn [trace outcome fst snd List.app].
  match goal with
  | |- context [(map (@CallDelete Record_) records ++ ?rest)%list] =>
      destruct (projections_after_deletions Record_ "persistence"
                  CollectionNameCertificate [expiredBefore retention]
                  records rest) as (-> & -> & ->)
  end.
  destruct errs as [|err errs]; cbn [joined].
  - assert (Hcount : count = Z.of_nat (List.length records))
      by (cbn [List.length] in Hsum; lia).
    assert (Hquiet : forall (b : bool) (msg : string),
              findCalls
                (trace ((if b then emit (@LogInfo Record_ msg) else ret tt) ;;
                      @ret (event Record_) _ (@None cleanupError))) = [] /\
              deleteCalls
                (trace ((if b then emit (@LogInfo Record_ msg) else ret tt) ;;
                      @ret (event Record_) _ (@None cleanupError))) = []).
    { intros [|] msg; split; reflexivity. }
    destruct (Hquiet (0 <? count)
                ("cleanup " ++ Sprintf_d count ++ " expired certificates"))
      as [Hq1 Hq2].
    rewrite Hq1, Hq2, app_nil_r.
    split; [reflexivity|]. split; [reflexivity|]. split.
    + intros _. subst count. destruct records as [|record rest].
      * split; reflexivity.
      * replace (0 <? Z.of_nat (List.length (record :: rest))) with true
          by (symmetry; apply Z.ltb_lt; cbn [List.length]; lia).
        split; reflexivity.
    + intros (i & record & Hnth & Hfail). exfalso. apply Hfail.
      apply (proj1 Hiff eq_refl i record Hnth).
  - cbn [bind emit ret fst snd List.app flat_map filter].
    rewrite app_nil_r.
    split; [reflexivity|]. split; [reflexivity|]. split.
    + intros Hall. apply (proj2 Hiff) in Hall. discriminate Hall.
    + intros _. exists (err :: errs). split; [discriminate|].
      split; reflexivity.
Qed.

Definition thirty_days (name : string) : error + PersistenceSettings :=
  inr {| ExpiredCertificatesMaxDaysRetention := 30 |}.

Example expiredBefore_thirty_days :
  expiredBefore 30 = "validityNotAfter<DATETIME('now', '-30 days')".
Proof. reflexivity. Qed.

Lemma cleanup_is_silent_when_disabled_or_lookup_fails_witness :
  let run := cleanup unavailable_app thirty_days in
  outcome run = Ok None /\
  deleteCalls (trace run) = [] /\
  logs (trace run) = [] /\
  (30 = 0 -> findCalls (trace run) = []).
Proof.
  apply (cleanup_is_silent_when_disabled_or_lookup_fails unavailable_app thirty_days
           {| ExpiredCertificatesMaxDaysRetention := 30 |});
    [reflexivity | right; exists (ErrNew "database is locked"); reflexivity].
Defined.

Lemma cleanup_reports_failed_deletions_witness :
  let run := cleanup example_app thirty_days in
  findCalls (trace run) = [(CollectionNameCertificate, [expiredBefore 30])] /\
  deleteCalls (trace run) = [1%nat; 2%nat; 3%nat] /\
  ((forall i record, nth_error [1%nat; 2%nat; 3%nat] i = Some record ->
                     Delete example_app i record = None) ->
   outcome run = Ok None /\
   logs (trace run) =
     [LogInfo ("cleanup " ++ Sprintf_d 3 ++ " expired certificates")]) /\
  ((exists i record, nth_error [1%nat; 2%nat; 3%nat] i = Some record /\
                     Delete example_app i record <> None) ->
   exists errs,
     errs <> [] /\
     outcome run = Ok (Some (DeleteError errs)) /\
     logs (trace run) = [LogError "failed to delete expired certificates"]).
Proof.
  apply (cleanup_reports_failed_deletions example_app thirty_days
           {| ExpiredCertificatesMaxDaysRetention := 30 |}
           [1%nat; 2%nat; 3%nat]);
    [reflexivity | cbn; lia | reflexivity | cbn; lia].
Defined.

End CertificateService.
